(** * EduPath Optimizer: the AI engine, embedded and verified

    A shallow embedding of the four components of [backend/ai_engine]:
    the feature engineer, the risk predictor, the counterfactual
    engine and the knowledge graph, followed by the properties proved
    of them.

    Numbers.  Python floats are idealised as exact rationals ([Q]):
    the rounding of binary64 arithmetic is not modelled, and two
    numbers are compared with [==] ([Qeq]).  The conversions the
    source performs explicitly are modelled: [round(x, 4)]
    ([py_round]), the cast to [np.float32] ([float32]) and the square
    root inside [np.std] ([np_sqrt], to 52 fractional bits).

    Collaborators.  The trained scikit-learn ensembles are black boxes:
    a classifier is a function from a feature vector to the probability
    of class 1.  The networkx graph is an adjacency list that keeps the
    insertion order of nodes and of successors, which the breadth-first
    traversal depends on. *)

From Stdlib Require Import ZArith QArith Qabs Qround Qminmax Qpower Lqa Lia List String Sorted.
From stdpp Require Import gmap strings pretty.

Open Scope Q_scope.

(** ** Numerics *)

Definition Qlt_bool (x y : Q) : bool := negb (Qle_bool y x).

(** Nearest integer, ties to the even one: the rounding of Python's [round]. *)
Definition round_half_even (x : Q) : Z :=
  let f := Qfloor x in
  match Qcompare (x - inject_Z f) (1 # 2) with
  | Lt => f
  | Gt => (f + 1)%Z
  | Eq => if Z.even f then f else (f + 1)%Z
  end.

Definition pow10 (n : nat) : Q := inject_Z (10 ^ Z.of_nat n).

(** [round(x, ndigits)] *)
Definition py_round (x : Q) (ndigits : nat) : Q :=
  inject_Z (round_half_even (x * pow10 ndigits)) / pow10 ndigits.

(** [int(x)]: truncation toward zero. *)
Definition py_int (x : Q) : Z := Z.quot (Qnum x) (Zpos (Qden x)).

(** [floor (log2 q)] for [0 < q]. *)
Definition ilog2 (q : Q) : Z :=
  let e := (Z.log2 (Qnum q) - Z.log2 (Zpos (Qden q)))%Z in
  if Qle_bool (Qpower 2 e) q then e else (e - 1)%Z.

(** The cast to [np.float32]: the nearest number with a 24-bit
    significand (subnormals below [2^-126]; overflow to infinity is
    not modelled). *)
Definition float32 (q : Q) : Q :=
  if Qeq_bool q 0 then 0
  else
    let e := Z.max (ilog2 (Qabs q)) (-126) in
    let ulp := Qpower 2 (e - 23) in
    inject_Z (round_half_even (q / ulp)) * ulp.

Definition np_sum (l : list Q) : Q := fold_right Qplus 0 l.

Definition py_len {A} (l : list A) : Q := inject_Z (Z.of_nat (length l)).

(** [np.mean], taken over the rationals: the sum and the quotient are
    exact, where numpy rounds both to binary64.  The result can differ
    from numpy's in the last bits (the mean of three times 0.7 is 0.7
    here and 0.6999999999999998 there): what is proved about a mean is
    exact for this value, and holds of numpy's up to that rounding. *)
Definition np_mean (l : list Q) : Q := np_sum l / py_len l.

Definition np_sqrt (x : Q) : Q :=
  inject_Z (Z.sqrt (Qfloor (x * inject_Z (2 ^ 104)))) / inject_Z (2 ^ 52).

Definition sq_dev (m x : Q) : Q := (x - m) * (x - m).

(** [np.std]: the population standard deviation, from the exact mean
    (see [np_mean]); the square root is rounded down to 52 binary
    digits. *)
Definition np_std (l : list Q) : Q := np_sqrt (np_mean (map (sq_dev (np_mean l)) l)).

Definition py_min (l : list Q) : Q :=
  match l with [] => 0 | x :: t => fold_left Qmin t x end.

Definition py_max (l : list Q) : Q :=
  match l with [] => 0 | x :: t => fold_left Qmax t x end.

Fixpoint insert_asc (x : Q) (l : list Q) : list Q :=
  match l with
  | [] => [x]
  | y :: t => if Qle_bool x y then x :: l else y :: insert_asc x t
  end.

Definition sort_asc (l : list Q) : list Q := fold_right insert_asc [] l.

(** [np.median]: the middle of the sorted values, or the mean of the
    two middle ones. *)
Definition np_median (l : list Q) : Q :=
  let s := sort_asc l in
  let n := length l in
  if Nat.even n
  then (nth (n / 2 - 1) s 0 + nth (n / 2) s 0) / 2
  else nth (n / 2) s 0.

(** [np.arange(n)] *)
Definition np_arange (n : nat) : list Q := map (fun i => inject_Z (Z.of_nat i)) (seq 0 n).

(** The slope returned by [scipy.stats.linregress(x, y)]: the
    covariance of [x] and [y] over the variance of [x]. *)
Definition linregress_slope (x y : list Q) : Q :=
  let xmean := np_mean x in
  let ymean := np_mean y in
  let ssxm := np_mean (map (sq_dev xmean) x) in
  let ssxym := np_mean (map (fun p => (fst p - xmean) * (snd p - ymean)) (combine x y)) in
  ssxym / ssxm.

(** The slices [l[-n:]] and [l[:n]], and the items [l[-1]] and [l[0]]. *)
Definition last_n {A} (n : nat) (l : list A) : list A := skipn (length l - n) l.
Definition first_n {A} (n : nat) (l : list A) : list A := firstn n l.
Definition item_last (l : list Q) : Q := List.last l 0.
Definition item_first (l : list Q) : Q := hd 0 l.

(** [np.clip(x, lo, hi)] *)
Definition np_clip (x lo hi : Q) : Q := Qmin (Qmax x lo) hi.

(** [sorted(l, key=key, reverse=True)]: stable, an item goes behind
    those whose key is not smaller. *)
Fixpoint insert_by_desc {A} (key : A -> Q) (x : A) (l : list A) : list A :=
  match l with
  | [] => [x]
  | y :: t => if Qle_bool (key x) (key y) then y :: insert_by_desc key x t else x :: l
  end.

Definition sorted_desc {A} (key : A -> Q) (l : list A) : list A :=
  fold_left (fun sorted x => insert_by_desc key x sorted) l [].

(** ** FeatureEngineer ([feature_engineering.py]) *)

Module FeatureEngineer.

(** One entry of ['marks_history']; [marks] is [None] when the key is absent. *)
Record subject_data := {
  subject : string;
  marks : option (list Q)
}.

(** The [student_data] dictionary: a field is [None] when its key is
    absent, and is then read with the default of [dict.get]. *)
Record student_data := {
  attendance_history : option (list Q);
  marks_history : option (list subject_data);
  current_subjects : option (list string);
  semester : option Z;
  previous_failures : option Z
}.

(** The number of [i] in [1 .. len-1] with [attendance[i] < attendance[i-1]]. *)
Fixpoint count_declines (attendance : list Q) : nat :=
  match attendance with
  | a :: (b :: _) as t => ((if Qlt_bool b a then 1 else 0) + count_declines t)%nat
  | _ => 0%nat
  end.

Definition _extract_attendance_features (attendance : list Q) : list Q :=
  if (length attendance <? 2)%nat then repeat 0 6
  else
    let current := item_last attendance / 100 in
    let weeks := np_arange (length attendance) in
    let slope := linregress_slope weeks attendance in
    let trend := slope / 10 in
    let volatility := np_std attendance / 100 in
    let recent_mean :=
      if (3 <=? length attendance)%nat then np_mean (last_n 3 attendance)
      else item_last attendance in
    let early_mean :=
      if (3 <=? length attendance)%nat then np_mean (first_n 3 attendance)
      else item_first attendance in
    let decline := (early_mean - recent_mean) / 100 in
    let declines := count_declines attendance in
    let decline_ratio := inject_Z (Z.of_nat declines) / py_len attendance in
    let min_attendance := py_min attendance / 100 in
    [current; trend; volatility; decline; decline_ratio; min_attendance].

(** The four lists the loop over the subjects fills. *)
Record marks_acc := {
  all_trends : list Q;
  all_volatilities : list Q;
  all_means : list Q;
  all_recent : list Q
}.

Definition marks_step (acc : marks_acc) (sd : subject_data) : marks_acc :=
  let marks := default [] (marks sd) in
  if (length marks <? 2)%nat then acc
  else
    let tests := np_arange (length marks) in
    let slope := linregress_slope tests marks in
    {| all_trends := all_trends acc ++ [slope];
       all_volatilities := all_volatilities acc ++ [np_std marks];
       all_means := all_means acc ++ [np_mean marks];
       all_recent := all_recent acc ++
         [if (2 <=? length marks)%nat then np_mean (last_n 2 marks) else item_last marks] |}.

Definition count_if (p : Q -> bool) (l : list Q) : Q := py_len (List.filter p l).

Definition _extract_marks_features (marks_history : list subject_data) : list Q :=
  match marks_history with
  | [] => repeat 0 8
  | _ =>
    let acc :=
      fold_left marks_step marks_history
        {| all_trends := []; all_volatilities := []; all_means := []; all_recent := [] |} in
    let avg_trend :=
      match all_trends acc with [] => 0 | l => np_mean l / 10 end in
    let avg_volatility :=
      match all_volatilities acc with [] => 0 | l => np_mean l / 20 end in
    let avg_performance :=
      match all_means acc with [] => 0 | l => np_mean l / 20 end in
    let recent_performance :=
      match all_recent acc with [] => 0 | l => np_mean l / 20 end in
    let declining_subjects := count_if (fun t => Qlt_bool t (-0.5)) (all_trends acc) in
    let declining_ratio := declining_subjects / Qmax (py_len marks_history) 1 in
    let performance_range :=
      match all_means acc with [] => 0 | l => (py_max l - py_min l) / 20 end in
    let median_perf :=
      match all_means acc with [] => 0 | l => np_median l end in
    let weak_subjects := count_if (fun m => Qlt_bool m median_perf) (all_means acc) in
    let weak_ratio := weak_subjects / Qmax (py_len marks_history) 1 in
    [avg_trend; avg_volatility; avg_performance; recent_performance;
     declining_ratio; performance_range; weak_ratio; py_len marks_history]
  end.

Definition difficulty_map : gmap string Q :=
  list_to_map
    [("Math", 0.9); ("Calculus", 0.95); ("Linear Algebra", 0.85);
     ("Physics", 0.85); ("Chemistry", 0.80); ("Programming", 0.88);
     ("Data Structures", 0.90); ("Algorithms", 0.92);
     ("Database", 0.75); ("Networks", 0.78)]%string.

Definition _extract_load_features (subjects : list string) (semester : Z) : list Q :=
  let subject_count := py_len subjects in
  let semester_factor := inject_Z semester / 8 in
  let load_intensity := subject_count / 6 in
  let avg_difficulty :=
    match subjects with
    | [] => 0.70
    | _ => np_mean (map (fun subj => default 0.70 (difficulty_map !! subj)) subjects)
    end in
  [subject_count; semester_factor; load_intensity; avg_difficulty].

(** [marks[-1]] of every subject that has marks. *)
Fixpoint recent_marks_of (marks_history : list subject_data) : list Q :=
  match marks_history with
  | [] => []
  | sd :: t =>
    match default [] (marks sd) with
    | [] => recent_marks_of t
    | m => item_last m :: recent_marks_of t
    end
  end.

Definition _extract_engagement_features
    (attendance : list Q) (marks_history : list subject_data) : list Q :=
  let engagement_score :=
    if (3 <=? length attendance)%nat && negb (bool_decide (marks_history = []))
    then
      let recent_attendance := np_mean (last_n 3 attendance) in
      let all_recent_marks := recent_marks_of marks_history in
      let recent_marks :=
        match all_recent_marks with [] => 0 | l => np_mean l end in
      (recent_attendance / 100) * (recent_marks / 20)
    else 0.5 in
  let data_completeness := Qmin (py_len attendance / 10) 1 in
  [engagement_score; data_completeness].

(** [extract_features]: the five groups in order, cast to [np.float32]. *)
Definition extract_features (data : student_data) : list Q :=
  let attendance := default [] (attendance_history data) in
  let features := _extract_attendance_features attendance in
  let marks := default [] (marks_history data) in
  let features := features ++ _extract_marks_features marks in
  let current_subjects := default [] (current_subjects data) in
  let semester := default 1%Z (semester data) in
  let features := features ++ _extract_load_features current_subjects semester in
  let prev_failures := default 0%Z (previous_failures data) in
  let features := features ++ [inject_Z prev_failures] in
  let features := features ++ [inject_Z prev_failures / inject_Z (Z.max semester 1)] in
  let features := features ++ _extract_engagement_features attendance marks in
  map float32 features.

Definition get_feature_names : list string :=
  ["attendance_current"; "attendance_trend"; "attendance_volatility";
   "attendance_decline"; "decline_ratio"; "min_attendance";
   "marks_trend"; "marks_volatility"; "avg_performance"; "recent_performance";
   "declining_subjects_ratio"; "performance_range"; "weak_subjects_ratio";
   "subject_count_marks";
   "subject_count"; "semester_factor"; "load_intensity"; "avg_difficulty";
   "previous_failures"; "failure_rate";
   "engagement_score"; "data_completeness"]%string.

Definition get_feature_count : nat := length get_feature_names.

(** The slot groups of a feature vector. *)
Definition attendance_slots (v : list Q) : list Q := firstn 6 v.
Definition marks_slots (v : list Q) : list Q := firstn 8 (skipn 6 v).
Definition load_slots (v : list Q) : list Q := firstn 4 (skipn 14 v).
Definition history_slots (v : list Q) : list Q := firstn 2 (skipn 18 v).
Definition engagement_slots (v : list Q) : list Q := skipn 20 v.

(** No subject of the marks history has two scores. *)
Definition no_marks_trend (marks_history : list subject_data) : Prop :=
  Forall (fun sd => (length (default [] (marks sd)) < 2)%nat) marks_history.

End FeatureEngineer.

(** ** Exceptions *)

Inductive exn :=
| ValueError (msg : string)
| FileNotFoundError (msg : string)
| AttributeError (msg : string).

(** [IndexError]; a computation that may raise it returns
    [lookup_error + A]. *)
Inductive lookup_error :=
| IndexError (msg : string).

(** ** RiskPredictor ([risk_predictor.py]) *)

Module RiskPredictor.

(** The fitted ensemble: the probability of class 1 it predicts, its
    accuracy on a labelled set and its feature importances. *)
Record GradientBoostingClassifier := {
  gb_predict_proba : list Q -> Q;
  gb_score : list (list Q) -> list Z -> Q;
  feature_importances_ : list Q
}.

(** The calibrated ensemble: [predict_proba(features)[0][1]]. *)
Record CalibratedClassifierCV := {
  predict_proba : list Q -> Q
}.

Record t := {
  model : option GradientBoostingClassifier;
  calibrated_model : option CalibratedClassifierCV;
  model_path : string;
  is_trained : bool
}.

Record PredictionResult := {
  failure_probability : Q;
  confidence : Q;
  risk_level : string;
  prediction : Z
}.

Record metrics := {
  train_accuracy : Q;
  val_accuracy : Q;
  n_samples : nat;
  n_features : nat
}.

(** What [joblib.load] finds at [model_path], if the file exists. *)
Definition model_store : Type := option (GradientBoostingClassifier * CalibratedClassifierCV).

Definition load_model (self : t) (file : model_store) : exn + t :=
  match file with
  | None => inl (FileNotFoundError ("No model found at " ++ model_path self))
  | Some loaded =>
    inr {| model := Some (fst loaded);
           calibrated_model := Some (snd loaded);
           model_path := model_path self;
           is_trained := true |}
  end.

(** [__init__]: untrained, unless a model file exists. *)
Definition init (path : option string) (file : model_store) : exn + t :=
  let self := {| model := None;
                 calibrated_model := None;
                 model_path := default "ml_models/risk_predictor.pkl"%string path;
                 is_trained := false |} in
  match file with
  | Some _ => load_model self file
  | None => inr self
  end.

Section Train.
(** scikit-learn's splitting and fitting routines. *)
Variable train_test_split :
  list (list Q) -> list Z -> (list (list Q) * list (list Q)) * (list Z * list Z).
Variable fit : list (list Q) -> list Z -> GradientBoostingClassifier.
Variable fit_calibrated : list (list Q) -> list Z -> CalibratedClassifierCV.

Definition train (self : t) (X : list (list Q)) (y : list Z) : t * metrics :=
  let '((X_train, X_val), (y_train, y_val)) := train_test_split X y in
  let model := fit X_train y_train in
  let X_combined := X_train ++ X_val in
  let y_combined := y_train ++ y_val in
  let calibrated_model := fit_calibrated X_combined y_combined in
  let train_score := gb_score model X_train y_train in
  let val_score := gb_score model X_val y_val in
  ({| model := Some model;
      calibrated_model := Some calibrated_model;
      model_path := model_path self;
      is_trained := true |},
   {| train_accuracy := train_score;
      val_accuracy := val_score;
      n_samples := length X;
      n_features := length (hd [] X) |}).
End Train.

Definition not_trained_error : exn :=
  ValueError "Model not trained. Call train() first or load a trained model.".

Definition predict (self : t) (features : list Q) : exn + PredictionResult :=
  if negb (is_trained self) then inl not_trained_error
  else
    match calibrated_model self with
    | None => inl (AttributeError "'NoneType' object has no attribute 'predict_proba'")
    | Some calibrated =>
      let failure_prob := predict_proba calibrated features in
      let confidence := Qabs (failure_prob - 0.5) * 2 in
      let risk_level :=
        if Qle_bool 0.7 failure_prob then "high"
        else if Qle_bool 0.4 failure_prob then "medium"
        else "low" in
      let prediction := if Qle_bool 0.5 failure_prob then 1%Z else 0%Z in
      inr {| failure_probability := py_round failure_prob 4;
             confidence := py_round confidence 4;
             risk_level := risk_level;
             prediction := prediction |}
    end.

Definition get_feature_importance (self : t) : exn + gmap string Q :=
  if negb (is_trained self) then inr ∅
  else
    match model self with
    | None => inl (AttributeError "'NoneType' object has no attribute 'feature_importances_'")
    | Some m =>
      inr (list_to_map
             (imap (fun i imp => (("feature_" ++ pretty i)%string, imp))
                   (feature_importances_ m)))
    end.

(** The loop of [predict_batch] over the rows still to predict. *)
Fixpoint predict_rows (self : t) (features_batch : list (list Q))
    (predictions : list PredictionResult) : exn + list PredictionResult :=
  match features_batch with
  | [] => inr predictions
  | features :: features_batch =>
    match predict self features with
    | inl e => inl e
    | inr p => predict_rows self features_batch (predictions ++ [p])
    end
  end.

Definition predict_batch (self : t) (features_batch : list (list Q))
    : exn + list PredictionResult :=
  predict_rows self features_batch [].

(** The dictionary [save_model] hands to [joblib.dump]:
    [{'model': ..., 'calibrated_model': ...}]. *)
Definition model_dump : Type :=
  (option GradientBoostingClassifier * option CalibratedClassifierCV)%type.

Section Save.
(** The operating system's routines: [os.path.dirname], and
    [os.makedirs(name, exist_ok=True)] with the exception it raises,
    if any. *)
Variable dirname : string -> string.
Variable makedirs : string -> option exn.

(** [save_model]: what is written at [model_path]. *)
Definition save_model (self : t) : exn + model_dump :=
  if negb (is_trained self) then inl (ValueError "No trained model to save")
  else
    match makedirs (dirname (model_path self)) with
    | Some e => inl e
    | None => inr (model self, calibrated_model self)
    end.
End Save.

End RiskPredictor.

(** ** KnowledgeGraph ([knowledge_graph.py]) *)

Module KnowledgeGraph.

(** [networkx.DiGraph]: every node with its successors and the
    strength of each edge, nodes and successors in insertion order.
    The [difficulty] attribute of a node, which only [export_graph]
    reads, is left out. *)
Definition DiGraph : Type := list (string * list (string * Q)).

Fixpoint assoc {A} (k : string) (l : list (string * A)) : option A :=
  match l with
  | [] => None
  | (k', a) :: t => if bool_decide (k = k') then Some a else assoc k t
  end.

(** [n in graph] *)
Definition has_node (g : DiGraph) (n : string) : bool :=
  match assoc n g with Some _ => true | None => false end.

Definition nodes (g : DiGraph) : list string := map fst g.

(** [graph.successors(n)], each with [graph[n][dependent]['strength']]. *)
Definition successors (g : DiGraph) (n : string) : list (string * Q) :=
  default [] (assoc n g).

Definition add_node (g : DiGraph) (n : string) : DiGraph :=
  if has_node g n then g else g ++ [(n, [])].

Fixpoint set_strength (v : string) (s : Q) (succs : list (string * Q)) : list (string * Q) :=
  match succs with
  | [] => [(v, s)]
  | (v', s') :: t =>
    if bool_decide (v = v') then (v', s) :: t else (v', s') :: set_strength v s t
  end.

(** [graph.add_edge(u, v, strength=s)]: adds the missing nodes, then
    sets the strength of the edge, new or old. *)
Definition add_edge (g : DiGraph) (u v : string) (s : Q) : DiGraph :=
  let g := add_node (add_node g u) v in
  map (fun entry =>
         if bool_decide (fst entry = u)
         then (fst entry, set_strength v s (snd entry))
         else entry) g.

Definition add_dependency (g : DiGraph) (prerequisite course : string) (strength : Q) : DiGraph :=
  add_edge g prerequisite course strength.

Definition default_dependencies : list (string * string * Q) :=
  [("Calculus I", "Calculus II", 0.9);
   ("Calculus II", "Calculus III", 0.85);
   ("Calculus I", "Linear Algebra", 0.7);
   ("Linear Algebra", "Differential Equations", 0.8);
   ("Programming Fundamentals", "Data Structures", 0.95);
   ("Data Structures", "Algorithms", 0.90);
   ("Programming Fundamentals", "Object Oriented Programming", 0.85);
   ("Data Structures", "Database Systems", 0.70);
   ("Physics I", "Physics II", 0.85);
   ("Calculus I", "Physics I", 0.75);
   ("Physics II", "Quantum Mechanics", 0.80);
   ("Calculus I", "Probability and Statistics", 0.70);
   ("Programming Fundamentals", "Machine Learning", 0.80);
   ("Linear Algebra", "Machine Learning", 0.85);
   ("Algorithms", "Advanced Algorithms", 0.90);
   ("Chemistry", "Organic Chemistry", 0.85);
   ("Physics I", "Thermodynamics", 0.75);
   ("Calculus II", "Engineering Mathematics", 0.80)]%string.

(** [_initialize_default_graph]; the two [add_node] calls after each
    edge find the node present and do nothing. *)
Definition _initialize_default_graph (g : DiGraph) : DiGraph :=
  fold_left
    (fun g d =>
       let '(prereq, course, strength) := d in
       let g := add_edge g prereq course strength in
       let g := if has_node g prereq then g else add_node g prereq in
       if has_node g course then g else add_node g course)
    default_dependencies g.

Definition init : DiGraph := _initialize_default_graph [].

(** *** Shortest paths, as [networkx] computes them *)

(** The nodes one edge away from [frontier] that were not seen. *)
Fixpoint next_level (g : DiGraph) (frontier : list string) (seen : gset string) : list string :=
  match frontier with
  | [] => []
  | n :: t =>
    let fresh :=
      List.filter (fun v => negb (bool_decide (v ∈ seen))) (map fst (successors g n)) in
    fresh ++ next_level g t (seen ∪ list_to_set fresh)
  end.

(** Breadth-first levels from the source; [None] is
    [NetworkXNoPath].  Every level adds a node, so as many levels as
    the graph has nodes suffice. *)
Fixpoint bfs_levels (fuel : nat) (g : DiGraph) (target : string)
    (frontier : list string) (seen : gset string) (depth : nat) : option nat :=
  if bool_decide (target ∈ frontier) then Some depth
  else
    match fuel with
    | O => None
    | S fuel' =>
      match next_level g frontier seen with
      | [] => None
      | next => bfs_levels fuel' g target next (seen ∪ list_to_set next) (S depth)
      end
    end.

(** [nx.shortest_path_length(graph, source, target)] *)
Definition shortest_path_length (g : DiGraph) (source target : string) : option nat :=
  bfs_levels (length g) g target [source] {[source]} 0.

(** [nx.has_path(graph, source, target)] *)
Definition has_path (g : DiGraph) (source target : string) : bool :=
  match shortest_path_length g source target with Some _ => true | None => false end.

Definition calculate_dependency_depth (g : DiGraph) (course : string) : nat :=
  if negb (has_node g course) then 0%nat
  else
    let paths :=
      fold_left
        (fun paths node =>
           if negb (bool_decide (node = course)) && has_path g node course
           then match shortest_path_length g node course with
                | Some path_length => paths ++ [path_length]
                | None => paths
                end
           else paths)
        (nodes g) [] in
    match paths with
    | [] => 0%nat
    | _ => list_max paths
    end.

(** *** Risk propagation *)

(** One turn of the loop over the successors of the current course. *)
Definition propagate_step (current_risk : Q)
    (st : gmap string Q * list (string * Q)) (edge : string * Q)
    : gmap string Q * list (string * Q) :=
  let '(propagated_risks, queue) := st in
  let '(dependent, edge_strength) := edge in
  let propagated_risk := current_risk * edge_strength * 0.8 in
  let propagated_risks :=
    match propagated_risks !! dependent with
    | Some old => <[dependent := Qmax old propagated_risk]> propagated_risks
    | None => <[dependent := propagated_risk]> propagated_risks
    end in
  let queue :=
    if Qlt_bool 0.2 propagated_risk
    then queue ++ [(dependent, propagated_risk)]
    else queue in
  (propagated_risks, queue).

(** The [while queue] loop.  [None]: the fuel ran out before the
    queue was empty. *)
Fixpoint propagate_loop (fuel : nat) (g : DiGraph) (visited : gset string)
    (queue : list (string * Q)) (propagated_risks : gmap string Q)
    : option (gmap string Q) :=
  match queue with
  | [] => Some propagated_risks
  | (current_course, current_risk) :: queue =>
    match fuel with
    | O => None
    | S fuel' =>
      if bool_decide (current_course ∈ visited)
      then propagate_loop fuel' g visited queue propagated_risks
      else
        let visited := {[current_course]} ∪ visited in
        let '(propagated_risks, queue) :=
          fold_left (propagate_step current_risk) (successors g current_course)
                    (propagated_risks, queue) in
        propagate_loop fuel' g visited queue propagated_risks
    end
  end.

(** What the not yet visited part of the graph can still add to the queue. *)
Fixpoint pending (g : DiGraph) (visited : gset string) : nat :=
  match g with
  | [] => 0%nat
  | (n, succs) :: t =>
    ((if bool_decide (n ∈ visited) then 0 else S (length succs)) + pending t visited)%nat
  end.

(** More turns than the loop can take: one for the source and, for
    every node, one for each of its edges. *)
Definition traversal_fuel (g : DiGraph) : nat := S (pending g ∅).

Definition propagate_risk (g : DiGraph) (failed_course : string) (failure_risk : Q)
    : option (gmap string Q) :=
  if negb (has_node g failed_course) then Some ∅
  else
    match propagate_loop (traversal_fuel g) g ∅ [(failed_course, failure_risk)] ∅ with
    | Some propagated_risks => Some (delete failed_course propagated_risks)
    | None => None
    end.

(** Every edge strength lies in (0,1]. *)
Definition strengths_in_unit (g : DiGraph) : Prop :=
  Forall (fun entry => Forall (fun e => 0 < snd e /\ snd e <= 1) (snd entry)) g.

(** Every value of the map is at most [bound]. *)
Definition risks_bounded (bound : Q) (risks : gmap string Q) : Prop :=
  forall k v, risks !! k = Some v -> v <= bound.

(** Every risk waiting in the queue lies between 0 and the source risk. *)
Definition queue_within (source_risk : Q) (queue : list (string * Q)) : Prop :=
  Forall (fun e => 0 <= snd e /\ snd e <= source_risk) queue.

(** Follows the spec's words: the maximum outgoing edge strength of a course. *)
Definition max_outgoing_strength (g : DiGraph) (course : string) : Q :=
  py_max (map snd (successors g course)).

(** [walk g p]: every two consecutive courses of [p] are joined by an edge. *)
Fixpoint walk (g : DiGraph) (p : list string) : bool :=
  match p with
  | a :: (b :: _) as t =>
    match assoc b (successors g a) with Some _ => walk g t | None => false end
  | _ => true
  end.

Definition predecessors (g : DiGraph) (n : string) : list string :=
  List.filter (fun u => match assoc n (successors g u) with Some _ => true | None => false end)
              (nodes g).

(** Follows the spec's words: the number of edges of the longest
    path that ends in [course], through courses not in [avoid]. *)
Fixpoint longest_path_to (fuel : nat) (g : DiGraph) (avoid : list string) (course : string) : nat :=
  match fuel with
  | O => 0%nat
  | S fuel' =>
    list_max
      (map (fun u =>
              if bool_decide (u ∈ course :: avoid) then 0%nat
              else S (longest_path_to fuel' g (course :: avoid) u))
           (predecessors g course))
  end.

Definition longest_ancestor_path (g : DiGraph) (course : string) : nat :=
  longest_path_to (length g) g [] course.

(** The map [new] holds every key of [old], with a value that is not smaller. *)
Definition risks_grow (old new : gmap string Q) : Prop :=
  forall k v, old !! k = Some v -> exists v', new !! k = Some v' /\ v <= v'.

(** [reachable g a b]: edges of the graph lead from [a] to [b]. *)
Inductive reachable (g : DiGraph) (a : string) : string -> Prop :=
| reachable_refl : reachable g a a
| reachable_step (b c : string) (s : Q) :
    reachable g a b -> In (c, s) (successors g b) -> reachable g a c.

(** *** Queries *)

(** [get_dependent_courses]; a pair is the dictionary
    [{'subject': dependent, 'dependency_strength': strength}]. *)
Definition get_dependent_courses (g : DiGraph) (course : string) : list (string * Q) :=
  if negb (has_node g course) then []
  else
    let dependents :=
      map (fun dependent =>
             (dependent, default 0 (assoc dependent (successors g course))))
          (map fst (successors g course)) in
    sorted_desc snd dependents.

(** [graph.edges]: the edges of every node, nodes and successors in
    insertion order. *)
Definition edges (g : DiGraph) : list (string * string) :=
  flat_map (fun entry => map (fun e => (fst entry, fst e)) (snd entry)) g.

Record exported_graph := {
  exported_nodes : list (string * Q);
  exported_edges : list (string * string * Q)
}.

(** [export_graph].  A node is [{'id', 'difficulty'}], an edge is
    [{'source', 'target', 'strength'}].  No node carries a
    [difficulty] attribute ([add_edge] creates the nodes before the
    [add_node] calls of [_initialize_default_graph] are reached), so
    [.get('difficulty', 0.75)] answers the default. *)
Definition export_graph (g : DiGraph) : exported_graph :=
  {| exported_nodes := map (fun node => (node, 0.75)) (nodes g);
     exported_edges :=
       map (fun e => (fst e, snd e, default 0 (assoc (snd e) (successors g (fst e)))))
           (edges g) |}.

(** The graphs a [KnowledgeGraph] object can hold: the default graph
    and what [add_dependency] makes of it. *)
Inductive built : DiGraph -> Prop :=
| built_init : built init
| built_add_dependency (g : DiGraph) (prerequisite course : string) (strength : Q) :
    built g -> built (add_dependency g prerequisite course strength).

(** No course is listed twice, no dependent twice under a course, and
    every dependent is a course of the graph. *)
Definition well_formed (g : DiGraph) : Prop :=
  NoDup (nodes g) /\
  Forall (fun entry =>
            NoDup (map fst (snd entry)) /\
            Forall (fun e => has_node g (fst e) = true) (snd entry)) g.

(** *** The predecessors

    [networkx] keeps, beside the successors of every node, its
    predecessors, in the order in which the edges to it were first
    added.  [graph.predecessors] reads that index, which the adjacency
    list does not determine; the queries on prerequisites are stated
    on a graph that carries it. *)

Module Indexed.

Record t := {
  _succ : DiGraph;
  _pred : list (string * list string)
}.

(** [graph.predecessors(n)] *)
Definition predecessors (G : t) (n : string) : list string :=
  default [] (assoc n (_pred G)).

Definition add_node (G : t) (n : string) : t :=
  {| _succ := KnowledgeGraph.add_node (_succ G) n;
     _pred := match assoc n (_pred G) with
              | Some _ => _pred G
              | None => _pred G ++ [(n, [])]
              end |}.

(** [u] joins the predecessors unless it is one already. *)
Fixpoint add_once (u : string) (preds : list string) : list string :=
  match preds with
  | [] => [u]
  | u' :: t => if bool_decide (u = u') then preds else u' :: add_once u t
  end.

Definition add_edge (G : t) (u v : string) (s : Q) : t :=
  let G' := add_node (add_node G u) v in
  {| _succ := KnowledgeGraph.add_edge (_succ G) u v s;
     _pred := map (fun entry =>
                     if bool_decide (fst entry = v)
                     then (fst entry, add_once u (snd entry))
                     else entry) (_pred G') |}.

Definition add_dependency (G : t) (prerequisite course : string) (strength : Q) : t :=
  add_edge G prerequisite course strength.

Definition _initialize_default_graph (G : t) : t :=
  fold_left
    (fun G d =>
       let '(prereq, course, strength) := d in
       let G := add_edge G prereq course strength in
       let G := if has_node (_succ G) prereq then G else add_node G prereq in
       if has_node (_succ G) course then G else add_node G course)
    default_dependencies G.

Definition init : t := _initialize_default_graph {| _succ := []; _pred := [] |}.

(** [get_prerequisites]; a pair is the dictionary
    [{'subject': prereq, 'dependency_strength': strength}]. *)
Definition get_prerequisites (G : t) (course : string) : list (string * Q) :=
  if negb (has_node (_succ G) course) then []
  else
    let prerequisites :=
      map (fun prereq => (prereq, default 0 (assoc course (successors (_succ G) prereq))))
          (predecessors G course) in
    sorted_desc snd prerequisites.

(** An entry of the list [get_critical_prerequisites] returns. *)
Record critical_prerequisite := {
  subject : string;
  dependent_courses : list string;
  avg_strength : Q;
  criticality : Q
}.

(** One turn of the loop over the prerequisites of [course]:
    [prerequisite_counts] keeps, for every prerequisite met, the
    courses it was met under. *)
Definition count_prerequisite (course : string) (prerequisite_counts : list (string * list string))
    (prereq_name : string) : list (string * list string) :=
  let prerequisite_counts :=
    match assoc prereq_name prerequisite_counts with
    | Some _ => prerequisite_counts
    | None => prerequisite_counts ++ [(prereq_name, [])]
    end in
  map (fun entry =>
         if bool_decide (fst entry = prereq_name)
         then (fst entry, snd entry ++ [course])
         else entry) prerequisite_counts.

Definition count_prerequisites (G : t) (current_courses : list string)
    : list (string * list string) :=
  fold_left
    (fun prerequisite_counts course =>
       fold_left (count_prerequisite course) (map fst (get_prerequisites G course))
                 prerequisite_counts)
    current_courses [].

(** The strength of the edges from [prereq_name] to those of the
    courses it has an edge to. *)
Definition strengths_to (G : t) (prereq_name : string) (courses : list string) : list Q :=
  omap (fun course => assoc course (successors (_succ G) prereq_name)) courses.

Definition rate_prerequisite (G : t) (entry : string * list string) : critical_prerequisite :=
  let '(prereq_name, dependent_courses) := entry in
  let num_dependents := py_len dependent_courses in
  let strengths := strengths_to G prereq_name dependent_courses in
  let avg_strength :=
    match strengths with [] => 0 | _ => np_sum strengths / py_len strengths end in
  let criticality := num_dependents * avg_strength in
  {| subject := prereq_name;
     dependent_courses := dependent_courses;
     avg_strength := py_round avg_strength 3;
     criticality := py_round criticality 3 |}.

Definition get_critical_prerequisites (G : t) (current_courses : list string)
    : list critical_prerequisite :=
  sorted_desc criticality (map (rate_prerequisite G) (count_prerequisites G current_courses)).

(** The graphs a [KnowledgeGraph] object can hold. *)
Inductive built : t -> Prop :=
| built_init : built init
| built_add_dependency (G : t) (prerequisite course : string) (strength : Q) :
    built G -> built (add_dependency G prerequisite course strength).

(** What [prerequisite_counts] holds after the courses [seen]: every
    prerequisite met once, under courses that have it, and nothing
    left out. *)
Definition counted (G : t) (seen : list string) (counts : list (string * list string)) : Prop :=
  NoDup (map fst counts) /\
  (forall p deps, assoc p counts = Some deps ->
     deps <> [] /\
     forall c, In c deps ->
       In c seen /\ In p (map fst (get_prerequisites G c))) /\
  (forall c p, In c seen -> In p (map fst (get_prerequisites G c)) ->
     exists deps, assoc p counts = Some deps /\ In c deps).

(** The two indices agree: [u] is a predecessor of [v] exactly when
    [v] is a successor of [u]; no predecessor is listed twice. *)
Definition consistent (G : t) : Prop :=
  well_formed (_succ G) /\
  forall v, NoDup (predecessors G v) /\
            forall u, In u (predecessors G v) <-> is_Some (assoc v (successors (_succ G) u)).

End Indexed.

End KnowledgeGraph.

(** ** Calls on the predictor

    The engine queries the predictor again and again; a computation of
    the engine may raise, and it records every vector it sent to
    [predict]. *)

Definition M (A : Type) : Type := list (list Q) -> (exn + A) * list (list Q).

Definition ret {A} (a : A) : M A := fun log => (inr a, log).

Definition bind {A B} (c : M A) (k : A -> M B) : M B :=
  fun log =>
    match c log with
    | (inl e, log') => (inl e, log')
    | (inr a, log') => k a log'
    end.

Notation "x <- c ;; k" := (bind c (fun x => k))
  (at level 100, c at next level, right associativity).

(** [risk_predictor.predict(features)], recorded. *)
Definition query_predict (rp : RiskPredictor.t) (features : list Q)
    : M RiskPredictor.PredictionResult :=
  fun log => (RiskPredictor.predict rp features, log ++ [features]).

(** ** CounterfactualEngine ([counterfactual_engine.py]) *)

Module CounterfactualEngine.

Record intervention := {
  name : string;
  description : string;
  feature_indices : list nat;
  delta_range : list Q;
  effort_cost : Z
}.

(** The engine; the feature engineer it also holds has no state. *)
Record t := {
  risk_predictor : RiskPredictor.t;
  interventions : list intervention
}.

Definition default_interventions : list intervention :=
  [ {| name := "Improve Attendance";
       description := "Attend {delta} more classes consistently";
       feature_indices := [0; 1]%nat;
       delta_range := [0.05; 0.10; 0.15; 0.20];
       effort_cost := 2 |};
    {| name := "Boost Internal Marks";
       description := "Improve test scores by {delta} marks on average";
       feature_indices := [8; 9]%nat;
       delta_range := [0.10; 0.20; 0.30; 0.40];
       effort_cost := 3 |};
    {| name := "Stabilize Performance";
       description := "Reduce performance volatility and maintain consistency";
       feature_indices := [7; 13]%nat;
       delta_range := [-0.10; -0.20; -0.30];
       effort_cost := 2 |};
    {| name := "Increase Engagement";
       description := "Improve overall academic engagement";
       feature_indices := [20]%nat;
       delta_range := [0.10; 0.20; 0.30];
       effort_cost := 2 |} ].

Definition init (rp : RiskPredictor.t) : t :=
  {| risk_predictor := rp; interventions := default_interventions |}.

(** The dictionary of a result; its ['description'] is
    [description_text] here, [description] being the template of an
    intervention. *)
Record InterventionResult := {
  action : string;
  description_text : string;
  current_risk : Q;
  predicted_risk : Q;
  risk_reduction : Q;
  risk_reduction_percent : Q;
  effort_level : Z;
  effectiveness_score : Q;
  confidence : Q
}.

(** [needle in hay] *)
Fixpoint contains (needle hay : string) : bool :=
  String.prefix needle hay ||
  match hay with
  | EmptyString => false
  | String _ rest => contains needle rest
  end.

(** [f"{x:.2f}"] for [0 <= x] *)
Definition format_2f (x : Q) : string :=
  let c := round_half_even (x * 100) in
  let frac := (c mod 100)%Z in
  (pretty (c / 100)%Z ++ "." ++ (if (frac <? 10)%Z then "0" else "") ++ pretty frac)%string.

Definition _format_delta (delta : Q) (action_name : string) : string :=
  if contains "Attendance" action_name
  then (pretty (py_int (Qabs delta * 100)) ++ "%")%string
  else if contains "Marks" action_name
  then pretty (py_int (Qabs delta * 20))
  else if contains "Engagement" action_name
  then (pretty (py_int (Qabs delta * 100)) ++ "%")%string
  else format_2f (Qabs delta).

(** [template.format(delta=value)]: every [{delta}] replaced;
    [skip] characters of a field just replaced are still to drop. *)
Fixpoint format_from (skip : nat) (template value : string) : string :=
  match template with
  | EmptyString => EmptyString
  | String c rest =>
    match skip with
    | S k => format_from k rest value
    | O =>
      if String.prefix "{delta}" template
      then (value ++ format_from 6 rest value)%string
      else String c (format_from 0 rest value)
    end
  end.

Definition format (template value : string) : string := format_from 0 template value.

(** One turn of the loop over [feature_indices]: add [delta] to the
    slot and clip it; an index past the vector is skipped. *)
Definition perturb (delta : Q) (modified_features : list Q) (idx : nat) : list Q :=
  if (idx <? length modified_features)%nat
  then
    let modified_features :=
      <[idx := float32 (nth idx modified_features 0 + delta)]> modified_features in
    <[idx := float32 (np_clip (nth idx modified_features 0) 0 1)]> modified_features
  else modified_features.

Definition modify (current_features : list Q) (iv : intervention) (delta : Q) : list Q :=
  fold_left (perturb delta) (feature_indices iv) current_features.

(** The dictionary [_simulate_intervention] builds for one magnitude. *)
Definition scenario (iv : intervention) (delta current_risk : Q)
    (prediction : RiskPredictor.PredictionResult) : InterventionResult :=
  let new_risk := RiskPredictor.failure_probability prediction in
  let risk_reduction := current_risk - new_risk in
  let effectiveness := risk_reduction / inject_Z (effort_cost iv) in
  {| action := name iv;
     description_text := format (description iv) (_format_delta delta (name iv));
     current_risk := py_round current_risk 4;
     predicted_risk := py_round new_risk 4;
     risk_reduction := py_round risk_reduction 4;
     risk_reduction_percent := py_round (risk_reduction * 100) 1;
     effort_level := effort_cost iv;
     effectiveness_score := py_round effectiveness 4;
     confidence := RiskPredictor.confidence prediction |}.

(** The loop of [_simulate_intervention] over the magnitudes still to try. *)
Fixpoint simulate_deltas (self : t) (current_features : list Q) (iv : intervention)
    (current_risk : Q) (deltas : list Q)
    (best_result : option InterventionResult) (best_effectiveness : Q)
    : M (option InterventionResult) :=
  match deltas with
  | [] => ret best_result
  | delta :: deltas =>
    let modified_features := modify current_features iv delta in
    prediction <- query_predict (risk_predictor self) modified_features ;;
    let new_risk := RiskPredictor.failure_probability prediction in
    let risk_reduction := current_risk - new_risk in
    if Qle_bool risk_reduction 0
    then simulate_deltas self current_features iv current_risk deltas
           best_result best_effectiveness
    else
      let effectiveness := risk_reduction / inject_Z (effort_cost iv) in
      if Qlt_bool best_effectiveness effectiveness
      then simulate_deltas self current_features iv current_risk deltas
             (Some (scenario iv delta current_risk prediction)) effectiveness
      else simulate_deltas self current_features iv current_risk deltas
             best_result best_effectiveness
  end.

Definition _simulate_intervention (self : t) (current_features : list Q)
    (iv : intervention) (current_risk : Q) : M (option InterventionResult) :=
  simulate_deltas self current_features iv current_risk (delta_range iv) None (-1).

(** [results.sort(key=effectiveness_score, reverse=True)]: stable,
    an item goes behind those whose score is not smaller. *)
Fixpoint insert_desc (x : InterventionResult) (l : list InterventionResult)
    : list InterventionResult :=
  match l with
  | [] => [x]
  | y :: t =>
    if Qle_bool (effectiveness_score x) (effectiveness_score y)
    then y :: insert_desc x t
    else x :: l
  end.

Definition sort_desc (l : list InterventionResult) : list InterventionResult :=
  fold_left (fun sorted x => insert_desc x sorted) l [].

(** The loop of [simulate_interventions] over the catalog. *)
Fixpoint simulate_each (self : t) (current_features : list Q) (ivs : list intervention)
    (current_risk : Q) (results : list InterventionResult)
    : M (list InterventionResult) :=
  match ivs with
  | [] => ret results
  | iv :: ivs =>
    best_scenario <- _simulate_intervention self current_features iv current_risk ;;
    simulate_each self current_features ivs current_risk
      (match best_scenario with
       | Some best => results ++ [best]
       | None => results
       end)
  end.

Definition simulate_interventions (self : t) (data : FeatureEngineer.student_data)
    (current_risk : Q) : M (list InterventionResult) :=
  let current_features := FeatureEngineer.extract_features data in
  results <- simulate_each self current_features (interventions self) current_risk [] ;;
  ret (firstn 3 (sort_desc results)).

(** What [find_minimal_safe_path] returns, by its ['status']. *)
Inductive safe_path :=
| safe (message : string) (current_risk target_risk : Q)
| solution_found (path : list InterventionResult) (final_risk : Q) (total_effort : Z)
| partial_solution (path : list InterventionResult) (final_risk : Q) (total_effort : Z)
    (note : string)
| no_solution (message : string) (current_risk : Q).

Definition status (o : safe_path) : string :=
  match o with
  | safe _ _ _ => "safe"
  | solution_found _ _ _ => "solution_found"
  | partial_solution _ _ _ _ => "partial_solution"
  | no_solution _ _ => "no_solution"
  end.

(** The scan of the ranked interventions for the first that reaches the target. *)
Fixpoint first_reaching (target_risk : Q) (ranked : list InterventionResult)
    : option InterventionResult :=
  match ranked with
  | [] => None
  | iv :: rest =>
    if Qle_bool (predicted_risk iv) target_risk then Some iv
    else first_reaching target_risk rest
  end.

Definition find_minimal_safe_path (self : t) (data : FeatureEngineer.student_data)
    (target_risk : Q) : M safe_path :=
  let current_features := FeatureEngineer.extract_features data in
  current_prediction <- query_predict (risk_predictor self) current_features ;;
  let current_risk := RiskPredictor.failure_probability current_prediction in
  if Qle_bool current_risk target_risk
  then ret (safe "Student is already below target risk threshold" current_risk target_risk)
  else
    ranked <- simulate_interventions self data current_risk ;;
    match first_reaching target_risk ranked with
    | Some iv => ret (solution_found [iv] (predicted_risk iv) (effort_level iv))
    | None =>
      match ranked with
      | best :: _ =>
        ret (partial_solution [best] (predicted_risk best) (effort_level best)
               "Multiple interventions may be needed to reach target safety level")
      | [] => ret (no_solution "Unable to find viable intervention path" current_risk)
      end
    end.

(** What [simulate_combined_interventions] returns. *)
Record combined_result := {
  original_risk : Q;
  combined_risk : Q;
  total_risk_reduction : Q;
  total_effort : Z;
  interventions_applied : list string
}.

(** [next((i for i in self.interventions if i['name'] == intervention_name), None)] *)
Definition find_intervention (self : t) (intervention_name : string) : option intervention :=
  List.find (fun i => bool_decide (name i = intervention_name)) (interventions self).

(** The moderate magnitude: [delta_range[1]], or [delta_range[0]]
    when there is no second one. *)
Definition moderate_delta (iv : intervention) : lookup_error + Q :=
  match delta_range iv with
  | _ :: delta :: _ => inr delta
  | [delta] => inr delta
  | [] => inl (IndexError "list index out of range")
  end.

(** The loop of [simulate_combined_interventions] over the names. *)
Fixpoint apply_named (self : t) (names : list string)
    (modified_features : list Q) (total_effort : Z) : lookup_error + (list Q * Z) :=
  match names with
  | [] => inr (modified_features, total_effort)
  | intervention_name :: names =>
    match find_intervention self intervention_name with
    | None => apply_named self names modified_features total_effort
    | Some iv =>
      match moderate_delta iv with
      | inl e => inl e
      | inr delta =>
        apply_named self names
          (fold_left (perturb delta) (feature_indices iv) modified_features)
          (total_effort + effort_cost iv)
      end
    end
  end.

Definition simulate_combined_interventions (self : t) (data : FeatureEngineer.student_data)
    (names : list string) : M (lookup_error + combined_result) :=
  let current_features := FeatureEngineer.extract_features data in
  current_prediction <- query_predict (risk_predictor self) current_features ;;
  match apply_named self names current_features 0 with
  | inl e => ret (inl e)
  | inr (modified_features, total_effort) =>
    new_prediction <- query_predict (risk_predictor self) modified_features ;;
    ret (inr {| original_risk := RiskPredictor.failure_probability current_prediction;
                combined_risk := RiskPredictor.failure_probability new_prediction;
                total_risk_reduction :=
                  RiskPredictor.failure_probability current_prediction
                  - RiskPredictor.failure_probability new_prediction;
                total_effort := total_effort;
                interventions_applied := names |})
  end.

(** *** The vocabulary of the ranking contract *)

(** Sorted by [effectiveness_score], descending. *)
Definition by_score_desc (a b : InterventionResult) : Prop :=
  effectiveness_score b <= effectiveness_score a.

(** The risk, the reduction and the effectiveness of a magnitude, as
    [_simulate_intervention] computes them from the answer of the
    calibrated model [m]. *)
Definition new_risk (m : RiskPredictor.CalibratedClassifierCV) (features : list Q)
    (iv : intervention) (delta : Q) : Q :=
  py_round (RiskPredictor.predict_proba m (modify features iv delta)) 4.

Definition reduction (m : RiskPredictor.CalibratedClassifierCV) (features : list Q)
    (iv : intervention) (current_risk delta : Q) : Q :=
  current_risk - new_risk m features iv delta.

Definition effectiveness (m : RiskPredictor.CalibratedClassifierCV) (features : list Q)
    (iv : intervention) (current_risk delta : Q) : Q :=
  reduction m features iv current_risk delta / inject_Z (effort_cost iv).

(** [delta] improves, and no improving magnitude of [deltas] is more effective. *)
Definition best_magnitude (m : RiskPredictor.CalibratedClassifierCV) (features : list Q)
    (iv : intervention) (current_risk : Q) (deltas : list Q) (delta : Q) : Prop :=
  In delta deltas /\
  0 < reduction m features iv current_risk delta /\
  forall delta', In delta' deltas ->
    0 < reduction m features iv current_risk delta' ->
    effectiveness m features iv current_risk delta'
      <= effectiveness m features iv current_risk delta.

(** What [_simulate_intervention] may return for the magnitudes
    [deltas]: nothing when none improves, else the scenario of a best one. *)
Definition chosen (rp : RiskPredictor.t) (m : RiskPredictor.CalibratedClassifierCV)
    (features : list Q) (iv : intervention) (current_risk : Q) (deltas : list Q)
    (best : option InterventionResult) : Prop :=
  match best with
  | None => forall delta, In delta deltas -> reduction m features iv current_risk delta <= 0
  | Some r =>
    exists delta a,
      RiskPredictor.predict rp (modify features iv delta) = inr a /\
      r = scenario iv delta current_risk a /\
      best_magnitude m features iv current_risk deltas delta
  end.

(** The state of the loop of [_simulate_intervention] after the magnitudes [seen]. *)
Definition loop_state (rp : RiskPredictor.t) (m : RiskPredictor.CalibratedClassifierCV)
    (features : list Q) (iv : intervention) (current_risk : Q) (seen : list Q)
    (best : option InterventionResult) (best_effectiveness : Q) : Prop :=
  (best = None /\ best_effectiveness < 0 /\
   forall delta, In delta seen -> reduction m features iv current_risk delta <= 0) \/
  (exists delta a,
      RiskPredictor.predict rp (modify features iv delta) = inr a /\
      best = Some (scenario iv delta current_risk a) /\
      best_effectiveness == effectiveness m features iv current_risk delta /\
      best_magnitude m features iv current_risk seen delta).

(** A number with at most four decimals, as [round(x, 4)] returns. *)
Definition four_decimals (x : Q) : Prop := exists k : Z, x == inject_Z k / 10000.

(** The vectors [simulate_interventions] sends to the predictor: one
    for every magnitude of every intervention. *)
Definition probes (features : list Q) (ivs : list intervention) : list (list Q) :=
  concat (map (fun iv => map (modify features iv) (delta_range iv)) ivs).

End CounterfactualEngine.

(** ** TrainingPipeline ([train_model.py]) *)

Module TrainingPipeline.

(** The dictionary [_generate_student_profile] returns: every key is
    there, and every subject of the marks history has its marks. *)
Record student_profile := {
  student_id : string;
  archetype : string;
  attendance_history : list Q;
  marks_history : list (string * list Q);
  current_subjects : list string;
  semester : Z;
  previous_failures : Z
}.

(** [_determine_label].  [noise] is the draw
    [np.random.uniform(-0.1, 0.1)] and [failure_threshold] the draw
    [np.random.uniform(0.45, 0.55)]; an empty attendance history
    stops at [attendance[-1]]. *)
Definition _determine_label (student_data : student_profile)
    (noise failure_threshold : Q) : lookup_error + Z :=
  let attendance := attendance_history student_data in
  let recent_attendance := np_mean (last_n 3 attendance) in
  match attendance with
  | [] => inl (IndexError "list index out of range")
  | _ =>
    let attendance_trend := item_last attendance - item_first attendance in
    let all_marks := concat (map snd (marks_history student_data)) in
    let avg_marks := match all_marks with [] => 10 | _ => np_mean all_marks end in
    let prev_failures := previous_failures student_data in
    let risk_score := 0 in
    let risk_score :=
      if Qlt_bool recent_attendance 60 then risk_score + 0.35
      else if Qlt_bool recent_attendance 75 then risk_score + 0.20
      else risk_score in
    let risk_score :=
      if Qlt_bool attendance_trend (-15) then risk_score + 0.25
      else if Qlt_bool attendance_trend (-8) then risk_score + 0.15
      else risk_score in
    let risk_score :=
      if Qlt_bool avg_marks 10 then risk_score + 0.30
      else if Qlt_bool avg_marks 13 then risk_score + 0.15
      else risk_score in
    let risk_score := risk_score + Qmin (inject_Z prev_failures * 0.10) 0.30 in
    let risk_score := risk_score + noise in
    inr (if Qlt_bool failure_threshold risk_score then 1%Z else 0%Z)
  end.

End TrainingPipeline.

(** ** Sample inputs *)

Module Samples.
Import FeatureEngineer.

(** The student of the docstring of [extract_features]. *)
Definition declining_student : student_data :=
  {| attendance_history := Some [75; 72; 68; 65; 62];
     marks_history :=
       Some [ {| subject := "Math"; marks := Some [15; 17; 14] |};
              {| subject := "Physics"; marks := Some [18; 16; 15] |} ];
     current_subjects := Some ["Math"; "Physics"; "Chemistry"]%string;
     semester := Some 3%Z;
     previous_failures := Some 1%Z |}.

(** A new student: one week of attendance, one subject with a single score. *)
Definition new_student : student_data :=
  {| attendance_history := Some [80];
     marks_history := Some [ {| subject := "Math"; marks := Some [15] |} ];
     current_subjects := Some ["Math"]%string;
     semester := Some 1%Z;
     previous_failures := Some 0%Z |}.

(** A predictor whose calibrated model answers [p] on every vector. *)
Definition constant_predictor (p : Q) : RiskPredictor.t :=
  {| RiskPredictor.model :=
       Some {| RiskPredictor.gb_predict_proba := fun _ => p;
               RiskPredictor.gb_score := fun _ _ => 1;
               RiskPredictor.feature_importances_ := repeat (1 / 22) 22 |};
     RiskPredictor.calibrated_model := Some {| RiskPredictor.predict_proba := fun _ => p |};
     RiskPredictor.model_path := "ml_models/risk_predictor.pkl";
     RiskPredictor.is_trained := true |}.

(** A calibrated model that reads the risk off the first slot: one
    minus the current attendance. *)
Definition attendance_model : RiskPredictor.CalibratedClassifierCV :=
  {| RiskPredictor.predict_proba := fun features => 1 - nth 0 features 0 |}.

Definition attendance_predictor : RiskPredictor.t :=
  {| RiskPredictor.model :=
       Some {| RiskPredictor.gb_predict_proba := fun features => 1 - nth 0 features 0;
               RiskPredictor.gb_score := fun _ _ => 1;
               RiskPredictor.feature_importances_ := 1 :: repeat 0 21 |};
     RiskPredictor.calibrated_model := Some attendance_model;
     RiskPredictor.model_path := "ml_models/risk_predictor.pkl";
     RiskPredictor.is_trained := true |}.

Definition untrained_predictor : RiskPredictor.t :=
  {| RiskPredictor.model := None;
     RiskPredictor.calibrated_model := None;
     RiskPredictor.model_path := "ml_models/risk_predictor.pkl";
     RiskPredictor.is_trained := false |}.

(** A -> B (0.9), B -> C (0.8) *)
Definition chain_graph : KnowledgeGraph.DiGraph :=
  KnowledgeGraph.add_edge (KnowledgeGraph.add_edge [] "A" "B" 0.9) "B" "C" 0.8.

(** The default graph with one more dependency: Calculus III now
    also depends directly on Calculus I. *)
Definition shortcut_graph : KnowledgeGraph.DiGraph :=
  KnowledgeGraph.add_dependency KnowledgeGraph.init "Calculus I" "Calculus III" 0.5.

End Samples.

(** * Properties *)

(** ** The embedding on concrete inputs *)

Example py_round_ties_to_even :
  py_round 0.33335 4 == 0.3334 /\ py_round 0.33345 4 == 0.3334 /\ py_round (-0.00004) 4 == 0.
Proof. repeat split. Qed.

Example float32_of_a_tenth : float32 0.1 == 13421773 # 134217728.
Proof. reflexivity. Qed.

Example median_of_four : np_median [4; 1; 3; 2] == 2.5.
Proof. reflexivity. Qed.

Example slope_of_marks : linregress_slope (np_arange 3) [15; 17; 14] == -0.5.
Proof. reflexivity. Qed.

Example description_of_attendance :
  CounterfactualEngine.format "Attend {delta} more classes consistently"
    (CounterfactualEngine._format_delta 0.15 "Improve Attendance")
  = "Attend 15% more classes consistently"%string.
Proof. reflexivity. Qed.

Example delta_of_stabilize :
  CounterfactualEngine._format_delta (-0.20) "Stabilize Performance" = "0.20"%string.
Proof. reflexivity. Qed.

Example default_graph_nodes : length KnowledgeGraph.init = 20%nat.
Proof. reflexivity. Qed.

(** The chain A -> B -> C of strengths 0.9 and 0.8, from risk 1:
    B gets 0.72 and, since 0.72 > 0.2, C gets 0.4608; A is absent. *)
Example propagate_along_chain :
  option_map map_to_list (KnowledgeGraph.propagate_risk Samples.chain_graph "A" 1)
  = Some [("C", 0.4608); ("B", 0.72)]%string.
Proof. vm_compute. reflexivity. Qed.

Example importance_names :
  match RiskPredictor.get_feature_importance (Samples.constant_predictor 0.5) with
  | inr names => names !! "feature_21"%string = Some (1 / 22) /\ size names = 22%nat
  | inl _ => False
  end.
Proof. vm_compute. split; reflexivity. Qed.

(** The declining student under the attendance model: the risk is
    0.38, and attending 20% more brings it to 0.18. *)
Example safe_path_by_attendance :
  match fst (CounterfactualEngine.find_minimal_safe_path
               (CounterfactualEngine.init Samples.attendance_predictor)
               Samples.declining_student 0.3 []) with
  | inr (CounterfactualEngine.solution_found [iv] final_risk total_effort) =>
    CounterfactualEngine.action iv = "Improve Attendance"%string /\
    CounterfactualEngine.description_text iv = "Attend 20% more classes consistently"%string /\
    CounterfactualEngine.current_risk iv == 0.38 /\
    final_risk == 0.18 /\ total_effort = 2%Z
  | _ => False
  end.
Proof. vm_compute. repeat split. Qed.

(** ** Comparisons *)

Lemma Qle_bool_false (x y : Q) : Qle_bool x y = false -> y < x.
Proof.
  intros E. apply Qnot_le_lt. intros H. apply Qle_bool_iff in H. congruence.
Qed.

Lemma Qlt_bool_true (x y : Q) : Qlt_bool x y = true -> x < y.
Proof. unfold Qlt_bool. intros E%negb_true_iff. now apply Qle_bool_false. Qed.

Lemma Qlt_bool_false (x y : Q) : Qlt_bool x y = false -> y <= x.
Proof. unfold Qlt_bool. intros E%negb_false_iff. now apply Qle_bool_iff. Qed.

Lemma Qlt_bool_false_intro (x y : Q) : y <= x -> Qlt_bool x y = false.
Proof. unfold Qlt_bool. intros H. apply negb_false_iff. now apply Qle_bool_iff. Qed.

(** Both outcomes of the test [x <= y], each with what it says of [x] and [y]. *)
Ltac case_Qle x y :=
  let E := fresh "E" in
  destruct (Qle_bool x y) eqn:E;
  [apply Qle_bool_iff in E | apply Qle_bool_false in E].

(** ** Rounding *)

Lemma round_half_even_ge (x : Q) (n : Z) :
  inject_Z n <= x -> (n <= round_half_even x)%Z.
Proof.
  intros H. apply Qfloor_resp_le in H. rewrite Qfloor_Z in H.
  unfold round_half_even.
  destruct (Qcompare _ _); [destruct (Z.even _)|..]; lia.
Qed.

Lemma round_half_even_le (x : Q) (n : Z) :
  x <= inject_Z n -> (round_half_even x <= n)%Z.
Proof.
  intros H. unfold round_half_even.
  pose proof (Qfloor_le x) as Hf.
  destruct (Z.eq_dec (Qfloor x) n) as [E|E].
  - assert (Hx : x - inject_Z (Qfloor x) == 0) by (rewrite E in *; lra).
    rewrite Hx. change (Qcompare 0 (1 # 2)) with Lt. cbv iota. rewrite E. apply Z.le_refl.
  - assert (Qfloor x <= n)%Z.
    { apply Qfloor_resp_le in H. now rewrite Qfloor_Z in H. }
    destruct (Qcompare _ _); [destruct (Z.even _)|..]; lia.
Qed.

Lemma round_half_even_Z (x : Q) (n : Z) : x == inject_Z n -> round_half_even x = n.
Proof.
  intros H. apply Z.le_antisymm.
  - apply round_half_even_le. lra.
  - apply round_half_even_ge. lra.
Qed.

Lemma py_round4_nonneg (x : Q) : 0 <= x -> 0 <= py_round x 4.
Proof.
  intros H. unfold py_round. change (pow10 4) with (10000 : Q).
  assert (0 <= round_half_even (x * 10000))%Z.
  { apply round_half_even_ge. change (inject_Z 0) with 0. lra. }
  apply Qle_shift_div_l; [lra|]. rewrite Qmult_0_l.
  change 0 with (inject_Z 0). now rewrite <- Zle_Qle.
Qed.

Lemma py_round4_le_1 (x : Q) : x <= 1 -> py_round x 4 <= 1.
Proof.
  intros H. unfold py_round. change (pow10 4) with (10000 : Q).
  assert (round_half_even (x * 10000) <= 10000)%Z.
  { apply round_half_even_le. change (inject_Z 10000) with 10000. lra. }
  apply Qle_shift_div_r; [lra|].
  change (1 * 10000) with (inject_Z 10000). now rewrite <- Zle_Qle.
Qed.

(** A number with at most four decimals is its own rounding. *)
Lemma py_round4_grid (x : Q) (k : Z) : x == inject_Z k / 10000 -> py_round x 4 == x.
Proof.
  intros H. unfold py_round. change (pow10 4) with (10000 : Q).
  rewrite (round_half_even_Z (x * 10000) k); [now rewrite H|].
  rewrite H. field.
Qed.

Lemma py_round4_on_grid (x : Q) : exists k : Z, py_round x 4 == inject_Z k / 10000.
Proof. eexists. unfold py_round. change (pow10 4) with (10000 : Q). reflexivity. Qed.

Lemma round_half_even_comp (x y : Q) : x == y -> round_half_even x = round_half_even y.
Proof.
  intros H. unfold round_half_even.
  rewrite (Qfloor_comp x y H).
  assert (E : Qcompare (x - inject_Z (Qfloor y)) (1 # 2)
              = Qcompare (y - inject_Z (Qfloor y)) (1 # 2)) by now rewrite H.
  now rewrite E.
Qed.

Lemma py_round_comp (x y : Q) (n : nat) : x == y -> py_round x n = py_round y n.
Proof.
  intros H. unfold py_round.
  rewrite (round_half_even_comp (x * pow10 n) (y * pow10 n)); [reflexivity|].
  now rewrite H.
Qed.

Lemma float32_zero (q : Q) : q == 0 -> float32 q = 0.
Proof.
  intros H. unfold float32.
  apply Qeq_bool_iff in H. now rewrite H.
Qed.

(** An integer below [2^24] is a [float32]. *)
Lemma float32_small_Z (z : Z) : (0 <= z < 2 ^ 24)%Z -> float32 (inject_Z z) == inject_Z z.
Proof.
  intros [Hz0 Hz].
  destruct (Z.eq_dec z 0%Z) as [->|Hnz]; [reflexivity|].
  assert (Hpos : (0 < z)%Z) by lia.
  unfold float32.
  destruct (Qeq_bool (inject_Z z) 0) eqn:E.
  { apply Qeq_bool_iff in E. exfalso. apply Hnz.
    apply inject_Z_injective. exact E. }
  assert (Habs : Qabs (inject_Z z) = inject_Z z).
  { unfold Qabs, inject_Z. now rewrite Z.abs_eq by lia. }
  rewrite Habs.
  assert (Hlog : (0 <= Z.log2 z < 24)%Z).
  { split; [apply Z.log2_nonneg|]. apply Z.log2_lt_pow2; lia. }
  assert (Hilog : ilog2 (inject_Z z) = Z.log2 z).
  { unfold ilog2. cbn [Qnum Qden inject_Z]. change (Z.log2 1) with 0%Z.
    rewrite Z.sub_0_r.
    assert (Hle : Qle_bool (Qpower 2 (Z.log2 z)) (inject_Z z) = true).
    { apply Qle_bool_iff. change (2 : Q) with (inject_Z 2).
      rewrite <- Zpower_Qpower by lia. rewrite <- Zle_Qle.
      apply Z.log2_spec. lia. }
    change (z # 1) with (inject_Z z). now rewrite Hle. }
  rewrite Hilog. rewrite Z.max_l by lia.
  set (k := (23 - Z.log2 z)%Z).
  assert (Hk : (0 <= k)%Z) by (unfold k; lia).
  replace (Z.log2 z - 23)%Z with (- k)%Z by (unfold k; lia).
  assert (Hulp : Qpower 2 (- k) == / inject_Z (2 ^ k)).
  { rewrite Qpower_opp. change (2 : Q) with (inject_Z 2).
    now rewrite <- Zpower_Qpower by lia. }
  assert (Hpow : 0 < inject_Z (2 ^ k)).
  { change 0 with (inject_Z 0). rewrite <- Zlt_Qlt. apply Z.pow_pos_nonneg; lia. }
  rewrite (round_half_even_Z _ (z * 2 ^ k)).
  - rewrite Hulp, inject_Z_mult. field. lra.
  - rewrite Hulp, inject_Z_mult. field. lra.
Qed.

(** ** RiskPredictor *)

Section Predictor.
Import RiskPredictor.

(** What [predict] returns once the calibrated model is there. *)
Lemma predict_trained (self : t) (m : CalibratedClassifierCV) (features : list Q) :
  is_trained self = true ->
  calibrated_model self = Some m ->
  predict self features =
    inr {| failure_probability := py_round (predict_proba m features) 4;
           confidence := py_round (Qabs (predict_proba m features - 0.5) * 2) 4;
           risk_level :=
             if Qle_bool 0.7 (predict_proba m features) then "high"
             else if Qle_bool 0.4 (predict_proba m features) then "medium"
             else "low";
           prediction := if Qle_bool 0.5 (predict_proba m features) then 1%Z else 0%Z |}.
Proof. intros Ht Hm. unfold predict. now rewrite Ht, Hm. Qed.

Lemma predict_untrained (self : t) (features : list Q) :
  is_trained self = false -> predict self features = inl not_trained_error.
Proof. intros Ht. unfold predict. now rewrite Ht. Qed.

(** C2, as amended: once trained, [predict] returns a result whose
    confidence is [|p - 0.5| * 2] rounded to four decimals, for [p]
    the calibrated probability; it lies in [[0,1]] when [p] does, is
    0 at [p = 0.5] and 1 at [p = 0] and [p = 1].  The risk level is
    "high" iff [p >= 0.70], "medium" iff [0.40 <= p < 0.70] and "low"
    iff [p < 0.40], and the binary decision is 1 iff [p >= 0.50]. *)
Theorem predict_result_of_probability
    (self : t) (m : CalibratedClassifierCV) (features : list Q) :
  is_trained self = true ->
  calibrated_model self = Some m ->
  exists r : PredictionResult,
    let p := predict_proba m features in
    predict self features = inr r /\
    confidence r = py_round (Qabs (p - 0.5) * 2) 4 /\
    (0 <= p <= 1 -> 0 <= confidence r <= 1) /\
    (p == 0.5 -> confidence r == 0) /\
    (p == 0 \/ p == 1 -> confidence r == 1) /\
    (risk_level r = "high"%string <-> 0.7 <= p) /\
    (risk_level r = "medium"%string <-> 0.4 <= p /\ p < 0.7) /\
    (risk_level r = "low"%string <-> p < 0.4) /\
    (prediction r = 1%Z <-> 0.5 <= p) /\
    (prediction r = 0%Z <-> p < 0.5).
Proof.
  intros Ht Hm. eexists. cbv zeta.
  split; [apply (predict_trained self m features Ht Hm)|].
  cbn [confidence risk_level prediction].
  set (p := predict_proba m features).
  split; [reflexivity|].
  split.
  { intros [H0 H1].
    assert (0 <= Qabs (p - 0.5) * 2 <= 1) as [Ha Hb]
      by (apply Qabs_case; intros; lra).
    split; [now apply py_round4_nonneg | now apply py_round4_le_1]. }
  split.
  { intros E. rewrite (py_round_comp _ 0); [reflexivity|].
    rewrite E. reflexivity. }
  split.
  { intros E. rewrite (py_round_comp _ 1); [reflexivity|].
    destruct E as [E|E]; rewrite E; reflexivity. }
  case_Qle 0.7 p; case_Qle 0.4 p; case_Qle 0.5 p;
    repeat split; intros;
    try discriminate; try reflexivity; try lra; exfalso; lra.
Qed.
End Predictor.

Lemma predict_result_of_probability_witness :
  exists r : RiskPredictor.PredictionResult,
    let p := 0.85 in
    RiskPredictor.predict (Samples.constant_predictor 0.85)
      (FeatureEngineer.extract_features Samples.declining_student) = inr r /\
    RiskPredictor.confidence r = py_round (Qabs (p - 0.5) * 2) 4 /\
    (0 <= p <= 1 -> 0 <= RiskPredictor.confidence r <= 1) /\
    (p == 0.5 -> RiskPredictor.confidence r == 0) /\
    (p == 0 \/ p == 1 -> RiskPredictor.confidence r == 1) /\
    (RiskPredictor.risk_level r = "high"%string <-> 0.7 <= p) /\
    (RiskPredictor.risk_level r = "medium"%string <-> 0.4 <= p /\ p < 0.7) /\
    (RiskPredictor.risk_level r = "low"%string <-> p < 0.4) /\
    (RiskPredictor.prediction r = 1%Z <-> 0.5 <= p) /\
    (RiskPredictor.prediction r = 0%Z <-> p < 0.5).
Proof.
  apply (predict_result_of_probability
           (Samples.constant_predictor 0.85)
           {| RiskPredictor.predict_proba := fun _ => 0.85 |}
           (FeatureEngineer.extract_features Samples.declining_student));
    reflexivity.
Defined.

(** C2, as stated, fails: at [p = 0.33333] the confidence returned is
    0.3333, which is neither [|p - 0.5| * 2 = 0.33334] nor that
    expression at the probability returned, [0.3333]. *)
Lemma confidence_is_rounded :
  exists r : RiskPredictor.PredictionResult,
    RiskPredictor.predict (Samples.constant_predictor 0.33333)
      (FeatureEngineer.extract_features Samples.declining_student) = inr r /\
    RiskPredictor.confidence r == 0.3333 /\
    ~ RiskPredictor.confidence r == Qabs (0.33333 - 0.5) * 2 /\
    ~ RiskPredictor.confidence r
        == Qabs (RiskPredictor.failure_probability r - 0.5) * 2.
Proof.
  eexists. split; [reflexivity|]. cbn [RiskPredictor.confidence RiskPredictor.failure_probability].
  repeat split; vm_compute; intros H; discriminate H.
Qed.

Section PredictorState.
Import RiskPredictor.

(** C6: [predict] fails with the invalid-state error exactly when
    the predictor is not trained; trained, it raises no [ValueError].
    A fresh predictor with no model file is untrained; loading a
    model and training both leave it trained. *)
Theorem predict_invalid_state_iff_untrained (self : t) (features : list Q) :
  (predict self features = inl not_trained_error <-> is_trained self = false) /\
  (is_trained self = true -> forall msg, predict self features <> inl (ValueError msg)) /\
  (forall path s, init path None = inr s -> is_trained s = false) /\
  (forall file s, load_model self file = inr s -> is_trained s = true) /\
  (forall split fit fit_calibrated X y,
      is_trained (fst (train split fit fit_calibrated self X y)) = true).
Proof.
  split; [|split; [|split; [|split]]].
  - split; [|apply predict_untrained].
    unfold predict. destruct (is_trained self); [|reflexivity].
    cbn. destruct (calibrated_model self); discriminate.
  - intros Ht msg. unfold predict. rewrite Ht. cbn.
    destruct (calibrated_model self); discriminate.
  - intros path s [= <-]. reflexivity.
  - intros [loaded|] s [= <-]. reflexivity.
  - intros split fit fit_calibrated X y. unfold train.
    destruct (split X y) as [[? ?] [? ?]]. reflexivity.
Qed.

(** C10: on an untrained predictor [get_feature_importance] returns
    the empty mapping, where [predict] raises the invalid-state error. *)
Theorem feature_importance_untrained_is_empty (self : t) (features : list Q) :
  is_trained self = false ->
  get_feature_importance self = inr ∅ /\
  predict self features = inl not_trained_error.
Proof.
  intros Ht. split; [|now apply predict_untrained].
  unfold get_feature_importance. now rewrite Ht.
Qed.
End PredictorState.

Lemma feature_importance_untrained_is_empty_witness :
  RiskPredictor.get_feature_importance Samples.untrained_predictor = inr ∅ /\
  RiskPredictor.predict Samples.untrained_predictor
    (FeatureEngineer.extract_features Samples.declining_student)
    = inl RiskPredictor.not_trained_error.
Proof.
  apply (feature_importance_untrained_is_empty Samples.untrained_predictor
           (FeatureEngineer.extract_features Samples.declining_student)).
  reflexivity.
Defined.

(** ** FeatureEngineer *)

Section Features.
Import FeatureEngineer.

Lemma attendance_features_length (attendance : list Q) :
  length (_extract_attendance_features attendance) = 6%nat.
Proof. unfold _extract_attendance_features. now destruct (_ <? _)%nat. Qed.

Lemma marks_features_length (marks_history : list subject_data) :
  length (_extract_marks_features marks_history) = 8%nat.
Proof. now destruct marks_history. Qed.

Lemma load_features_length (subjects : list string) (semester : Z) :
  length (_extract_load_features subjects semester) = 4%nat.
Proof. reflexivity. Qed.

Lemma engagement_features_length (attendance : list Q) (marks_history : list subject_data) :
  length (_extract_engagement_features attendance marks_history) = 2%nat.
Proof. reflexivity. Qed.

Lemma extract_features_length (data : student_data) :
  length (extract_features data) = 22%nat.
Proof.
  unfold extract_features. cbv zeta.
  rewrite length_map, !length_app.
  rewrite attendance_features_length, marks_features_length, load_features_length,
    engagement_features_length.
  reflexivity.
Qed.

Lemma attendance_slots_extract (data : student_data) :
  attendance_slots (extract_features data)
  = map float32 (_extract_attendance_features (default [] (attendance_history data))).
Proof.
  unfold attendance_slots, extract_features. cbv zeta.
  rewrite <- !app_assoc, map_app.
  apply take_app_length'. rewrite length_map. symmetry. apply attendance_features_length.
Qed.

Lemma marks_slots_extract (data : student_data) :
  marks_slots (extract_features data)
  = map float32 (_extract_marks_features (default [] (marks_history data))).
Proof.
  unfold marks_slots, extract_features. cbv zeta.
  rewrite <- !app_assoc, !map_app.
  rewrite drop_app_length' by (rewrite length_map; symmetry; apply attendance_features_length).
  apply take_app_length'. rewrite length_map. symmetry. apply marks_features_length.
Qed.

(** C1: [extract_features] returns exactly 22 values, as many as
    there are feature names, whatever the record; with fewer than 2
    attendance observations the six attendance slots are all 0. *)
Theorem extract_features_fixed_dimension (data : student_data) :
  length (extract_features data) = 22%nat /\
  length (extract_features data) = get_feature_count /\
  ((length (default [] (attendance_history data)) < 2)%nat ->
   length (attendance_slots (extract_features data)) = 6%nat /\
   Forall (fun x => x == 0) (attendance_slots (extract_features data))).
Proof.
  split; [apply extract_features_length|].
  split; [apply extract_features_length|].
  intros Hshort. rewrite attendance_slots_extract.
  unfold _extract_attendance_features.
  apply Nat.ltb_lt in Hshort. rewrite Hshort.
  split; [reflexivity|].
  repeat constructor.
Qed.
End Features.

Lemma extract_features_fixed_dimension_witness :
  length (FeatureEngineer.extract_features Samples.new_student) = 22%nat /\
  length (FeatureEngineer.extract_features Samples.new_student)
    = FeatureEngineer.get_feature_count /\
  ((length (default [] (FeatureEngineer.attendance_history Samples.new_student)) < 2)%nat ->
   length (FeatureEngineer.attendance_slots
             (FeatureEngineer.extract_features Samples.new_student)) = 6%nat /\
   Forall (fun x => x == 0)
     (FeatureEngineer.attendance_slots
        (FeatureEngineer.extract_features Samples.new_student))).
Proof. apply (extract_features_fixed_dimension Samples.new_student). Defined.

Section MarksFeatures.
Import FeatureEngineer.

Lemma marks_step_skips (acc : marks_acc) (marks_history : list subject_data) :
  no_marks_trend marks_history -> fold_left marks_step marks_history acc = acc.
Proof.
  induction 1 as [|sd t Hsd _ IH]; [reflexivity|].
  cbn [fold_left]. unfold marks_step at 2.
  apply Nat.ltb_lt in Hsd. now rewrite Hsd.
Qed.

Lemma marks_features_no_trend (marks_history : list subject_data) :
  no_marks_trend marks_history ->
  exists z5 z7 : Q,
    _extract_marks_features marks_history
    = [0; 0; 0; 0; z5; 0; z7; py_len marks_history] /\ z5 == 0 /\ z7 == 0.
Proof.
  intros H. unfold _extract_marks_features.
  destruct marks_history as [|sd t].
  { exists 0, 0. repeat split; reflexivity. }
  rewrite (marks_step_skips _ _ H). cbn [all_trends all_volatilities all_means all_recent].
  unfold count_if. cbn [List.filter].
  change (py_len (@nil Q)) with 0.
  do 2 eexists. split; [reflexivity|].
  split; unfold Qdiv; apply Qmult_0_l.
Qed.

(** C7, as amended: when no subject of the marks history has two
    scores, the first seven marks slots are zero and the eighth is
    the number of entries of the marks history (cast to float32: the
    number itself below [2^24]). *)
Theorem marks_slots_without_trend (data : student_data) :
  no_marks_trend (default [] (marks_history data)) ->
  exists s1 s2 s3 s4 s5 s6 s7 s8 : Q,
    marks_slots (extract_features data) = [s1; s2; s3; s4; s5; s6; s7; s8] /\
    Forall (fun x => x == 0) [s1; s2; s3; s4; s5; s6; s7] /\
    s8 = float32 (py_len (default [] (marks_history data))) /\
    ((Z.of_nat (length (default [] (marks_history data))) < 2 ^ 24)%Z ->
     s8 == py_len (default [] (marks_history data))).
Proof.
  intros H. rewrite marks_slots_extract.
  destruct (marks_features_no_trend _ H) as (z5 & z7 & -> & H5 & H7).
  cbn [map]. do 8 eexists. split; [reflexivity|].
  split.
  { repeat constructor; try reflexivity.
    - now rewrite (float32_zero z5).
    - now rewrite (float32_zero z7). }
  split; [reflexivity|].
  intros Hlen. apply float32_small_Z. split; [lia|exact Hlen].
Qed.
End MarksFeatures.

Lemma marks_slots_without_trend_witness :
  exists s1 s2 s3 s4 s5 s6 s7 s8 : Q,
    FeatureEngineer.marks_slots (FeatureEngineer.extract_features Samples.new_student)
      = [s1; s2; s3; s4; s5; s6; s7; s8] /\
    Forall (fun x => x == 0) [s1; s2; s3; s4; s5; s6; s7] /\
    s8 = float32 (py_len (default [] (FeatureEngineer.marks_history Samples.new_student))) /\
    ((Z.of_nat (length (default [] (FeatureEngineer.marks_history Samples.new_student)))
      < 2 ^ 24)%Z ->
     s8 == py_len (default [] (FeatureEngineer.marks_history Samples.new_student))).
Proof.
  apply (marks_slots_without_trend Samples.new_student).
  repeat constructor.
Defined.

(** C7, as stated, fails: the one subject of [new_student] has a
    single score, and the eighth marks slot is 1. *)
Lemma marks_count_slot_is_not_zero :
  FeatureEngineer.no_marks_trend (default [] (FeatureEngineer.marks_history Samples.new_student)) /\
  nth 7 (FeatureEngineer.marks_slots (FeatureEngineer.extract_features Samples.new_student)) 0
    == 1 /\
  ~ Forall (fun x => x == 0)
      (FeatureEngineer.marks_slots (FeatureEngineer.extract_features Samples.new_student)).
Proof.
  split; [repeat constructor|].
  split; [vm_compute; reflexivity|].
  intros H. rewrite List.Forall_forall in H.
  specialize (H (nth 7 (FeatureEngineer.marks_slots
                          (FeatureEngineer.extract_features Samples.new_student)) 0)).
  assert (Hin : In (nth 7 (FeatureEngineer.marks_slots
                          (FeatureEngineer.extract_features Samples.new_student)) 0)
                   (FeatureEngineer.marks_slots
                          (FeatureEngineer.extract_features Samples.new_student))).
  { apply nth_In. rewrite marks_slots_extract, length_map, marks_features_length. lia. }
  apply H in Hin. vm_compute in Hin. discriminate Hin.
Qed.

(** ** KnowledgeGraph: the traversal ends *)

Section Traversal.
Import KnowledgeGraph.

Lemma successors_cons (n : string) (succs : list (string * Q)) (g : DiGraph) (c : string) :
  successors ((n, succs) :: g) c = if bool_decide (c = n) then succs else successors g c.
Proof. unfold successors. cbn. now destruct (bool_decide (c = n)). Qed.

Lemma pending_mono (g : DiGraph) (c : string) (visited : gset string) :
  (pending g ({[c]} ∪ visited) <= pending g visited)%nat.
Proof.
  induction g as [|[n succs] g IH]; cbn; [lia|].
  repeat case_bool_decide; try lia. set_solver.
Qed.

Lemma pending_visit (g : DiGraph) (c : string) (visited : gset string) :
  c ∉ visited ->
  (pending g ({[c]} ∪ visited) + length (successors g c) <= pending g visited)%nat.
Proof.
  intros Hc. induction g as [|[n succs] g IH]; cbn [pending].
  - cbn. lia.
  - rewrite successors_cons.
    pose proof (pending_mono g c visited).
    repeat case_bool_decide; subst; try lia; set_solver.
Qed.

Lemma propagate_step_queue_length (cr : Q) (risks : gmap string Q)
    (queue : list (string * Q)) (edge : string * Q) :
  (length (snd (propagate_step cr (risks, queue) edge)) <= S (length queue))%nat.
Proof.
  destruct edge as [d s]. cbn. destruct (Qlt_bool _ _); cbn; [|lia].
  rewrite length_app. cbn. lia.
Qed.

Lemma propagate_fold_queue_length (cr : Q) (succs : list (string * Q))
    (st : gmap string Q * list (string * Q)) :
  (length (snd (fold_left (propagate_step cr) succs st))
   <= length (snd st) + length succs)%nat.
Proof.
  revert st. induction succs as [|e succs IH]; intros [risks queue]; cbn [fold_left].
  - cbn. lia.
  - etransitivity; [apply IH|].
    pose proof (propagate_step_queue_length cr risks queue e).
    destruct (propagate_step cr (risks, queue) e). cbn in *. lia.
Qed.

(** With as much fuel as the graph has pending work, the loop
    empties the queue. *)
Lemma propagate_loop_terminates (g : DiGraph) (fuel : nat) :
  forall (visited : gset string) (queue : list (string * Q)) (risks : gmap string Q),
    (pending g visited + length queue <= fuel)%nat ->
    exists m, propagate_loop fuel g visited queue risks = Some m.
Proof.
  induction fuel as [|fuel IH]; intros visited queue risks Hfuel.
  - destruct queue as [|[c r] queue]; [now eexists|]. cbn in Hfuel. lia.
  - destruct queue as [|[c r] queue]; [now eexists|].
    cbn [propagate_loop length] in *.
    case_bool_decide as Hv.
    + apply IH. lia.
    + pose proof (propagate_fold_queue_length r (successors g c) (risks, queue)) as Hq.
      pose proof (pending_visit g c visited Hv) as Hp.
      destruct (fold_left _ _ _) as [risks' queue']. cbn [snd] in Hq.
      apply IH. lia.
Qed.

Lemma propagate_risk_returns (g : DiGraph) (source : string) (r : Q) :
  exists m, propagate_risk g source r = Some m.
Proof.
  unfold propagate_risk. destruct (has_node g source); cbn [negb]; [|now eexists].
  destruct (propagate_loop_terminates g (traversal_fuel g) ∅ [(source, r)] ∅) as [m Hm].
  { unfold traversal_fuel. cbn. lia. }
  rewrite Hm. now eexists.
Qed.
End Traversal.

(** ** KnowledgeGraph: what the propagated map holds *)

Section Propagation.
Import KnowledgeGraph.

Lemma assoc_In {A} (k : string) (l : list (string * A)) (a : A) :
  assoc k l = Some a -> In (k, a) l.
Proof.
  induction l as [|[k' a'] l IH]; cbn; [discriminate|].
  case_bool_decide; [intros [= ->]; subst; now left | intros; right; auto].
Qed.

Lemma successors_strength (g : DiGraph) (c d : string) (s : Q) :
  strengths_in_unit g -> In (d, s) (successors g c) -> 0 < s /\ s <= 1.
Proof.
  intros Hg Hin. unfold successors in Hin.
  destruct (assoc c g) as [succs|] eqn:E; cbn in Hin; [|contradiction].
  apply assoc_In in E.
  unfold strengths_in_unit in Hg. rewrite List.Forall_forall in Hg.
  specialize (Hg _ E). cbn in Hg. rewrite List.Forall_forall in Hg.
  apply (Hg _ Hin).
Qed.

Section Bound.
Variable g : DiGraph.
Variable source_risk : Q.
Hypothesis Hg : strengths_in_unit g.
Hypothesis Hrisk : 0 <= source_risk.

Lemma propagate_step_bounded (cr : Q) (risks : gmap string Q)
    (queue : list (string * Q)) (d : string) (s : Q) :
  0 <= cr <= source_risk -> 0 < s <= 1 ->
  risks_bounded (source_risk * 0.8) risks -> queue_within source_risk queue ->
  risks_bounded (source_risk * 0.8) (fst (propagate_step cr (risks, queue) (d, s))) /\
  queue_within source_risk (snd (propagate_step cr (risks, queue) (d, s))).
Proof.
  intros [Hc0 Hc1] [Hs0 Hs1] Hb Hq.
  assert (Hp : cr * s * 0.8 <= source_risk * 0.8) by nra.
  cbn [propagate_step fst snd]. split.
  - intros k v. destruct (risks !! d) as [old|] eqn:Eold.
    + destruct (decide (k = d)) as [->|Hne].
      * rewrite lookup_insert_eq. intros [= <-].
        apply Q.max_lub; [eapply Hb; eassumption | assumption].
      * rewrite lookup_insert_ne by congruence. apply Hb.
    + destruct (decide (k = d)) as [->|Hne].
      * rewrite lookup_insert_eq. now intros [= <-].
      * rewrite lookup_insert_ne by congruence. apply Hb.
  - destruct (Qlt_bool 0.2 (cr * s * 0.8)) eqn:E; [|assumption].
    apply Forall_app. split; [assumption|].
    constructor; [|constructor]. cbn.
    apply Qlt_bool_true in E. lra.
Qed.

Lemma propagate_fold_bounded (cr : Q) (succs : list (string * Q)) :
  0 <= cr <= source_risk ->
  (forall d s, In (d, s) succs -> 0 < s /\ s <= 1) ->
  forall st, risks_bounded (source_risk * 0.8) (fst st) -> queue_within source_risk (snd st) ->
  risks_bounded (source_risk * 0.8) (fst (fold_left (propagate_step cr) succs st)) /\
  queue_within source_risk (snd (fold_left (propagate_step cr) succs st)).
Proof.
  intros Hcr. induction succs as [|[d s] succs IH]; intros Hs [risks queue] Hb Hq.
  - now split.
  - cbn [fold_left].
    destruct (propagate_step_bounded cr risks queue d s Hcr) as [Hb' Hq']; auto.
    { apply (Hs d). now left. }
    apply IH; auto. intros d' s' Hin. apply (Hs d'). now right.
Qed.

Lemma propagate_loop_bounded (fuel : nat) :
  forall visited queue risks m,
    risks_bounded (source_risk * 0.8) risks -> queue_within source_risk queue ->
    propagate_loop fuel g visited queue risks = Some m ->
    risks_bounded (source_risk * 0.8) m.
Proof.
  induction fuel as [|fuel IH]; intros visited queue risks m Hb Hq Hm.
  - destruct queue as [|[c r] queue]; cbn in Hm; [now injection Hm as <-|discriminate].
  - destruct queue as [|[c r] queue]; cbn [propagate_loop] in Hm;
      [now injection Hm as <-|].
    inversion Hq as [|? ? [Hr0 Hr1] Hq']; subst. cbn [snd] in *.
    case_bool_decide.
    + eapply IH; eassumption.
    + destruct (propagate_fold_bounded r (successors g c) (conj Hr0 Hr1)
                  (fun d s => successors_strength g c d s Hg) (risks, queue) Hb Hq')
        as [Hb' Hq''].
      destruct (fold_left _ _ _) as [risks' queue'].
      eapply IH; eassumption.
Qed.

End Bound.

(** C4, as amended: [propagate_risk] returns a map that never holds
    the source course, whatever the graph and the source risk; when
    every edge strength lies in (0,1] and the source risk is not
    negative, every value of the map is at most [source_risk * 0.8]. *)
Theorem propagate_risk_excludes_source_and_decays
    (g : DiGraph) (source : string) (source_risk : Q) :
  exists m : gmap string Q,
    propagate_risk g source source_risk = Some m /\
    m !! source = None /\
    (strengths_in_unit g -> 0 <= source_risk ->
     forall k v, m !! k = Some v -> v <= source_risk * 0.8).
Proof.
  destruct (propagate_risk_returns g source source_risk) as [m Hm].
  exists m. split; [assumption|].
  unfold propagate_risk in Hm.
  destruct (has_node g source); cbn [negb] in Hm.
  - destruct (propagate_loop _ _ _ _ _) as [risks|] eqn:E; [|discriminate].
    injection Hm as <-. split; [apply lookup_delete_eq|].
    intros Hg Hrisk k v Hk. apply lookup_delete_Some in Hk as [_ Hk].
    revert k v Hk.
    eapply (propagate_loop_bounded g source_risk Hg Hrisk _ ∅ [(source, source_risk)] ∅);
      [| |exact E].
    + intros k v Hk. now rewrite lookup_empty in Hk.
    + constructor; [|constructor]. cbn. split; [assumption|apply Qle_refl].
  - injection Hm as <-. split; [apply lookup_empty|].
    intros _ _ k v Hk. now rewrite lookup_empty in Hk.
Qed.
End Propagation.

Lemma propagate_risk_excludes_source_and_decays_witness :
  exists m : gmap string Q,
    KnowledgeGraph.propagate_risk KnowledgeGraph.init "Calculus I" 0.85 = Some m /\
    m !! "Calculus I"%string = None /\
    forall k v, m !! k = Some v -> v <= 0.85 * 0.8.
Proof.
  destruct (propagate_risk_excludes_source_and_decays KnowledgeGraph.init "Calculus I" 0.85)
    as (m & Hm & Hsource & Hbound).
  exists m. split; [exact Hm|]. split; [exact Hsource|].
  apply Hbound.
  - unfold KnowledgeGraph.strengths_in_unit. vm_compute.
    repeat (constructor; try (split; [reflexivity|discriminate])).
  - vm_compute. discriminate.
Defined.

(** C4, as stated, fails: the code accepts any number as the source
    risk, and the decay moves a value towards 0.  On the default graph,
    whose edge strengths all lie in (0,1], a source risk of -1 gives
    Calculus II the value -0.72, which is above -1 * 0.8. *)
Lemma negative_risk_decays_upwards :
  KnowledgeGraph.strengths_in_unit KnowledgeGraph.init /\
  option_map map_to_list (KnowledgeGraph.propagate_risk KnowledgeGraph.init "Calculus I" (-1))
    = Some [("Calculus II", -0.72); ("Linear Algebra", -0.56);
            ("Probability and Statistics", -0.560); ("Physics I", -0.600)]%string /\
  ~ -0.72 <= -1 * 0.8.
Proof.
  split.
  { unfold KnowledgeGraph.strengths_in_unit. vm_compute.
    repeat (constructor; try (split; [reflexivity|discriminate])). }
  split; [vm_compute; reflexivity|]. vm_compute. intros H. now apply H.
Qed.

Section OneHop.
Import KnowledgeGraph.

Lemma fold_Qmax_ge (l : list Q) (x : Q) : x <= fold_left Qmax l x.
Proof.
  revert x. induction l as [|y l IH]; intros x; cbn [fold_left]; [apply Qle_refl|].
  eapply Qle_trans; [apply (Q.le_max_l x y)|apply IH].
Qed.

Lemma max_outgoing_strength_pos (g : DiGraph) (c : string) :
  strengths_in_unit g -> successors g c <> [] -> 0 < max_outgoing_strength g c.
Proof.
  intros Hg Hne. unfold max_outgoing_strength.
  destruct (successors g c) as [|[d s] succs] eqn:E; [congruence|].
  cbn [map snd py_max].
  destruct (successors_strength g c d s Hg) as [Hs _]; [rewrite E; now left|].
  eapply Qlt_le_trans; [exact Hs|apply fold_Qmax_ge].
Qed.

Section Fold.
Variable r : Q.
Variable P : string -> Q -> Prop.

(** The loop over the successors when no propagated value exceeds
    the threshold: nothing joins the queue, and the map gains
    exactly the successors. *)
Lemma propagate_fold_one_hop (succs : list (string * Q)) :
  (forall d s, In (d, s) succs -> r * s * 0.8 <= 0.2 /\ P d (r * s * 0.8)) ->
  forall (risks : gmap string Q) (queue : list (string * Q)),
    (forall k v, risks !! k = Some v -> P k v) ->
    exists risks', 
      fold_left (propagate_step r) succs (risks, queue) = (risks', queue) /\
      (forall k, is_Some (risks' !! k) <-> is_Some (risks !! k) \/ In k (map fst succs)) /\
      (forall k v, risks' !! k = Some v -> P k v).
Proof.
  induction succs as [|[d s] succs IH]; intros Hs risks queue HP.
  - exists risks. cbn. split; [reflexivity|]. split; [tauto|assumption].
  - destruct (Hs d s (or_introl eq_refl)) as [Hle Hd].
    cbn [fold_left propagate_step].
    rewrite (Qlt_bool_false_intro 0.2 (r * s * 0.8) Hle).
    set (risks1 := match risks !! d with
                   | Some old => <[d := Qmax old (r * s * 0.8)]> risks
                   | None => <[d := r * s * 0.8]> risks
                   end).
    assert (Hdom : forall k, is_Some (risks1 !! k) <-> is_Some (risks !! k) \/ k = d).
    { intros k. unfold risks1. destruct (risks !! d) as [old|] eqn:Eold;
        (destruct (decide (k = d)) as [->|Hne];
         [rewrite lookup_insert_eq; split; [intros _; now right|intros _; now eexists]
         |rewrite lookup_insert_ne by congruence; tauto]). }
    assert (HP1 : forall k v, risks1 !! k = Some v -> P k v).
    { intros k v. unfold risks1. destruct (risks !! d) as [old|] eqn:Eold.
      - destruct (decide (k = d)) as [->|Hne].
        + rewrite lookup_insert_eq. intros [= <-].
          unfold Qmax, GenericMinMax.gmax.
          destruct (old ?= r * s * 0.8); auto.
        + rewrite lookup_insert_ne by congruence. apply HP.
      - destruct (decide (k = d)) as [->|Hne].
        + rewrite lookup_insert_eq. now intros [= <-].
        + rewrite lookup_insert_ne by congruence. apply HP. }
    destruct (IH (fun d' s' Hin => Hs d' s' (or_intror Hin)) risks1 queue HP1)
      as (risks' & Hfold & Hdom' & HP').
    exists risks'. split; [exact Hfold|]. split; [|exact HP'].
    intros k. rewrite Hdom', Hdom. cbn [map fst In]. intuition congruence.
Qed.
End Fold.

(** C9, as amended: the propagated map is empty when the source
    course has no successors (or is unknown).  When
    [source_risk * max-outgoing-strength * 0.8 <= 0] (as at
    [source_risk = 0]) the propagation stops after one hop, and the
    map is not empty: its keys are the direct successors of the
    source other than the source itself, each with a value
    [source_risk * strength * 0.8], which is at most 0. *)
Theorem propagate_risk_without_spread (g : DiGraph) (source : string) (source_risk : Q) :
  (successors g source = [] -> propagate_risk g source source_risk = Some ∅) /\
  (strengths_in_unit g ->
   source_risk * max_outgoing_strength g source * 0.8 <= 0 ->
   exists m : gmap string Q,
     propagate_risk g source source_risk = Some m /\
     (forall k, is_Some (m !! k) <-> k <> source /\ In k (map fst (successors g source))) /\
     (forall k v, m !! k = Some v ->
        v <= 0 /\ exists s, In (k, s) (successors g source) /\ v == source_risk * s * 0.8)).
Proof.
  split.
  - intros Hnone. unfold propagate_risk.
    destruct (has_node g source); cbn [negb]; [|reflexivity].
    unfold traversal_fuel. cbn [propagate_loop].
    rewrite bool_decide_eq_false_2 by set_solver.
    rewrite Hnone. cbn [fold_left].
    destruct (pending g ∅); cbn [propagate_loop]; now rewrite delete_empty.
  - intros Hg Hmax.
    assert (Hedges : forall d s, In (d, s) (successors g source) ->
              source_risk * s * 0.8 <= 0.2 /\
              (source_risk * s * 0.8 <= 0 /\
               exists s', In (d, s') (successors g source) /\
                          source_risk * s * 0.8 == source_risk * s' * 0.8)).
    { intros d s Hin.
      assert (Hpos : 0 < max_outgoing_strength g source).
      { apply max_outgoing_strength_pos; [assumption|]. intros E. now rewrite E in Hin. }
      destruct (successors_strength g source d s Hg Hin) as [Hs _].
      assert (source_risk * s * 0.8 <= 0) by nra.
      split; [lra|]. split; [assumption|]. exists s. split; [assumption|reflexivity]. }
    destruct (propagate_fold_one_hop source_risk
                (fun k v => v <= 0 /\ exists s, In (k, s) (successors g source) /\
                                                v == source_risk * s * 0.8)
                (successors g source) Hedges ∅ [])
      as (risks & Hfold & Hdom & Hval).
    { intros k v Hk. now rewrite lookup_empty in Hk. }
    unfold propagate_risk. destruct (has_node g source) eqn:Hnode; cbn [negb].
    + unfold traversal_fuel. cbn [propagate_loop].
      rewrite bool_decide_eq_false_2 by set_solver.
      rewrite Hfold.
      assert (Hend : forall fuel v, propagate_loop fuel g v [] risks = Some risks)
        by (intros [|fuel] v; reflexivity).
      rewrite Hend. eexists. split; [reflexivity|]. split.
      * intros k. destruct (decide (k = source)) as [->|Hne].
        -- rewrite lookup_delete_eq. split; [intros [? [=]]|tauto].
        -- rewrite lookup_delete_ne by congruence. rewrite Hdom.
           rewrite lookup_empty. split.
           ++ intros [[? [=]]|Hin]; auto.
           ++ intros [_ Hin]; auto.
      * intros k v Hk. apply lookup_delete_Some in Hk as [_ Hk]. now apply Hval.
    + assert (Hsucc : successors g source = []).
      { unfold successors, has_node in *. now destruct (assoc source g). }
      exists ∅. split; [reflexivity|]. split.
      * intros k. rewrite lookup_empty, Hsucc. cbn. split; [intros [? [=]]|tauto].
      * intros k v Hk. now rewrite lookup_empty in Hk.
Qed.
End OneHop.

Lemma propagate_risk_without_spread_witness :
  exists m : gmap string Q,
    KnowledgeGraph.propagate_risk KnowledgeGraph.init "Calculus I" 0 = Some m /\
    (forall k, is_Some (m !! k) <->
               k <> "Calculus I"%string /\
               In k (map fst (KnowledgeGraph.successors KnowledgeGraph.init "Calculus I"))) /\
    (forall k v, m !! k = Some v ->
       v <= 0 /\
       exists s, In (k, s) (KnowledgeGraph.successors KnowledgeGraph.init "Calculus I") /\
                 v == 0 * s * 0.8).
Proof.
  apply (proj2 (propagate_risk_without_spread KnowledgeGraph.init "Calculus I" 0)).
  - unfold KnowledgeGraph.strengths_in_unit. vm_compute.
    repeat (constructor; try (split; [reflexivity|discriminate])).
  - vm_compute. discriminate.
Defined.

(** C9, as stated, fails: at source risk 0 the map for Calculus I in
    the default graph is not empty; it holds Calculus II (and the three
    other direct successors) with the value 0. *)
Lemma zero_risk_map_is_not_empty :
  0 * KnowledgeGraph.max_outgoing_strength KnowledgeGraph.init "Calculus I" * 0.8 <= 0 /\
  option_map map_to_list (KnowledgeGraph.propagate_risk KnowledgeGraph.init "Calculus I" 0)
    = Some [("Calculus II", 0.00); ("Linear Algebra", 0.00);
            ("Probability and Statistics", 0.000); ("Physics I", 0.000)]%string /\
  KnowledgeGraph.propagate_risk KnowledgeGraph.init "Calculus I" 0 <> Some ∅.
Proof.
  split; [vm_compute; discriminate|].
  assert (H : option_map map_to_list
                (KnowledgeGraph.propagate_risk KnowledgeGraph.init "Calculus I" 0)
              = Some [("Calculus II", 0.00); ("Linear Algebra", 0.00);
                      ("Probability and Statistics", 0.000); ("Physics I", 0.000)]%string)
    by (vm_compute; reflexivity).
  split; [exact H|].
  intros E. rewrite E in H. vm_compute in H. discriminate H.
Qed.

(** ** KnowledgeGraph: dependency depth *)

Lemma dependency_depth_unknown (g : KnowledgeGraph.DiGraph) (course : string) :
  KnowledgeGraph.has_node g course = false ->
  KnowledgeGraph.calculate_dependency_depth g course = 0%nat.
Proof. intros H. unfold KnowledgeGraph.calculate_dependency_depth. now rewrite H. Qed.

(** A course no other course leads to lies at depth 0. *)
Lemma dependency_depth_no_ancestors (g : KnowledgeGraph.DiGraph) (course : string) :
  (forall node, In node (KnowledgeGraph.nodes g) -> node <> course ->
                KnowledgeGraph.has_path g node course = false) ->
  KnowledgeGraph.calculate_dependency_depth g course = 0%nat.
Proof.
  intros Hnone. unfold KnowledgeGraph.calculate_dependency_depth.
  destruct (negb (KnowledgeGraph.has_node g course)); [reflexivity|].
  assert (Hfold : forall (l : list string) (paths : list nat),
             (forall node, In node l -> node <> course ->
                           KnowledgeGraph.has_path g node course = false) ->
             fold_left
               (fun paths node =>
                  if negb (bool_decide (node = course)) && KnowledgeGraph.has_path g node course
                  then match KnowledgeGraph.shortest_path_length g node course with
                       | Some path_length => paths ++ [path_length]
                       | None => paths
                       end
                  else paths) l paths = paths).
  { induction l as [|node l IH]; intros paths Hl; [reflexivity|].
    cbn [fold_left]. case_bool_decide as Hc; cbn [negb andb].
    - apply IH. intros n Hn. apply Hl. now right.
    - rewrite (Hl node (or_introl eq_refl) Hc). apply IH.
      intros n Hn. apply Hl. now right. }
  now rewrite (Hfold _ [] Hnone).
Qed.

(** C8, where the code departs from it: in the default graph Calculus
    III lies at depth 2, the length of its longest path
    (Calculus I, Calculus II, Calculus III).  Once Calculus III also
    depends directly on Calculus I that path is still there, but
    [calculate_dependency_depth] returns 1: it takes, over the
    ancestors, the largest of the shortest path lengths. *)
Lemma dependency_depth_takes_shortest_paths :
  KnowledgeGraph.calculate_dependency_depth KnowledgeGraph.init "Calculus III" = 2%nat /\
  KnowledgeGraph.walk Samples.shortcut_graph ["Calculus I"; "Calculus II"; "Calculus III"]%string
    = true /\
  KnowledgeGraph.longest_ancestor_path Samples.shortcut_graph "Calculus III" = 2%nat /\
  KnowledgeGraph.calculate_dependency_depth Samples.shortcut_graph "Calculus III" = 1%nat.
Proof. repeat split; vm_compute; reflexivity. Qed.

(** ** CounterfactualEngine: ranking *)

Section Ranking.
Import CounterfactualEngine.

Lemma insert_desc_In (x : InterventionResult) (l : list InterventionResult)
    (y : InterventionResult) :
  In y (insert_desc x l) <-> y = x \/ In y l.
Proof.
  induction l as [|z l IH]; cbn; [intuition congruence|].
  destruct (Qle_bool _ _); cbn; rewrite ?IH; intuition congruence.
Qed.

Lemma insert_desc_length (x : InterventionResult) (l : list InterventionResult) :
  length (insert_desc x l) = S (length l).
Proof.
  induction l as [|z l IH]; cbn; [reflexivity|].
  destruct (Qle_bool _ _); cbn; now rewrite ?IH.
Qed.

Lemma insert_desc_sorted (x : InterventionResult) (l : list InterventionResult) :
  StronglySorted by_score_desc l -> StronglySorted by_score_desc (insert_desc x l).
Proof.
  induction 1 as [|z l Hs IH Hz]; cbn.
  - repeat constructor.
  - destruct (Qle_bool (effectiveness_score x) (effectiveness_score z)) eqn:E.
    + constructor; [assumption|].
      rewrite List.Forall_forall in *. intros y Hy.
      apply insert_desc_In in Hy as [->|Hy]; [now apply Qle_bool_iff|auto].
    + apply Qle_bool_false in E as Hlt.
      constructor; [now constructor|].
      constructor; [unfold by_score_desc; lra|].
      rewrite List.Forall_forall in *. intros y Hy.
      specialize (Hz y Hy). unfold by_score_desc in *. lra.
Qed.

Lemma sort_desc_from (l acc : list InterventionResult) :
  StronglySorted by_score_desc acc ->
  StronglySorted by_score_desc (fold_left (fun sorted x => insert_desc x sorted) l acc) /\
  (forall y, In y (fold_left (fun sorted x => insert_desc x sorted) l acc)
             <-> In y l \/ In y acc) /\
  length (fold_left (fun sorted x => insert_desc x sorted) l acc)
    = (length l + length acc)%nat.
Proof.
  revert acc. induction l as [|x l IH]; intros acc Hacc; cbn [fold_left].
  - repeat split; cbn; tauto.
  - destruct (IH (insert_desc x acc) (insert_desc_sorted x acc Hacc)) as (Hs & Hin & Hlen).
    split; [assumption|]. split.
    + intros y. rewrite Hin, insert_desc_In. cbn. intuition congruence.
    + rewrite Hlen, insert_desc_length. cbn. lia.
Qed.

Lemma sort_desc_sorted (l : list InterventionResult) :
  StronglySorted by_score_desc (sort_desc l).
Proof. apply sort_desc_from. constructor. Qed.

Lemma sort_desc_In (l : list InterventionResult) (y : InterventionResult) :
  In y (sort_desc l) <-> In y l.
Proof.
  unfold sort_desc. destruct (sort_desc_from l [] (SSorted_nil _)) as (_ & Hin & _).
  rewrite Hin. cbn. tauto.
Qed.

Lemma In_firstn {A} (n : nat) (l : list A) (y : A) : In y (firstn n l) -> In y l.
Proof.
  revert n. induction l as [|x l IH]; intros [|n]; cbn; try tauto.
  intros [->|H]; [now left|right; eauto].
Qed.

Lemma firstn_sorted (n : nat) (l : list InterventionResult) :
  StronglySorted by_score_desc l -> StronglySorted by_score_desc (firstn n l).
Proof.
  intros H. revert n. induction H as [|x l Hs IH Hx]; intros [|n]; cbn; try constructor.
  - apply IH.
  - rewrite List.Forall_forall in *. intros y Hy. apply Hx.
    eapply In_firstn; eassumption.
Qed.

(** What the cut to the first [n] of a sorted list leaves out has [n]
    results before it, each with at least its score. *)
Lemma firstn_sorted_top (n : nat) (l : list InterventionResult) (r : InterventionResult) :
  StronglySorted by_score_desc l -> In r l ->
  In r (firstn n l) \/
  (length (firstn n l) = n /\
   Forall (fun r' => effectiveness_score r <= effectiveness_score r') (firstn n l)).
Proof.
  intros H. revert n. induction H as [|x l Hs IH Hx]; intros n Hr; [contradiction|].
  destruct n as [|n]; [right; split; [reflexivity|constructor]|].
  cbn [firstn]. destruct Hr as [->|Hr]; [left; now left|].
  destruct (IH n Hr) as [Hin|[Hlen Hall]]; [left; now right|].
  right. split; [cbn; now rewrite Hlen|].
  constructor; [|assumption].
  rewrite List.Forall_forall in Hx. exact (Hx r Hr).
Qed.
End Ranking.

(** ** CounterfactualEngine: the search *)

Section Search.
Import CounterfactualEngine.

Variable rp : RiskPredictor.t.
Variable m : RiskPredictor.CalibratedClassifierCV.
Hypothesis Htrained : RiskPredictor.is_trained rp = true.
Hypothesis Hmodel : RiskPredictor.calibrated_model rp = Some m.

Variable self : t.
Hypothesis Hself : risk_predictor self = rp.

Lemma query_predict_trained (features : list Q) (log : list (list Q)) :
  exists a,
    query_predict rp features log = (inr a, log ++ [features]) /\
    RiskPredictor.predict rp features = inr a /\
    RiskPredictor.failure_probability a
      = py_round (RiskPredictor.predict_proba m features) 4.
Proof.
  eexists. unfold query_predict.
  rewrite (predict_trained rp m features Htrained Hmodel).
  repeat split.
Qed.

Section OneIntervention.
Variable features : list Q.
Variable iv : intervention.
Variable current_risk : Q.
Hypothesis Heffort : (0 < effort_cost iv)%Z.

Lemma effectiveness_pos (delta : Q) :
  0 < reduction m features iv current_risk delta ->
  0 < effectiveness m features iv current_risk delta.
Proof.
  intros H. unfold effectiveness.
  apply Qlt_shift_div_l; [|lra].
  change 0 with (inject_Z 0). now rewrite <- Zlt_Qlt.
Qed.

Lemma simulate_deltas_chooses (deltas : list Q) :
  forall seen best beff log,
    loop_state rp m features iv current_risk seen best beff ->
    exists best',
      simulate_deltas self features iv current_risk deltas best beff log
        = (inr best', log ++ map (modify features iv) deltas) /\
      chosen rp m features iv current_risk (seen ++ deltas) best'.
Proof.
  induction deltas as [|delta deltas IH]; intros seen best beff log Hstate.
  - exists best. cbn [simulate_deltas map]. rewrite !app_nil_r.
    split; [reflexivity|].
    destruct Hstate as [(-> & _ & Hnone)|(d & a & Ha & -> & _ & Hbest)]; cbn.
    + assumption.
    + exists d, a. auto.
  - cbn [simulate_deltas map]. unfold bind at 1. rewrite Hself.
    destruct (query_predict_trained (modify features iv delta) log)
      as (a & -> & Ha & Hrisk).
    rewrite Hrisk. fold (new_risk m features iv delta).
    fold (reduction m features iv current_risk delta).
    assert (Hlog : forall l : list (list Q),
               l ++ modify features iv delta :: map (modify features iv) deltas
               = (l ++ [modify features iv delta]) ++ map (modify features iv) deltas)
      by (intros l; now rewrite <- app_assoc).
    assert (Hseen : forall l : list Q, l ++ delta :: deltas = (l ++ [delta]) ++ deltas)
      by (intros l; now rewrite <- app_assoc).
    rewrite Hlog, Hseen.
    destruct (Qle_bool (reduction m features iv current_risk delta) 0) eqn:Ered.
    + (* no improvement *)
      apply Qle_bool_iff in Ered.
      apply IH.
      destruct Hstate as [(-> & Hneg & Hnone)|(d & a' & Ha' & -> & Hbeff & Hin & Hpos & Hmax)].
      * left. split; [reflexivity|]. split; [exact Hneg|].
        intros d [Hd|Hd]%in_app_or; [auto|]. destruct Hd as [E|[]]. now subst d.
      * right. exists d, a'.
        split; [exact Ha'|]. split; [reflexivity|]. split; [exact Hbeff|].
        split; [apply in_or_app; now left|].
        split; [exact Hpos|].
        intros d' [Hd|Hd]%in_app_or Hd'; [auto|].
        destruct Hd as [E|[]]. subst d'. lra.
    + apply Qle_bool_false in Ered as Hpos.
      pose proof (effectiveness_pos delta Hpos) as Heff.
      change (reduction m features iv current_risk delta / inject_Z (effort_cost iv))
        with (effectiveness m features iv current_risk delta) in *.
      destruct (Qlt_bool beff (effectiveness m features iv current_risk delta)) eqn:Elt.
      * (* a new best *)
        apply Qlt_bool_true in Elt as Hlt.
        apply IH. right. exists delta, a.
        split; [exact Ha|]. split; [reflexivity|]. split; [reflexivity|].
        split; [apply in_or_app; right; now left|].
        split; [exact Hpos|].
        intros d' [Hd|Hd]%in_app_or Hd'.
        -- destruct Hstate as [(_ & _ & Hnone)|(d & a' & _ & _ & Hbeff & _ & _ & Hmax)].
           ++ specialize (Hnone d' Hd). lra.
           ++ specialize (Hmax d' Hd Hd'). lra.
        -- destruct Hd as [E|[]]. subst d'. apply Qle_refl.
      * (* the best so far stays *)
        apply Qlt_bool_false in Elt as Hle.
        apply IH.
        destruct Hstate as [(-> & Hneg & Hnone)|(d & a' & Ha' & -> & Hbeff & Hin & Hpos' & Hmax)].
        -- lra.
        -- right. exists d, a'.
           split; [exact Ha'|]. split; [reflexivity|]. split; [exact Hbeff|].
           split; [apply in_or_app; now left|].
           split; [exact Hpos'|].
           intros d' [Hd|Hd]%in_app_or Hd'; [auto|].
           destruct Hd as [E|[]]. subst d'. lra.
Qed.

Lemma simulate_intervention_chooses (log : list (list Q)) :
  exists best,
    _simulate_intervention self features iv current_risk log
      = (inr best, log ++ map (modify features iv) (delta_range iv)) /\
    chosen rp m features iv current_risk (delta_range iv) best.
Proof.
  unfold _simulate_intervention.
  apply (simulate_deltas_chooses (delta_range iv) [] None (-1) log).
  left. split; [reflexivity|]. split; [reflexivity|]. intros d [].
Qed.
End OneIntervention.

Lemma simulate_each_collects (features : list Q) (current_risk : Q) (ivs : list intervention) :
  Forall (fun iv => (0 < effort_cost iv)%Z) ivs ->
  forall results log,
  exists bests,
    simulate_each self features ivs current_risk results log
      = (inr (results ++ omap id bests),
         log ++ concat (map (fun iv => map (modify features iv) (delta_range iv)) ivs)) /\
    Forall2 (fun iv best => chosen rp m features iv current_risk (delta_range iv) best)
            ivs bests.
Proof.
  induction 1 as [|iv ivs Hiv _ IH]; intros results log.
  - exists []. cbn. rewrite !app_nil_r. split; [reflexivity|constructor].
  - cbn [simulate_each map concat]. unfold bind at 1.
    destruct (simulate_intervention_chooses features iv current_risk Hiv log)
      as (best & -> & Hbest).
    destruct (IH (match best with Some b => results ++ [b] | None => results end)
                 (log ++ map (modify features iv) (delta_range iv)))
      as (bests & -> & Hbests).
    exists (best :: bests). split; [|now constructor].
    rewrite <- !app_assoc. destruct best; cbn; now rewrite <- ?app_assoc.
Qed.

Lemma chosen_of_collected (features : list Q) (current_risk : Q)
    (ivs : list intervention) (bests : list (option InterventionResult)) (r : InterventionResult) :
  Forall2 (fun iv best => chosen rp m features iv current_risk (delta_range iv) best)
          ivs bests ->
  In r (omap id bests) ->
  exists iv, In iv ivs /\ chosen rp m features iv current_risk (delta_range iv) (Some r).
Proof.
  induction 1 as [|iv best ivs bests Hbest _ IH]; cbn; [tauto|].
  destruct best as [b|]; cbn.
  - intros [<-|Hin].
    + exists iv. split; [now left|assumption].
    + destruct (IH Hin) as (iv' & Hiv' & Hc). exists iv'. split; [now right|assumption].
  - intros Hin. destruct (IH Hin) as (iv' & Hiv' & Hc). exists iv'. split; [now right|assumption].
Qed.

(** An intervention with an improving magnitude has its best result collected. *)
Lemma collected_of_improving (features : list Q) (current_risk : Q)
    (ivs : list intervention) (bests : list (option InterventionResult)) (iv : intervention) :
  Forall2 (fun iv best => chosen rp m features iv current_risk (delta_range iv) best)
          ivs bests ->
  In iv ivs ->
  (exists delta, In delta (delta_range iv) /\
                 0 < reduction m features iv current_risk delta) ->
  exists r, In r (omap id bests) /\
            chosen rp m features iv current_risk (delta_range iv) (Some r).
Proof.
  induction 1 as [|iv' best ivs bests Hbest _ IH]; cbn; [tauto|].
  intros [->|Hin] Himp.
  - destruct best as [b|]; cbn.
    + exists b. split; [now left|assumption].
    + destruct Himp as (delta & Hd & Hpos). cbn in Hbest.
      specialize (Hbest delta Hd). lra.
  - destruct (IH Hin Himp) as (r & Hr & Hc). exists r. split; [|assumption].
    destruct best; cbn; [now right|assumption].
Qed.
End Search.

Section Simulate.
Import CounterfactualEngine.

Lemma default_efforts_positive :
  Forall (fun iv => (0 < effort_cost iv)%Z) default_interventions.
Proof. repeat constructor. Qed.

Lemma default_names_distinct (iv iv' : intervention) :
  In iv default_interventions -> In iv' default_interventions ->
  name iv = name iv' -> iv = iv'.
Proof.
  cbn. intros H H' E.
  repeat match goal with
         | H : _ \/ _ |- _ => destruct H as [H|H]
         | H : False |- _ => destruct H
         end; subst; first [reflexivity | discriminate E].
Qed.

Lemma reported_reduction_nonneg (x : Q) : 0 < x -> 0 <= py_round x 4.
Proof. intros H. apply py_round4_nonneg. lra. Qed.

Lemma reported_reduction_pos (current_risk p : Q) :
  four_decimals current_risk ->
  0 < current_risk - py_round p 4 ->
  0 < py_round (current_risk - py_round p 4) 4.
Proof.
  intros [k Hk] Hpos. destruct (py_round4_on_grid p) as [k' Hk'].
  rewrite (py_round4_grid _ (k - k')); [assumption|].
  rewrite Hk, Hk'. unfold Zminus. rewrite inject_Z_plus, inject_Z_opp. field.
Qed.

Lemma simulate_interventions_run
    (rp : RiskPredictor.t) (m : RiskPredictor.CalibratedClassifierCV)
    (data : FeatureEngineer.student_data) (current_risk : Q) (log : list (list Q)) :
  RiskPredictor.is_trained rp = true ->
  RiskPredictor.calibrated_model rp = Some m ->
  exists bests,
    simulate_interventions (init rp) data current_risk log
      = (inr (firstn 3 (sort_desc (omap id bests))),
         log ++ probes (FeatureEngineer.extract_features data) default_interventions) /\
    Forall2 (fun iv best =>
               chosen rp m (FeatureEngineer.extract_features data) iv current_risk
                 (delta_range iv) best)
            default_interventions bests.
Proof.
  intros Ht Hm.
  destruct (simulate_each_collects rp m Ht Hm (init rp) eq_refl
              (FeatureEngineer.extract_features data) current_risk
              default_interventions default_efforts_positive [] log)
    as (bests & Heach & Hbests).
  exists bests. split; [|assumption].
  unfold simulate_interventions, bind. cbn [interventions init].
  now rewrite Heach.
Qed.

(** C3, as amended: once the predictor is trained, [simulate_interventions]
    returns at most 3 results, sorted by [effectiveness_score]
    descending.  Every result comes from an intervention of the catalog
    at the magnitude that maximizes [risk_reduction / effort_cost]
    among its improving magnitudes, those with
    [current_risk - new_risk > 0]; the [risk_reduction] it reports is
    that difference rounded to four decimals, which is never negative,
    and positive when [current_risk] has at most four decimals.  An
    intervention with no improving magnitude gives no result.  An
    intervention with an improving magnitude has the result of a best
    magnitude kept: it is returned, unless three results that score at
    least as much are. *)
Theorem simulate_interventions_ranking
    (rp : RiskPredictor.t) (m : RiskPredictor.CalibratedClassifierCV)
    (data : FeatureEngineer.student_data) (current_risk : Q) (log : list (list Q)) :
  RiskPredictor.is_trained rp = true ->
  RiskPredictor.calibrated_model rp = Some m ->
  exists results log',
    simulate_interventions (init rp) data current_risk log = (inr results, log') /\
    (length results <= 3)%nat /\
    StronglySorted by_score_desc results /\
    (forall r, In r results ->
       exists iv delta a,
         In iv (interventions (init rp)) /\
         RiskPredictor.predict rp
           (modify (FeatureEngineer.extract_features data) iv delta) = inr a /\
         r = scenario iv delta current_risk a /\
         best_magnitude m (FeatureEngineer.extract_features data) iv current_risk
           (delta_range iv) delta /\
         0 <= risk_reduction r /\
         (four_decimals current_risk -> 0 < risk_reduction r)) /\
    (forall iv, In iv (interventions (init rp)) ->
       (forall delta, In delta (delta_range iv) ->
          reduction m (FeatureEngineer.extract_features data) iv current_risk delta <= 0) ->
       forall r, In r results -> action r <> name iv) /\
    (forall iv, In iv (interventions (init rp)) ->
       (exists delta, In delta (delta_range iv) /\
          0 < reduction m (FeatureEngineer.extract_features data) iv current_risk delta) ->
       exists delta a,
         RiskPredictor.predict rp
           (modify (FeatureEngineer.extract_features data) iv delta) = inr a /\
         best_magnitude m (FeatureEngineer.extract_features data) iv current_risk
           (delta_range iv) delta /\
         (In (scenario iv delta current_risk a) results \/
          (length results = 3%nat /\
           Forall (fun r => effectiveness_score (scenario iv delta current_risk a)
                            <= effectiveness_score r) results))).
Proof.
  intros Ht Hm.
  destruct (simulate_interventions_run rp m data current_risk log Ht Hm)
    as (bests & Hrun & Hbests).
  set (features := FeatureEngineer.extract_features data) in *.
  rewrite Hrun. do 2 eexists. split; [reflexivity|].
  assert (Hfrom : forall r, In r (firstn 3 (sort_desc (omap id bests))) ->
            exists iv, In iv default_interventions /\
              chosen rp m features iv current_risk (delta_range iv) (Some r)).
  { intros r Hr. apply In_firstn in Hr. rewrite sort_desc_In in Hr.
    exact (chosen_of_collected rp m features current_risk _ _ r Hbests Hr). }
  split; [apply firstn_le_length|].
  split; [apply firstn_sorted, sort_desc_sorted|].
  split; [|split].
  - intros r Hr. destruct (Hfrom r Hr) as (iv & Hiv & delta & a & Ha & -> & Hbest).
    exists iv, delta, a. repeat (split; [assumption || reflexivity|]).
    destruct Hbest as (_ & Hpos & _). unfold reduction, new_risk in Hpos.
    rewrite (predict_trained rp m _ Ht Hm) in Ha. injection Ha as <-.
    cbn [risk_reduction scenario RiskPredictor.failure_probability]. split.
    + now apply reported_reduction_nonneg.
    + intros Hgrid. now apply reported_reduction_pos.
  - intros iv Hiv Hnone r Hr Hname.
    destruct (Hfrom r Hr) as (iv' & Hiv' & delta & a & _ & -> & Hin & Hpos & _).
    cbn [action scenario] in Hname.
    assert (iv' = iv) as -> by now apply default_names_distinct.
    specialize (Hnone delta Hin). lra.
  - intros iv Hiv Himp.
    destruct (collected_of_improving rp m features current_risk _ _ iv Hbests Hiv Himp)
      as (r & Hr & delta & a & Ha & -> & Hbest).
    exists delta, a. split; [assumption|]. split; [assumption|].
    apply firstn_sorted_top; [apply sort_desc_sorted|now apply sort_desc_In].
Qed.
End Simulate.

Lemma simulate_interventions_ranking_witness :
  exists results log',
    CounterfactualEngine.simulate_interventions
      (CounterfactualEngine.init Samples.attendance_predictor)
      Samples.declining_student 0.38 [] = (inr results, log') /\
    (length results <= 3)%nat /\
    StronglySorted CounterfactualEngine.by_score_desc results /\
    (forall r, In r results ->
       exists iv delta a,
         In iv (CounterfactualEngine.interventions
                  (CounterfactualEngine.init Samples.attendance_predictor)) /\
         RiskPredictor.predict Samples.attendance_predictor
           (CounterfactualEngine.modify
              (FeatureEngineer.extract_features Samples.declining_student) iv delta) = inr a /\
         r = CounterfactualEngine.scenario iv delta 0.38 a /\
         CounterfactualEngine.best_magnitude Samples.attendance_model
           (FeatureEngineer.extract_features Samples.declining_student) iv 0.38
           (CounterfactualEngine.delta_range iv) delta /\
         0 <= CounterfactualEngine.risk_reduction r /\
         (CounterfactualEngine.four_decimals 0.38 -> 0 < CounterfactualEngine.risk_reduction r)) /\
    (forall iv,
       In iv (CounterfactualEngine.interventions
                (CounterfactualEngine.init Samples.attendance_predictor)) ->
       (forall delta, In delta (CounterfactualEngine.delta_range iv) ->
          CounterfactualEngine.reduction Samples.attendance_model
            (FeatureEngineer.extract_features Samples.declining_student) iv 0.38 delta <= 0) ->
       forall r, In r results -> CounterfactualEngine.action r <> CounterfactualEngine.name iv) /\
    (forall iv,
       In iv (CounterfactualEngine.interventions
                (CounterfactualEngine.init Samples.attendance_predictor)) ->
       (exists delta, In delta (CounterfactualEngine.delta_range iv) /\
          0 < CounterfactualEngine.reduction Samples.attendance_model
                (FeatureEngineer.extract_features Samples.declining_student) iv 0.38 delta) ->
       exists delta a,
         RiskPredictor.predict Samples.attendance_predictor
           (CounterfactualEngine.modify
              (FeatureEngineer.extract_features Samples.declining_student) iv delta) = inr a /\
         CounterfactualEngine.best_magnitude Samples.attendance_model
           (FeatureEngineer.extract_features Samples.declining_student) iv 0.38
           (CounterfactualEngine.delta_range iv) delta /\
         (In (CounterfactualEngine.scenario iv delta 0.38 a) results \/
          (length results = 3%nat /\
           Forall (fun r =>
                     CounterfactualEngine.effectiveness_score
                       (CounterfactualEngine.scenario iv delta 0.38 a)
                     <= CounterfactualEngine.effectiveness_score r) results))).
Proof.
  apply (simulate_interventions_ranking Samples.attendance_predictor
           Samples.attendance_model
           Samples.declining_student 0.38 []); reflexivity.
Defined.

(** C3, as stated, fails: with a current risk of 0.50004 and a model
    that answers 0.5, every magnitude improves by 0.00004, three
    results are returned, and the [risk_reduction] of each is 0.0000. *)
Lemma tiny_reduction_is_reported_as_zero :
  match fst (CounterfactualEngine.simulate_interventions
               (CounterfactualEngine.init (Samples.constant_predictor 0.5))
               Samples.declining_student 0.50004 []) with
  | inr results =>
    map (fun r => (CounterfactualEngine.action r, CounterfactualEngine.risk_reduction r))
        results
    = [("Improve Attendance", 0.0000); ("Boost Internal Marks", 0.0000);
       ("Stabilize Performance", 0.0000)]%string /\
    Forall (fun r => ~ 0 < CounterfactualEngine.risk_reduction r) results
  | inl _ => False
  end.
Proof.
  vm_compute. split; [reflexivity|].
  repeat constructor; intros H; discriminate H.
Qed.

Section SafePath.
Import CounterfactualEngine.

Lemma first_reaching_spec (target_risk : Q) (ranked : list InterventionResult) :
  match first_reaching target_risk ranked with
  | Some iv =>
    exists before after,
      ranked = before ++ iv :: after /\
      Forall (fun r => target_risk < predicted_risk r) before /\
      predicted_risk iv <= target_risk
  | None => Forall (fun r => target_risk < predicted_risk r) ranked
  end.
Proof.
  induction ranked as [|r ranked IH]; cbn; [constructor|].
  destruct (Qle_bool (predicted_risk r) target_risk) eqn:E.
  - exists [], ranked. repeat split; [constructor|now apply Qle_bool_iff].
  - apply Qle_bool_false in E as Hr.
    destruct (first_reaching target_risk ranked) as [iv|].
    + destruct IH as (before & after & -> & Hb & Hiv).
      exists (r :: before), after. repeat split; [now constructor|assumption].
    + now constructor.
Qed.

(** C5, as amended: once the predictor is trained,
    [find_minimal_safe_path] reports "safe" when the current predicted
    probability is at most the target, after the one query that gave
    it: the interventions are not simulated.  Otherwise it simulates
    them (14 more queries) and scans the ranked results in order: the
    first whose predicted probability is at most the target is the
    solution found; when none is, the best-ranked one is a partial
    solution with the note; and when no result was returned at all,
    the outcome is "no_solution". *)
Theorem find_minimal_safe_path_outcome
    (rp : RiskPredictor.t) (m : RiskPredictor.CalibratedClassifierCV)
    (data : FeatureEngineer.student_data) (target_risk : Q) (log : list (list Q)) :
  RiskPredictor.is_trained rp = true ->
  RiskPredictor.calibrated_model rp = Some m ->
  exists outcome log',
    let features := FeatureEngineer.extract_features data in
    let current := py_round (RiskPredictor.predict_proba m features) 4 in
    find_minimal_safe_path (init rp) data target_risk log = (inr outcome, log') /\
    (current <= target_risk ->
     outcome = safe "Student is already below target risk threshold" current target_risk /\
     log' = log ++ [features]) /\
    (target_risk < current ->
     exists ranked,
       simulate_interventions (init rp) data current (log ++ [features])
         = (inr ranked, log') /\
       length log' = (length log + 15)%nat /\
       ((exists before iv after,
            ranked = before ++ iv :: after /\
            Forall (fun r => target_risk < predicted_risk r) before /\
            predicted_risk iv <= target_risk /\
            outcome = solution_found [iv] (predicted_risk iv) (effort_level iv)) \/
        (Forall (fun r => target_risk < predicted_risk r) ranked /\
         exists best rest,
           ranked = best :: rest /\
           outcome = partial_solution [best] (predicted_risk best) (effort_level best)
                       "Multiple interventions may be needed to reach target safety level") \/
        (ranked = [] /\
         outcome = no_solution "Unable to find viable intervention path" current))).
Proof.
  intros Ht Hm. cbv zeta.
  set (features := FeatureEngineer.extract_features data).
  set (current := py_round (RiskPredictor.predict_proba m features) 4).
  unfold find_minimal_safe_path. fold features. unfold bind at 1.
  cbn [risk_predictor init].
  destruct (query_predict_trained rp m Ht Hm features log) as (a & -> & _ & Hrisk).
  rewrite Hrisk. fold current.
  destruct (Qle_bool current target_risk) eqn:E.
  - apply Qle_bool_iff in E. do 2 eexists. split; [reflexivity|].
    split; [auto|]. intros Hlt. lra.
  - apply Qle_bool_false in E as Hgt.
    destruct (simulate_interventions_run rp m data current (log ++ [features]) Ht Hm)
      as (bests & Hrun & _).
    fold features in Hrun.
    set (ranked := firstn 3 (sort_desc (omap id bests))) in *.
    unfold bind. rewrite Hrun.
    pose proof (first_reaching_spec target_risk ranked) as Hscan.
    assert (Hlen : length ((log ++ [features]) ++ probes features default_interventions)
                   = (length log + 15)%nat).
    { rewrite !length_app. unfold probes. cbn. lia. }
    destruct (first_reaching target_risk ranked) as [iv|].
    + do 2 eexists. split; [reflexivity|]. split; [intros; lra|].
      intros _. exists ranked. split; [reflexivity|]. split; [exact Hlen|].
      left. destruct Hscan as (before & after & Hr & Hb & Hiv).
      exists before, iv, after. auto.
    + destruct ranked as [|best rest] eqn:Eranked.
      * do 2 eexists. split; [reflexivity|]. split; [intros; lra|].
        intros _. exists []. split; [reflexivity|]. split; [exact Hlen|].
        right. right. auto.
      * do 2 eexists. split; [reflexivity|]. split; [intros; lra|].
        intros _. exists (best :: rest). split; [reflexivity|]. split; [exact Hlen|].
        right. left. split; [assumption|]. exists best, rest. auto.
Qed.
End SafePath.

Lemma find_minimal_safe_path_outcome_witness :
  exists outcome log',
    let features := FeatureEngineer.extract_features Samples.declining_student in
    let current :=
      py_round (RiskPredictor.predict_proba Samples.attendance_model features) 4 in
    CounterfactualEngine.find_minimal_safe_path
      (CounterfactualEngine.init Samples.attendance_predictor)
      Samples.declining_student 0.3 [] = (inr outcome, log') /\
    (current <= 0.3 ->
     outcome = CounterfactualEngine.safe "Student is already below target risk threshold"
                 current 0.3 /\
     log' = [] ++ [features]) /\
    (0.3 < current ->
     exists ranked,
       CounterfactualEngine.simulate_interventions
         (CounterfactualEngine.init Samples.attendance_predictor)
         Samples.declining_student current ([] ++ [features]) = (inr ranked, log') /\
       length log' = (length (@nil (list Q)) + 15)%nat /\
       ((exists before iv after,
            ranked = before ++ iv :: after /\
            Forall (fun r => 0.3 < CounterfactualEngine.predicted_risk r) before /\
            CounterfactualEngine.predicted_risk iv <= 0.3 /\
            outcome = CounterfactualEngine.solution_found [iv]
                        (CounterfactualEngine.predicted_risk iv)
                        (CounterfactualEngine.effort_level iv)) \/
        (Forall (fun r => 0.3 < CounterfactualEngine.predicted_risk r) ranked /\
         exists best rest,
           ranked = best :: rest /\
           outcome = CounterfactualEngine.partial_solution [best]
                       (CounterfactualEngine.predicted_risk best)
                       (CounterfactualEngine.effort_level best)
                       "Multiple interventions may be needed to reach target safety level") \/
        (ranked = [] /\
         outcome = CounterfactualEngine.no_solution
                     "Unable to find viable intervention path" current))).
Proof.
  apply (find_minimal_safe_path_outcome Samples.attendance_predictor
           Samples.attendance_model
           Samples.declining_student 0.3 []); reflexivity.
Defined.

(** C5, as stated, fails where no intervention improves: with a model
    that answers 0.85 whatever the vector, [simulate_interventions]
    returns nothing and the outcome is "no_solution", not a partial
    solution. *)
Lemma no_improvement_reports_no_solution :
  match CounterfactualEngine.find_minimal_safe_path
          (CounterfactualEngine.init (Samples.constant_predictor 0.85))
          Samples.declining_student 0.3 [] with
  | (inr outcome, log) =>
    outcome = CounterfactualEngine.no_solution "Unable to find viable intervention path" 0.8500 /\
    CounterfactualEngine.status outcome = "no_solution"%string /\
    length log = 15%nat
  | (inl _, _) => False
  end.
Proof. vm_compute. repeat split. Qed.

(** ** KnowledgeGraph: adding dependencies *)

Section GraphUpdates.
Import KnowledgeGraph.

Lemma assoc_app {A} (k : string) (l l' : list (string * A)) :
  assoc k (l ++ l') = match assoc k l with Some a => Some a | None => assoc k l' end.
Proof.
  induction l as [|[k' a] l IH]; cbn; [reflexivity|].
  now case_bool_decide.
Qed.

Lemma assoc_Some_In_keys {A} (k : string) (l : list (string * A)) :
  is_Some (assoc k l) <-> In k (map fst l).
Proof.
  induction l as [|[k' a] l IH]; cbn.
  - split; [intros [? [=]]|tauto].
  - case_bool_decide as E.
    + split; [intros _; left; congruence|intros _; now eexists].
    + rewrite IH. split; [tauto|intros [E'|H]; [congruence|assumption]].
Qed.

Lemma has_node_In (g : DiGraph) (n : string) : has_node g n = true <-> In n (nodes g).
Proof.
  unfold has_node, nodes. rewrite <- assoc_Some_In_keys.
  destruct (assoc n g); split; try reflexivity; try discriminate; [now eexists|intros [? [=]]].
Qed.

Lemma assoc_set_strength (v b : string) (s : Q) (l : list (string * Q)) :
  assoc b (set_strength v s l) = if bool_decide (b = v) then Some s else assoc b l.
Proof.
  induction l as [|[v' s'] l IH]; cbn.
  - now case_bool_decide.
  - destruct (bool_decide (v = v')) eqn:E; cbn.
    + apply bool_decide_eq_true_1 in E. subst v'.
      now case_bool_decide.
    + apply bool_decide_eq_false_1 in E.
      rewrite IH. repeat case_bool_decide; congruence.
Qed.

Lemma set_strength_twice (v : string) (s s' : Q) (l : list (string * Q)) :
  set_strength v s' (set_strength v s l) = set_strength v s' l.
Proof.
  induction l as [|[v' s0] l IH]; cbn.
  - now rewrite bool_decide_eq_true_2.
  - destruct (bool_decide (v = v')) eqn:E; cbn; rewrite E; [reflexivity|].
    now rewrite IH.
Qed.

Lemma keys_set_strength (v : string) (s : Q) (l : list (string * Q)) :
  map fst (set_strength v s l)
  = match assoc v l with Some _ => map fst l | None => map fst l ++ [v] end.
Proof.
  induction l as [|[v' s'] l IH]; cbn; [reflexivity|].
  destruct (bool_decide (v = v')) eqn:E; cbn; [reflexivity|].
  rewrite IH. now destruct (assoc v l).
Qed.

Lemma successors_add_node (g : DiGraph) (m n : string) :
  successors (add_node g m) n = successors g n.
Proof.
  unfold add_node, successors. destruct (has_node g m); [reflexivity|].
  rewrite assoc_app. destruct (assoc n g); [reflexivity|].
  cbn. now case_bool_decide.
Qed.

Lemma nodes_add_node (g : DiGraph) (m : string) :
  nodes (add_node g m) = if has_node g m then nodes g else nodes g ++ [m].
Proof.
  unfold add_node, nodes. destruct (has_node g m); [reflexivity|].
  now rewrite map_app.
Qed.

Lemma has_node_add_node (g : DiGraph) (m n : string) :
  has_node (add_node g m) n = has_node g n || bool_decide (n = m).
Proof.
  apply eq_true_iff_eq. rewrite orb_true_iff, bool_decide_eq_true.
  rewrite !has_node_In, nodes_add_node.
  destruct (has_node g m) eqn:E.
  - apply has_node_In in E. split; [tauto|intros [?| ->]; assumption].
  - rewrite in_app_iff. cbn. intuition congruence.
Qed.

Lemma nodes_map_entries (f : list (string * Q) -> list (string * Q)) (u : string)
    (g : DiGraph) :
  nodes (map (fun entry => if bool_decide (fst entry = u)
                           then (fst entry, f (snd entry)) else entry) g)
  = nodes g.
Proof.
  unfold nodes. rewrite map_map. apply map_ext. intros e. now case_bool_decide.
Qed.

Lemma assoc_map_entries (f : list (string * Q) -> list (string * Q)) (u : string)
    (g : DiGraph) (n : string) :
  assoc n (map (fun entry => if bool_decide (fst entry = u)
                             then (fst entry, f (snd entry)) else entry) g)
  = if bool_decide (n = u) then option_map f (assoc n g) else assoc n g.
Proof.
  induction g as [|[k l] g IH]; cbn [map assoc fst snd].
  - now case_bool_decide.
  - destruct (bool_decide (k = u)) eqn:Eku; cbn [assoc].
    + apply bool_decide_eq_true_1 in Eku. subst k.
      destruct (bool_decide (n = u)) eqn:Enu; [reflexivity|exact IH].
    + apply bool_decide_eq_false_1 in Eku.
      destruct (bool_decide (n = k)) eqn:Enk.
      * apply bool_decide_eq_true_1 in Enk. subst k.
        now rewrite bool_decide_eq_false_2 by congruence.
      * exact IH.
Qed.

Lemma nodes_add_edge (g : DiGraph) (u v : string) (s : Q) (n : string) :
  has_node (add_edge g u v s) n = has_node g n || bool_decide (n = u) || bool_decide (n = v).
Proof.
  unfold add_edge.
  transitivity (has_node (add_node (add_node g u) v) n).
  - apply eq_true_iff_eq. now rewrite !has_node_In, nodes_map_entries.
  - now rewrite !has_node_add_node.
Qed.

Lemma successors_add_edge (g : DiGraph) (u v : string) (s : Q) (a : string) :
  successors (add_edge g u v s) a
  = if bool_decide (a = u) then set_strength v s (successors g u) else successors g a.
Proof.
  unfold add_edge. unfold successors at 1. rewrite assoc_map_entries.
  case_bool_decide as E.
  - subst a.
    assert (Hu : has_node (add_node (add_node g u) v) u = true).
    { rewrite !has_node_add_node. rewrite (bool_decide_eq_true_2 (u = u)) by reflexivity.
      now rewrite orb_true_r. }
    assert (H1 : successors (add_node (add_node g u) v) u = successors g u)
      by now rewrite !successors_add_node.
    unfold has_node in Hu. unfold successors in *.
    destruct (assoc u (add_node (add_node g u) v)) as [l|]; [|discriminate].
    cbn in H1 |- *. now rewrite H1.
  - change (successors (add_node (add_node g u) v) a = successors g a).
    now rewrite !successors_add_node.
Qed.

(** X1: after [add_dependency g prerequisite course strength] the
    edge from [prerequisite] to [course] has that strength, every
    other edge has the strength it had (or is still absent), and the
    courses of the graph are those of [g] with [prerequisite] and
    [course]. *)
Theorem add_dependency_sets_one_strength
    (g : DiGraph) (prerequisite course : string) (strength : Q) (a b : string) :
  assoc b (successors (add_dependency g prerequisite course strength) a)
  = (if bool_decide (a = prerequisite /\ b = course) then Some strength
     else assoc b (successors g a)) /\
  has_node (add_dependency g prerequisite course strength) a
  = has_node g a || bool_decide (a = prerequisite) || bool_decide (a = course).
Proof.
  unfold add_dependency. split; [|apply nodes_add_edge].
  rewrite successors_add_edge. case_bool_decide as Ea.
  - subst a. rewrite assoc_set_strength.
    repeat case_bool_decide; try reflexivity; tauto.
  - rewrite bool_decide_eq_false_2 by tauto. reflexivity.
Qed.

(** X2: adding the same dependency again replaces its strength: the
    graph is the one obtained by adding it once with the last strength
    (no second edge, the order of courses and dependents unchanged). *)
Theorem add_dependency_last_strength_wins
    (g : DiGraph) (prerequisite course : string) (s s' : Q) :
  add_dependency (add_dependency g prerequisite course s) prerequisite course s'
  = add_dependency g prerequisite course s'.
Proof.
  unfold add_dependency.
  unfold add_edge at 1.
  assert (Hn : forall n, (n = prerequisite \/ n = course) ->
                 has_node (add_edge g prerequisite course s) n = true).
  { intros n Hn. rewrite nodes_add_edge, !orb_true_iff, !bool_decide_eq_true. tauto. }
  unfold add_node at 2. rewrite (Hn prerequisite) by now left.
  unfold add_node at 1. rewrite (Hn course) by now right.
  unfold add_edge. rewrite map_map. apply map_ext. intros [k l].
  cbn [fst snd].
  destruct (bool_decide (k = prerequisite)) eqn:E; cbn [fst snd]; rewrite E;
    [now rewrite set_strength_twice|reflexivity].
Qed.

End GraphUpdates.

(** ** Sorting by a key, descending *)

Section SortedDesc.
Context {A : Type} (key : A -> Q).

Lemma insert_by_desc_perm (x : A) (l : list A) :
  Permutation (insert_by_desc key x l) (x :: l).
Proof.
  induction l as [|y l IH]; cbn; [reflexivity|].
  destruct (Qle_bool (key x) (key y)); [|reflexivity].
  rewrite IH. apply perm_swap.
Qed.

Lemma sorted_desc_from_perm (l acc : list A) :
  Permutation (fold_left (fun sorted x => insert_by_desc key x sorted) l acc) (acc ++ l).
Proof.
  revert acc. induction l as [|x l IH]; intros acc; cbn [fold_left].
  - now rewrite app_nil_r.
  - rewrite IH, insert_by_desc_perm. apply Permutation_middle.
Qed.

Lemma sorted_desc_perm (l : list A) : Permutation (sorted_desc key l) l.
Proof. apply (sorted_desc_from_perm l []). Qed.

Lemma insert_by_desc_sorted (x : A) (l : list A) :
  StronglySorted (fun a b => key b <= key a) l ->
  StronglySorted (fun a b => key b <= key a) (insert_by_desc key x l).
Proof.
  induction 1 as [|y l Hl IH Hy]; cbn.
  - constructor; constructor.
  - destruct (Qle_bool (key x) (key y)) eqn:E.
    + apply Qle_bool_iff in E.
      constructor; [exact IH|].
      rewrite List.Forall_forall. intros z Hz.
      apply (Permutation_in _ (insert_by_desc_perm x l)) in Hz.
      destruct Hz as [<-|Hz]; [exact E|].
      rewrite List.Forall_forall in Hy. now apply Hy.
    + apply Qle_bool_false in E.
      constructor; [now constructor|].
      constructor; [now apply Qlt_le_weak|].
      rewrite List.Forall_forall in Hy |- *. intros z Hz.
      eapply Qle_trans; [apply (Hy z Hz)|now apply Qlt_le_weak].
Qed.

Lemma sorted_desc_from_sorted (l acc : list A) :
  StronglySorted (fun a b => key b <= key a) acc ->
  StronglySorted (fun a b => key b <= key a)
    (fold_left (fun sorted x => insert_by_desc key x sorted) l acc).
Proof.
  revert acc. induction l as [|x l IH]; intros acc Hacc; cbn [fold_left]; [assumption|].
  apply IH. now apply insert_by_desc_sorted.
Qed.

Lemma sorted_desc_sorted' (l : list A) :
  StronglySorted (fun a b => key b <= key a) (sorted_desc key l).
Proof. apply sorted_desc_from_sorted. constructor. Qed.

End SortedDesc.

(** ** KnowledgeGraph: the graphs an object holds *)

Section WellFormed.
Import KnowledgeGraph.

Lemma NoDup_snoc {A} (l : list A) (x : A) : NoDup l -> ~ In x l -> NoDup (l ++ [x]).
Proof.
  intros Hl Hx. apply NoDup_app. split; [assumption|]. split; [|apply NoDup_singleton].
  intros y Hy Hn. apply list_elem_of_In in Hy.
  apply list_elem_of_singleton in Hn. now subst y.
Qed.

Lemma well_formed_nil : well_formed [].
Proof. split; constructor. Qed.

Lemma add_node_well_formed (g : DiGraph) (n : string) :
  well_formed g -> well_formed (add_node g n).
Proof.
  intros [Hnodes Hentries]. split.
  - rewrite nodes_add_node. destruct (has_node g n) eqn:E; [assumption|].
    apply NoDup_snoc; [assumption|]. intros Hx.
    apply has_node_In in Hx. congruence.
  - assert (Hold : Forall (fun entry =>
                     NoDup (map fst (snd entry)) /\
                     Forall (fun e => has_node (add_node g n) (fst e) = true) (snd entry)) g).
    { eapply List.Forall_impl; [|exact Hentries]. cbn. intros entry [Hk Hs]. split; [assumption|].
      eapply List.Forall_impl; [|exact Hs]. cbn. intros e He.
      rewrite has_node_add_node, He. reflexivity. }
    unfold add_node at 2. destruct (has_node g n); [exact Hold|].
    apply List.Forall_app. split; [exact Hold|].
    constructor; [|constructor]. cbn. split; constructor.
Qed.

Lemma set_strength_In (v : string) (s : Q) (l : list (string * Q)) (e : string * Q) :
  In e (set_strength v s l) -> fst e = v \/ In (fst e) (map fst l).
Proof.
  intros He. apply (in_map fst) in He. rewrite keys_set_strength in He.
  destruct (assoc v l); [now right|].
  apply in_app_iff in He. destruct He as [He|[He|[]]]; [now right|now left].
Qed.

Lemma add_edge_well_formed (g : DiGraph) (u v : string) (s : Q) :
  well_formed g -> well_formed (add_edge g u v s).
Proof.
  intros Hg.
  assert (Hv : has_node (add_edge g u v s) v = true).
  { rewrite nodes_add_edge, !orb_true_iff, !bool_decide_eq_true. tauto. }
  assert (Hsame : forall n, has_node (add_edge g u v s) n
                            = has_node (add_node (add_node g u) v) n).
  { intros n. rewrite nodes_add_edge, !has_node_add_node. reflexivity. }
  apply (add_node_well_formed _ u), (add_node_well_formed _ v) in Hg.
  destruct Hg as [Hnodes Hentries]. split.
  - unfold add_edge. now rewrite nodes_map_entries.
  - revert Hv Hsame. generalize (add_edge g u v s) at 1 2 3 as g'. intros g' Hv Hsame.
    unfold add_edge.
    apply List.Forall_map. eapply List.Forall_impl; [|exact Hentries].
    cbn. intros [k l] [Hk Hs]. cbn [fst snd] in *.
    assert (Hs' : Forall (fun e => has_node g' (fst e) = true) l).
    { eapply List.Forall_impl; [|exact Hs]. cbn. intros e He. now rewrite Hsame. }
    case_bool_decide; cbn [fst snd]; [|now split].
    split.
    + rewrite keys_set_strength. destruct (assoc v l) eqn:E; [assumption|].
      apply NoDup_snoc; [assumption|]. intros Hx.
      apply assoc_Some_In_keys in Hx. rewrite E in Hx. now destruct Hx.
    + rewrite List.Forall_forall. intros e He.
      destruct (set_strength_In _ _ _ _ He) as [->|Hin]; [assumption|].
      apply in_map_iff in Hin. destruct Hin as (e' & Heq & Hin).
      rewrite List.Forall_forall in Hs'. rewrite <- Heq. now apply Hs'.
Qed.

Lemma initialize_well_formed (g : DiGraph) :
  well_formed g -> well_formed (_initialize_default_graph g).
Proof.
  unfold _initialize_default_graph. generalize default_dependencies as l.
  intros l. revert g. induction l as [|[[prereq course] strength] l IH]; intros g Hg;
    cbn [fold_left]; [assumption|].
  apply IH.
  pose proof (add_edge_well_formed g prereq course strength Hg) as H1.
  destruct (has_node (add_edge g prereq course strength) prereq).
  - destruct (has_node (add_edge g prereq course strength) course);
      [assumption|now apply add_node_well_formed].
  - destruct (has_node (add_node (add_edge g prereq course strength) prereq) course);
      [now apply add_node_well_formed|now apply add_node_well_formed, add_node_well_formed].
Qed.

Lemma built_well_formed (g : DiGraph) : built g -> well_formed g.
Proof.
  induction 1 as [|g u v s _ IH].
  - apply initialize_well_formed, well_formed_nil.
  - now apply add_edge_well_formed.
Qed.

Lemma well_formed_successors (g : DiGraph) (c : string) :
  well_formed g ->
  NoDup (map fst (successors g c)) /\
  Forall (fun e => has_node g (fst e) = true) (successors g c).
Proof.
  intros [_ Hentries]. unfold successors.
  destruct (assoc c g) as [l|] eqn:E; cbn; [|split; constructor].
  apply assoc_In in E. rewrite List.Forall_forall in Hentries.
  apply (Hentries _ E).
Qed.

Lemma assoc_NoDup_In {A} (k : string) (a : A) (l : list (string * A)) :
  NoDup (map fst l) -> In (k, a) l -> assoc k l = Some a.
Proof.
  induction l as [|[k' a'] l IH]; cbn; [tauto|].
  intros Hnd [Heq|Hin].
  - injection Heq as -> ->. now rewrite bool_decide_eq_true_2.
  - apply NoDup_cons in Hnd as [Hk Hnd].
    case_bool_decide as E; [|now apply IH].
    subst k'. exfalso. apply Hk. apply list_elem_of_In.
    apply (in_map fst) in Hin. exact Hin.
Qed.

(** X3: [get_dependent_courses] lists exactly the courses that
    [course] has an edge to, each with the strength of that edge, as
    many as there are successors, the strongest first; for a course
    the graph does not know the list is empty. *)
Theorem get_dependent_courses_lists_successors (g : DiGraph) (course : string) :
  (forall d s, In (d, s) (get_dependent_courses g course)
               <-> assoc d (successors g course) = Some s) /\
  length (get_dependent_courses g course) = length (successors g course) /\
  StronglySorted (fun a b => snd b <= snd a) (get_dependent_courses g course).
Proof.
  unfold get_dependent_courses.
  destruct (has_node g course) eqn:Hnode; cbn [negb].
  - split; [|split].
    + intros d s. split.
      * intros Hin. apply (Permutation_in _ (sorted_desc_perm snd _)) in Hin.
        apply in_map_iff in Hin. destruct Hin as (d' & [= <- <-] & Hd).
        apply assoc_Some_In_keys in Hd. destruct Hd as [s Hs]. now rewrite Hs.
      * intros Hs.
        apply (Permutation_in _ (Permutation_sym (sorted_desc_perm snd _))).
        apply in_map_iff. exists d. split; [now rewrite Hs|].
        apply assoc_Some_In_keys. now exists s.
    + rewrite (Permutation_length (sorted_desc_perm snd _)).
      now rewrite !length_map.
    + apply sorted_desc_sorted'.
  - assert (Hsucc : successors g course = []).
    { unfold successors, has_node in *. now destruct (assoc course g). }
    rewrite Hsucc. split; [|split; [reflexivity|constructor]].
    intros d s. cbn. split; [tauto|discriminate].
Qed.

Lemma edges_In (g : DiGraph) (u v : string) :
  In (u, v) (edges g) <-> exists l, In (u, l) g /\ In v (map fst l).
Proof.
  unfold edges. rewrite in_flat_map. split.
  - intros ([k l] & Hin & Hv). cbn [fst snd] in Hv.
    apply in_map_iff in Hv. destruct Hv as (e & [= <- <-] & He).
    exists l. split; [assumption|]. now apply in_map.
  - intros (l & Hin & Hv). exists (u, l). split; [assumption|]. cbn [fst snd].
    apply in_map_iff in Hv. destruct Hv as (e & <- & He).
    apply in_map_iff. now exists e.
Qed.

Lemma edges_NoDup (g : DiGraph) :
  NoDup (nodes g) -> Forall (fun entry => NoDup (map fst (snd entry))) g -> NoDup (edges g).
Proof.
  induction g as [|[k l] g IH]; cbn; [constructor|].
  intros Hk Hl. apply NoDup_cons in Hk as [Hk Hnodes].
  apply Forall_cons in Hl as [Hl Hrest]. cbn [snd] in Hl.
  apply NoDup_app. split; [|split; [|now apply IH]].
  - rewrite <- (map_map fst (fun v => (k, v))).
    apply NoDup_fmap_2; [|exact Hl]. intros a b [=]. assumption.
  - intros [u v] Hin Hin'. apply list_elem_of_In in Hin, Hin'.
    apply in_map_iff in Hin. destruct Hin as (e & [= <- <-] & _).
    apply edges_In in Hin'. destruct Hin' as (l' & Hin' & _).
    apply Hk. apply list_elem_of_In. apply (in_map fst) in Hin'. exact Hin'.
Qed.

(** X4: in the export of a graph an object can hold (the default
    graph, then any dependencies added) no node and no edge is
    listed twice, both ends of every edge are among the nodes listed,
    and an edge carries its current strength. *)
Theorem export_graph_is_closed (g : DiGraph) :
  built g ->
  NoDup (map fst (exported_nodes (export_graph g))) /\
  NoDup (map fst (exported_edges (export_graph g))) /\
  forall source target strength,
    In (source, target, strength) (exported_edges (export_graph g)) ->
    In source (map fst (exported_nodes (export_graph g))) /\
    In target (map fst (exported_nodes (export_graph g))) /\
    assoc target (successors g source) = Some strength.
Proof.
  intros Hb. pose proof (built_well_formed g Hb) as Hwf.
  destruct Hwf as [Hnodes Hentries].
  assert (Hids : map fst (exported_nodes (export_graph g)) = nodes g).
  { cbn. rewrite map_map. cbn. apply map_id. }
  assert (Hpairs : map fst (exported_edges (export_graph g)) = edges g).
  { cbn. rewrite map_map. cbn. rewrite <- (map_id (edges g)) at 2.
    apply map_ext. now intros []. }
  rewrite Hids, Hpairs. split; [assumption|]. split.
  - apply edges_NoDup; [assumption|].
    eapply List.Forall_impl; [|exact Hentries]. cbn. tauto.
  - intros u v s Hin. cbn in Hin. apply in_map_iff in Hin.
    destruct Hin as ([u' v'] & [= <- <- <-] & Hin). cbn [fst snd].
    apply edges_In in Hin. destruct Hin as (l & Hl & Hv).
    assert (Hassoc : assoc u' g = Some l).
    { apply assoc_NoDup_In; assumption. }
    rewrite List.Forall_forall in Hentries.
    destruct (Hentries _ Hl) as [Hk Hs]. cbn [snd] in *.
    split; [|split].
    + apply (in_map fst) in Hl. exact Hl.
    + apply in_map_iff in Hv. destruct Hv as (e & <- & He).
      rewrite List.Forall_forall in Hs. apply has_node_In. now apply Hs.
    + unfold successors. rewrite Hassoc. cbn.
      apply assoc_Some_In_keys in Hv. destruct Hv as [s Hs']. now rewrite Hs'.
Qed.

End WellFormed.

Lemma export_graph_is_closed_witness :
  NoDup (map fst (KnowledgeGraph.exported_nodes
                    (KnowledgeGraph.export_graph Samples.shortcut_graph))) /\
  NoDup (map fst (KnowledgeGraph.exported_edges
                    (KnowledgeGraph.export_graph Samples.shortcut_graph))) /\
  forall source target strength,
    In (source, target, strength)
       (KnowledgeGraph.exported_edges (KnowledgeGraph.export_graph Samples.shortcut_graph)) ->
    In source (map fst (KnowledgeGraph.exported_nodes
                          (KnowledgeGraph.export_graph Samples.shortcut_graph))) /\
    In target (map fst (KnowledgeGraph.exported_nodes
                          (KnowledgeGraph.export_graph Samples.shortcut_graph))) /\
    KnowledgeGraph.assoc target
      (KnowledgeGraph.successors Samples.shortcut_graph source) = Some strength.
Proof.
  apply (export_graph_is_closed Samples.shortcut_graph).
  unfold Samples.shortcut_graph. constructor. constructor.
Defined.

(** ** KnowledgeGraph: how far the risk travels *)

Section Reach.
Import KnowledgeGraph.

Lemma risks_grow_refl (risks : gmap string Q) : risks_grow risks risks.
Proof. intros k v Hk. exists v. split; [assumption|apply Qle_refl]. Qed.

Lemma risks_grow_trans (r1 r2 r3 : gmap string Q) :
  risks_grow r1 r2 -> risks_grow r2 r3 -> risks_grow r1 r3.
Proof.
  intros H12 H23 k v Hk.
  destruct (H12 k v Hk) as (v2 & Hk2 & Hle2).
  destruct (H23 k v2 Hk2) as (v3 & Hk3 & Hle3).
  exists v3. split; [assumption|]. eapply Qle_trans; eassumption.
Qed.

(** One turn stores the dependent with at least the propagated value,
    and lowers no value. *)
Lemma propagate_step_grows (cr : Q) (risks : gmap string Q) (queue : list (string * Q))
    (d : string) (s : Q) :
  risks_grow risks (fst (propagate_step cr (risks, queue) (d, s))) /\
  exists v, fst (propagate_step cr (risks, queue) (d, s)) !! d = Some v /\ cr * s * 0.8 <= v.
Proof.
  cbn [propagate_step fst]. destruct (risks !! d) as [old|] eqn:Eold; split.
  - intros k v Hk. destruct (decide (k = d)) as [->|Hne].
    + rewrite lookup_insert_eq. eexists. split; [reflexivity|].
      rewrite Eold in Hk. injection Hk as <-. apply Q.le_max_l.
    + rewrite lookup_insert_ne by congruence. exists v. split; [assumption|apply Qle_refl].
  - rewrite lookup_insert_eq. eexists. split; [reflexivity|apply Q.le_max_r].
  - intros k v Hk. destruct (decide (k = d)) as [->|Hne]; [congruence|].
    rewrite lookup_insert_ne by congruence. exists v. split; [assumption|apply Qle_refl].
  - rewrite lookup_insert_eq. eexists. split; [reflexivity|apply Qle_refl].
Qed.

Lemma propagate_fold_grows (cr : Q) (succs : list (string * Q))
    (st : gmap string Q * list (string * Q)) :
  risks_grow (fst st) (fst (fold_left (propagate_step cr) succs st)).
Proof.
  revert st. induction succs as [|[d s] succs IH]; intros [risks queue]; cbn [fold_left].
  - apply risks_grow_refl.
  - eapply risks_grow_trans; [apply (propagate_step_grows cr risks queue d s)|].
    destruct (propagate_step cr (risks, queue) (d, s)) as [risks' queue'] eqn:E.
    apply (IH (risks', queue')).
Qed.

Lemma propagate_fold_reaches (cr : Q) (succs : list (string * Q))
    (st : gmap string Q * list (string * Q)) (d : string) (s : Q) :
  In (d, s) succs ->
  exists v, fst (fold_left (propagate_step cr) succs st) !! d = Some v /\ cr * s * 0.8 <= v.
Proof.
  revert st. induction succs as [|[d' s'] succs IH]; intros [risks queue] Hin;
    [contradiction|].
  cbn [fold_left]. destruct Hin as [[= -> ->]|Hin].
  - destruct (propagate_step_grows cr risks queue d s) as [_ (v & Hv & Hle)].
    pose proof (propagate_fold_grows cr succs (propagate_step cr (risks, queue) (d, s)))
      as Hgrow.
    destruct (Hgrow d v Hv) as (v' & Hv' & Hle').
    exists v'. split; [assumption|]. eapply Qle_trans; eassumption.
  - now apply IH.
Qed.

Lemma propagate_loop_grows (g : DiGraph) (fuel : nat) :
  forall visited queue risks m,
    propagate_loop fuel g visited queue risks = Some m -> risks_grow risks m.
Proof.
  induction fuel as [|fuel IH]; intros visited queue risks m Hm.
  - destruct queue as [|[c r] queue]; cbn in Hm; [|discriminate].
    injection Hm as <-. apply risks_grow_refl.
  - destruct queue as [|[c r] queue]; cbn [propagate_loop] in Hm.
    + injection Hm as <-. apply risks_grow_refl.
    + case_bool_decide.
      * eapply IH; eassumption.
      * pose proof (propagate_fold_grows r (successors g c) (risks, queue)) as Hgrow.
        destruct (fold_left _ _ _) as [risks' queue'].
        eapply risks_grow_trans; [exact Hgrow|]. eapply IH; eassumption.
Qed.

(** X5: [propagate_risk] always returns, and the map holds every
    direct dependent of the failed course (other than that course
    itself) with at least [failure_risk * strength * 0.8]: values are
    only ever replaced by larger ones. *)
Theorem propagate_risk_reaches_direct_dependents
    (g : DiGraph) (source : string) (source_risk : Q) :
  exists m : gmap string Q,
    propagate_risk g source source_risk = Some m /\
    forall d s, In (d, s) (successors g source) -> d <> source ->
      exists v, m !! d = Some v /\ source_risk * s * 0.8 <= v.
Proof.
  destruct (propagate_risk_returns g source source_risk) as [m Hm].
  exists m. split; [assumption|]. intros d s Hin Hd.
  unfold propagate_risk in Hm. destruct (has_node g source) eqn:Hnode; cbn [negb] in Hm.
  - unfold traversal_fuel in Hm. cbn [propagate_loop] in Hm.
    rewrite bool_decide_eq_false_2 in Hm by set_solver.
    destruct (propagate_fold_reaches source_risk (successors g source) (∅, []) d s Hin)
      as (v & Hv & Hle).
    destruct (fold_left _ _ _) as [risks queue]. cbn [fst] in Hv.
    destruct (propagate_loop _ _ _ _ _) as [risks'|] eqn:E; [|discriminate].
    injection Hm as <-.
    destruct (propagate_loop_grows _ _ _ _ _ _ E d v Hv) as (v' & Hv' & Hle').
    exists v'. split; [|eapply Qle_trans; eassumption].
    now rewrite lookup_delete_ne by congruence.
  - unfold successors, has_node in *. destruct (assoc source g); [discriminate|].
    contradiction.
Qed.

(** The keys of the map and the courses of the queue can be reached
    from the source. *)
Lemma propagate_step_reachable (g : DiGraph) (source c : string) (cr : Q)
    (risks : gmap string Q) (queue : list (string * Q)) (d : string) (s : Q) :
  reachable g source c -> In (d, s) (successors g c) ->
  (forall k, is_Some (risks !! k) -> reachable g source k) ->
  Forall (fun e => reachable g source (fst e)) queue ->
  (forall k, is_Some (fst (propagate_step cr (risks, queue) (d, s)) !! k) ->
             reachable g source k) /\
  Forall (fun e => reachable g source (fst e)) (snd (propagate_step cr (risks, queue) (d, s))).
Proof.
  intros Hc Hin Hrisks Hqueue.
  assert (Hd : reachable g source d) by (eapply reachable_step; eassumption).
  cbn [propagate_step fst snd]. split.
  - intros k. destruct (risks !! d) as [old|];
      (destruct (decide (k = d)) as [->|Hne];
       [intros _; exact Hd|rewrite lookup_insert_ne by congruence; apply Hrisks]).
  - destruct (Qlt_bool 0.2 (cr * s * 0.8)); [|assumption].
    apply List.Forall_app. split; [assumption|]. now constructor.
Qed.

Lemma propagate_fold_reachable (g : DiGraph) (source c : string) (cr : Q)
    (succs : list (string * Q)) :
  reachable g source c ->
  (forall d s, In (d, s) succs -> In (d, s) (successors g c)) ->
  forall st,
    (forall k, is_Some (fst st !! k) -> reachable g source k) ->
    Forall (fun e => reachable g source (fst e)) (snd st) ->
    (forall k, is_Some (fst (fold_left (propagate_step cr) succs st) !! k) ->
               reachable g source k) /\
    Forall (fun e => reachable g source (fst e))
           (snd (fold_left (propagate_step cr) succs st)).
Proof.
  intros Hc. induction succs as [|[d s] succs IH]; intros Hs [risks queue] Hrisks Hqueue.
  - now split.
  - cbn [fold_left].
    destruct (propagate_step_reachable g source c cr risks queue d s Hc) as [Hr' Hq'];
      auto.
    { apply Hs. now left. }
    destruct (propagate_step cr (risks, queue) (d, s)) as [risks' queue'].
    apply IH; auto. intros d' s' Hin. apply Hs. now right.
Qed.

Lemma propagate_loop_reachable (g : DiGraph) (source : string) (fuel : nat) :
  forall visited queue risks m,
    (forall k, is_Some (risks !! k) -> reachable g source k) ->
    Forall (fun e => reachable g source (fst e)) queue ->
    propagate_loop fuel g visited queue risks = Some m ->
    forall k, is_Some (m !! k) -> reachable g source k.
Proof.
  induction fuel as [|fuel IH]; intros visited queue risks m Hrisks Hqueue Hm.
  - destruct queue as [|[c r] queue]; cbn in Hm; [now injection Hm as <-|discriminate].
  - destruct queue as [|[c r] queue]; cbn [propagate_loop] in Hm;
      [now injection Hm as <-|].
    inversion Hqueue as [|? ? Hc Hqueue']; subst. cbn [fst] in Hc.
    case_bool_decide.
    + eapply IH; eassumption.
    + destruct (propagate_fold_reachable g source c r (successors g c) Hc
                  (fun d s H => H) (risks, queue) Hrisks Hqueue') as [Hr' Hq'].
      destruct (fold_left _ _ _) as [risks' queue'].
      eapply IH; eassumption.
Qed.

(** X6: every course of the propagated map is another course than
    the failed one, and edges of the graph lead to it from the failed
    course. *)
Theorem propagate_risk_follows_edges
    (g : DiGraph) (source : string) (source_risk : Q) :
  exists m : gmap string Q,
    propagate_risk g source source_risk = Some m /\
    forall k, is_Some (m !! k) -> k <> source /\ reachable g source k.
Proof.
  destruct (propagate_risk_returns g source source_risk) as [m Hm].
  exists m. split; [assumption|].
  unfold propagate_risk in Hm. destruct (has_node g source); cbn [negb] in Hm.
  - destruct (propagate_loop _ _ _ _ _) as [risks|] eqn:E; [|discriminate].
    injection Hm as <-. intros k Hk.
    destruct (decide (k = source)) as [->|Hne].
    + rewrite lookup_delete_eq in Hk. now destruct Hk.
    + split; [assumption|]. rewrite lookup_delete_ne in Hk by congruence.
      eapply (propagate_loop_reachable g source _ ∅ [(source, source_risk)] ∅);
        [| |exact E|exact Hk].
      * intros k' Hk'. rewrite lookup_empty in Hk'. now destruct Hk'.
      * constructor; [|constructor]. constructor.
  - injection Hm as <-. intros k Hk. rewrite lookup_empty in Hk. now destruct Hk.
Qed.

(** X7: with a failure risk of at most 0.25 and edge strengths in
    (0,1], no propagated value exceeds the threshold 0.2, so the
    propagation stops after one hop: the map holds exactly the direct
    dependents of the failed course (other than that course itself),
    each with [failure_risk * strength * 0.8] for an edge to it. *)
Theorem propagate_risk_stops_below_threshold
    (g : DiGraph) (source : string) (source_risk : Q) :
  strengths_in_unit g -> source_risk <= 0.25 ->
  exists m : gmap string Q,
    propagate_risk g source source_risk = Some m /\
    (forall k, is_Some (m !! k) <-> k <> source /\ In k (map fst (successors g source))) /\
    (forall k v, m !! k = Some v ->
       exists s, In (k, s) (successors g source) /\ v == source_risk * s * 0.8).
Proof.
  intros Hg Hrisk.
  assert (Hedges : forall d s, In (d, s) (successors g source) ->
            source_risk * s * 0.8 <= 0.2 /\
            exists s', In (d, s') (successors g source) /\
                       source_risk * s * 0.8 == source_risk * s' * 0.8).
  { intros d s Hin.
    destruct (successors_strength g source d s Hg Hin) as [Hs0 Hs1].
    split; [|exists s; split; [assumption|reflexivity]].
    destruct (Qlt_le_dec source_risk 0); nra. }
  destruct (propagate_fold_one_hop source_risk
              (fun k v => exists s, In (k, s) (successors g source) /\
                                    v == source_risk * s * 0.8)
              (successors g source) Hedges ∅ [])
    as (risks & Hfold & Hdom & Hval).
  { intros k v Hk. now rewrite lookup_empty in Hk. }
  unfold propagate_risk. destruct (has_node g source) eqn:Hnode; cbn [negb].
  - unfold traversal_fuel. cbn [propagate_loop].
    rewrite bool_decide_eq_false_2 by set_solver.
    rewrite Hfold.
    assert (Hend : forall fuel v, propagate_loop fuel g v [] risks = Some risks)
      by (intros [|fuel] v; reflexivity).
    rewrite Hend. eexists. split; [reflexivity|]. split.
    + intros k. destruct (decide (k = source)) as [->|Hne].
      * rewrite lookup_delete_eq. split; [intros [? [=]]|tauto].
      * rewrite lookup_delete_ne by congruence. rewrite Hdom.
        rewrite lookup_empty. split.
        -- intros [[? [=]]|Hin]; auto.
        -- intros [_ Hin]; auto.
    + intros k v Hk. apply lookup_delete_Some in Hk as [_ Hk]. now apply Hval.
  - assert (Hsucc : successors g source = []).
    { unfold successors, has_node in *. now destruct (assoc source g). }
    exists ∅. split; [reflexivity|]. split.
    + intros k. rewrite lookup_empty, Hsucc. cbn. split; [intros [? [=]]|tauto].
    + intros k v Hk. now rewrite lookup_empty in Hk.
Qed.

End Reach.

Lemma propagate_risk_stops_below_threshold_witness :
  exists m : gmap string Q,
    KnowledgeGraph.propagate_risk KnowledgeGraph.init "Calculus I" 0.25 = Some m /\
    (forall k, is_Some (m !! k) <->
               k <> "Calculus I"%string /\
               In k (map fst (KnowledgeGraph.successors KnowledgeGraph.init "Calculus I"))) /\
    (forall k v, m !! k = Some v ->
       exists s, In (k, s) (KnowledgeGraph.successors KnowledgeGraph.init "Calculus I") /\
                 v == 0.25 * s * 0.8).
Proof.
  apply (propagate_risk_stops_below_threshold KnowledgeGraph.init "Calculus I" 0.25).
  - unfold KnowledgeGraph.strengths_in_unit. vm_compute.
    repeat (constructor; try (split; [reflexivity|discriminate])).
  - vm_compute. discriminate.
Defined.

(** ** RiskPredictor: batches and the model file *)

Section Batch.
Import RiskPredictor.

Lemma predict_rows_untrained (self : t) (features_batch : list (list Q))
    (predictions : list PredictionResult) :
  is_trained self = false -> features_batch <> [] ->
  predict_rows self features_batch predictions = inl not_trained_error.
Proof.
  intros Hu Hne. destruct features_batch as [|features rest]; [congruence|].
  cbn [predict_rows]. now rewrite predict_untrained.
Qed.

Lemma predict_rows_trained (self : t) (m : CalibratedClassifierCV)
    (features_batch : list (list Q)) :
  is_trained self = true -> calibrated_model self = Some m ->
  forall predictions,
  exists l,
    predict_rows self features_batch predictions = inr (predictions ++ l) /\
    Forall2 (fun features p => predict self features = inr p) features_batch l.
Proof.
  intros Ht Hm. induction features_batch as [|features rest IH]; intros predictions.
  - exists []. cbn. rewrite app_nil_r. split; [reflexivity|constructor].
  - cbn [predict_rows].
    destruct (predict self features) as [e|p] eqn:E.
    + rewrite (predict_trained self m features Ht Hm) in E. discriminate.
    + destruct (IH (predictions ++ [p])) as (l & Hl & Hall).
      exists (p :: l). split; [now rewrite Hl, <- app_assoc|].
      now constructor.
Qed.

(** X8: [predict_batch] raises the not-trained [ValueError] exactly
    when the predictor is untrained and the batch is not empty (an
    empty batch gives an empty list even then); once a calibrated
    model is there it returns one prediction for every row, that of
    [predict] on the row, in order. *)
Theorem predict_batch_untrained_or_all
    (self : t) (features_batch : list (list Q)) :
  (predict_batch self features_batch = inl not_trained_error
   <-> is_trained self = false /\ features_batch <> []) /\
  (forall m, is_trained self = true -> calibrated_model self = Some m ->
     exists l,
       predict_batch self features_batch = inr l /\
       Forall2 (fun features p => predict self features = inr p) features_batch l).
Proof.
  split.
  - split.
    + intros H. destruct features_batch as [|features rest]; [cbv in H; discriminate|].
      split; [|discriminate].
      destruct (is_trained self) eqn:Ht; [exfalso|reflexivity].
      destruct (calibrated_model self) as [c|] eqn:Hc.
      * destruct (predict_rows_trained self c (features :: rest) Ht Hc [])
          as (l & Hl & _).
        unfold predict_batch in H. congruence.
      * unfold predict_batch in H. cbn [predict_rows] in H.
        unfold predict in H. rewrite Ht, Hc in H. discriminate.
    + intros [Hu Hne]. now apply predict_rows_untrained.
  - intros m Ht Hm.
    destruct (predict_rows_trained self m features_batch Ht Hm []) as (l & Hl & Hall).
    exists l. split; assumption.
Qed.

End Batch.

Section ModelFile.
Import RiskPredictor.
Variable dirname : string -> string.
Variable makedirs : string -> option exn.
Variable train_test_split :
  list (list Q) -> list Z -> (list (list Q) * list (list Q)) * (list Z * list Z).
Variable fit : list (list Q) -> list Z -> GradientBoostingClassifier.
Variable fit_calibrated : list (list Q) -> list Z -> CalibratedClassifierCV.

(** X9: [save_model] raises [ValueError] for an untrained predictor.
    After [train], if the directory can be made, it writes the two
    fitted models, and a predictor created on that file is trained
    and answers [predict] and [get_feature_importance] as the one
    that was saved. *)
Theorem save_model_then_load
    (self : t) (X : list (list Q)) (y : list Z) (path : option string) :
  let trained := fst (train train_test_split fit fit_calibrated self X y) in
  (is_trained self = false ->
   save_model dirname makedirs self = inl (ValueError "No trained model to save")) /\
  (makedirs (dirname (model_path trained)) = None ->
   exists m c reloaded,
     save_model dirname makedirs trained = inr (Some m, Some c) /\
     init path (Some (m, c)) = inr reloaded /\
     is_trained reloaded = true /\
     get_feature_importance reloaded = get_feature_importance trained /\
     forall features, predict reloaded features = predict trained features).
Proof.
  intros trained. split.
  - intros Hu. unfold save_model. now rewrite Hu.
  - intros Hdir. subst trained. unfold train in *.
    destruct (train_test_split X y) as [[X_train X_val] [y_train y_val]].
    cbn [fst] in *. unfold save_model. cbn [is_trained negb model calibrated_model].
    cbn [model_path] in Hdir. cbn [model_path]. rewrite Hdir.
    do 3 eexists. split; [reflexivity|]. split; [reflexivity|].
    split; [reflexivity|]. split; reflexivity.
Qed.

End ModelFile.

Lemma save_model_then_load_witness :
  let trained :=
    fst (RiskPredictor.train
           (fun X y => ((X, []), (y, [])))
           (fun _ _ => {| RiskPredictor.gb_predict_proba := fun _ => 0.5;
                          RiskPredictor.gb_score := fun _ _ => 1;
                          RiskPredictor.feature_importances_ := [] |})
           (fun _ _ => {| RiskPredictor.predict_proba := fun _ => 0.5 |})
           Samples.untrained_predictor [] []) in
  exists m c reloaded,
    RiskPredictor.save_model (fun p => p) (fun _ => None) trained = inr (Some m, Some c) /\
    RiskPredictor.init None (Some (m, c)) = inr reloaded /\
    RiskPredictor.is_trained reloaded = true /\
    RiskPredictor.get_feature_importance reloaded
    = RiskPredictor.get_feature_importance trained /\
    forall features,
      RiskPredictor.predict reloaded features = RiskPredictor.predict trained features.
Proof.
  intros trained.
  apply (proj2 (save_model_then_load (fun p => p) (fun _ => None)
                  (fun X y => ((X, []), (y, [])))
                  (fun _ _ => {| RiskPredictor.gb_predict_proba := fun _ => 0.5;
                                 RiskPredictor.gb_score := fun _ _ => 1;
                                 RiskPredictor.feature_importances_ := [] |})
                  (fun _ _ => {| RiskPredictor.predict_proba := fun _ => 0.5 |})
                  Samples.untrained_predictor [] [] None)).
  reflexivity.
Defined.

(** ** The cast to float32 keeps the unit interval *)

Lemma ilog2_unit (q : Q) : 0 < q -> q <= 1 -> (ilog2 (Qabs q) <= 0)%Z.
Proof.
  destruct q as [n d]. unfold Qlt, Qle. cbn [Qnum Qden]. intros Hpos Hle.
  unfold ilog2, Qabs. cbn [Qnum Qden].
  assert (Hn : (Z.abs n <= Z.pos d)%Z) by lia.
  pose proof (Z.log2_le_mono _ _ Hn).
  destruct (Qle_bool _ _); lia.
Qed.

Lemma float32_unit (q : Q) : 0 <= q -> q <= 1 -> 0 <= float32 q /\ float32 q <= 1.
Proof.
  intros H0 H1. unfold float32.
  destruct (Qeq_bool q 0) eqn:E; [split; [apply Qle_refl|discriminate]|].
  apply Qeq_bool_neq in E.
  assert (Hpos : 0 < q) by (apply Qle_lteq in H0 as [H|H]; [assumption|now symmetry in H]).
  pose proof (ilog2_unit q Hpos H1) as Hlog.
  set (e := Z.max (ilog2 (Qabs q)) (-126)).
  set (k := (23 - e)%Z).
  assert (Hk : (0 <= k)%Z) by (unfold k, e; lia).
  replace (e - 23)%Z with (- k)%Z by (unfold k; lia).
  assert (Hulp : Qpower 2 (- k) == / inject_Z (2 ^ k)).
  { rewrite Qpower_opp. change (2 : Q) with (inject_Z 2).
    now rewrite <- Zpower_Qpower by lia. }
  assert (Hpow : 0 < inject_Z (2 ^ k)).
  { change 0 with (inject_Z 0). rewrite <- Zlt_Qlt. apply Z.pow_pos_nonneg; lia. }
  assert (Hscaled : q / Qpower 2 (- k) == q * inject_Z (2 ^ k)).
  { rewrite Hulp. field. lra. }
  assert (Hlo : (0 <= round_half_even (q / Qpower 2 (- k)))%Z).
  { apply round_half_even_ge. rewrite Hscaled. change (inject_Z 0) with 0. nra. }
  assert (Hhi : (round_half_even (q / Qpower 2 (- k)) <= 2 ^ k)%Z).
  { apply round_half_even_le. rewrite Hscaled. nra. }
  rewrite Zle_Qle in Hlo, Hhi. change (inject_Z 0) with 0 in Hlo.
  assert (Hu : 0 < Qpower 2 (- k)) by now apply Qpower_0_lt.
  assert (HuP : Qpower 2 (- k) * inject_Z (2 ^ k) == 1) by (rewrite Hulp; field; lra).
  set (u := Qpower 2 (- k)) in *.
  set (r := inject_Z (round_half_even (q / u))) in *.
  split; nra.
Qed.

Lemma np_clip_unit (x : Q) : 0 <= np_clip x 0 1 /\ np_clip x 0 1 <= 1.
Proof.
  unfold np_clip. split.
  - apply Q.min_glb; [apply Q.le_max_r|discriminate].
  - apply Q.le_min_r.
Qed.

(** ** CounterfactualEngine: what an intervention changes *)

Section Modify.
Import CounterfactualEngine.

Lemma perturb_length (delta : Q) (fs : list Q) (idx : nat) :
  length (perturb delta fs idx) = length fs.
Proof.
  unfold perturb. destruct (idx <? length fs)%nat; [|reflexivity].
  now rewrite !length_insert.
Qed.

Lemma perturb_nth_ne (delta : Q) (fs : list Q) (idx i : nat) :
  i <> idx -> nth i (perturb delta fs idx) 0 = nth i fs 0.
Proof.
  intros Hne. unfold perturb. destruct (idx <? length fs)%nat; [|reflexivity].
  rewrite !nth_lookup, !list_lookup_insert_ne by congruence. reflexivity.
Qed.

Lemma perturb_nth_eq (delta : Q) (fs : list Q) (idx : nat) :
  (idx < length fs)%nat ->
  nth idx (perturb delta fs idx) 0
  = float32 (np_clip (float32 (nth idx fs 0 + delta)) 0 1).
Proof.
  intros Hlt. unfold perturb.
  destruct (idx <? length fs)%nat eqn:E; [|apply Nat.ltb_ge in E; lia].
  rewrite (nth_lookup (<[idx := _]> (<[idx := _]> fs))).
  rewrite list_lookup_insert_eq by now rewrite length_insert.
  cbn. rewrite (nth_lookup (<[idx := _]> fs)).
  now rewrite list_lookup_insert_eq.
Qed.

Lemma modify_from_length (delta : Q) (idxs : list nat) (fs : list Q) :
  length (fold_left (perturb delta) idxs fs) = length fs.
Proof.
  revert fs. induction idxs as [|a idxs IH]; intros fs; cbn [fold_left]; [reflexivity|].
  now rewrite IH, perturb_length.
Qed.

Lemma modify_from_untouched (delta : Q) (idxs : list nat) (fs : list Q) (i : nat) :
  ~ In i idxs -> nth i (fold_left (perturb delta) idxs fs) 0 = nth i fs 0.
Proof.
  revert fs. induction idxs as [|a idxs IH]; intros fs Hi; cbn [fold_left]; [reflexivity|].
  rewrite IH by (intros H; apply Hi; now right).
  apply perturb_nth_ne. intros ->. apply Hi. now left.
Qed.

Lemma modify_from_touched (delta : Q) (idxs : list nat) (fs : list Q) (i : nat) :
  In i idxs -> (i < length fs)%nat ->
  0 <= nth i (fold_left (perturb delta) idxs fs) 0 /\
  nth i (fold_left (perturb delta) idxs fs) 0 <= 1.
Proof.
  revert fs. induction idxs as [|a idxs IH]; intros fs Hi Hlt; [contradiction|].
  cbn [fold_left].
  destruct (in_dec Nat.eq_dec i idxs) as [Hin|Hout].
  - apply IH; [assumption|now rewrite perturb_length].
  - destruct Hi as [->|Hi]; [|contradiction].
    rewrite modify_from_untouched by assumption.
    rewrite perturb_nth_eq by assumption.
    apply float32_unit; apply np_clip_unit.
Qed.

(** X10: the vector an intervention of magnitude [delta] produces
    has the length of the current one; a slot that is not among the
    [feature_indices] keeps its value, and a slot that is (and lies
    within the vector) ends between 0 and 1. *)
Theorem modify_clips_only_its_slots (fs : list Q) (iv : intervention) (delta : Q) :
  length (modify fs iv delta) = length fs /\
  (forall i, ~ In i (feature_indices iv) -> nth i (modify fs iv delta) 0 = nth i fs 0) /\
  (forall i, In i (feature_indices iv) -> (i < length fs)%nat ->
     0 <= nth i (modify fs iv delta) 0 /\ nth i (modify fs iv delta) 0 <= 1).
Proof.
  unfold modify. split; [apply modify_from_length|]. split.
  - intros i. apply modify_from_untouched.
  - intros i. apply modify_from_touched.
Qed.

End Modify.

(** ** CounterfactualEngine: combined interventions *)

Section Combined.
Import CounterfactualEngine.

Variable rp : RiskPredictor.t.
Variable m : RiskPredictor.CalibratedClassifierCV.
Hypothesis Htrained : RiskPredictor.is_trained rp = true.
Hypothesis Hmodel : RiskPredictor.calibrated_model rp = Some m.

Lemma apply_named_unknown (self : t) (names : list string) (fs : list Q) (effort : Z) :
  Forall (fun n => find_intervention self n = None) names ->
  apply_named self names fs effort = inr (fs, effort).
Proof.
  induction 1 as [|n names Hn _ IH]; cbn [apply_named]; [reflexivity|].
  now rewrite Hn.
Qed.

(** X11: when none of the names is the name of an intervention of
    the engine (so also for no name at all), a trained engine
    predicts twice on the unchanged vector: the combined risk is the
    original risk, the reduction 0 and the total effort 0; the names
    are echoed. *)
Theorem simulate_combined_of_unknown_names
    (self : t) (data : FeatureEngineer.student_data) (names : list string)
    (log : list (list Q)) :
  risk_predictor self = rp ->
  Forall (fun n => find_intervention self n = None) names ->
  exists r,
    simulate_combined_interventions self data names log
    = (inr (inr r),
       log ++ [FeatureEngineer.extract_features data; FeatureEngineer.extract_features data]) /\
    original_risk r
    = py_round (RiskPredictor.predict_proba m (FeatureEngineer.extract_features data)) 4 /\
    combined_risk r = original_risk r /\
    total_risk_reduction r == 0 /\
    total_effort r = 0%Z /\
    interventions_applied r = names.
Proof.
  intros Hself Hnames. unfold simulate_combined_interventions.
  set (features := FeatureEngineer.extract_features data).
  unfold bind at 1. rewrite Hself.
  destruct (query_predict_trained rp m Htrained Hmodel features log) as (a & -> & _ & Ha).
  rewrite (apply_named_unknown self names features 0 Hnames).
  unfold bind.
  destruct (query_predict_trained rp m Htrained Hmodel features (log ++ [features]))
    as (a' & -> & _ & Ha').
  eexists. split; [unfold ret; now rewrite <- app_assoc|].
  cbn [original_risk combined_risk total_risk_reduction total_effort interventions_applied].
  rewrite Ha, Ha'. repeat split. unfold Qminus. apply Qplus_opp_r.
Qed.

(** The effort of the interventions named, each as often as it is named. *)
Lemma apply_named_effort (self : t) (names : list string) :
  Forall (fun iv => delta_range iv <> []) (interventions self) ->
  forall (fs : list Q) (effort : Z),
  exists fs',
    apply_named self names fs effort
    = inr (fs',
           (effort + fold_right Z.add 0
                       (map (fun n => match find_intervention self n with
                                      | Some iv => effort_cost iv
                                      | None => 0
                                      end) names))%Z) /\
    length fs' = length fs.
Proof.
  intros Hdeltas. induction names as [|n names IH]; intros fs effort.
  - exists fs. cbn. now rewrite Z.add_0_r.
  - cbn [apply_named map fold_right].
    destruct (find_intervention self n) as [iv|] eqn:Efind.
    + assert (Hiv : delta_range iv <> []).
      { unfold find_intervention in Efind. apply find_some in Efind as [Hin _].
        rewrite List.Forall_forall in Hdeltas. now apply Hdeltas. }
      assert (Hdelta : exists delta, moderate_delta iv = inr delta).
      { unfold moderate_delta. destruct (delta_range iv) as [|d [|d' l]];
          [congruence|now eexists..]. }
      destruct Hdelta as [delta ->].
      destruct (IH (fold_left (perturb delta) (feature_indices iv) fs)
                   (effort + effort_cost iv)%Z) as (fs' & -> & Hlen).
      exists fs'. split; [now rewrite Z.add_assoc|].
      now rewrite Hlen, modify_from_length.
    + destruct (IH fs effort) as (fs' & -> & Hlen).
      exists fs'. split; [now rewrite Z.add_0_l|assumption].
Qed.

(** X12: with the default interventions [simulate_combined_interventions]
    never fails on a trained predictor: it predicts twice, the second
    time on a vector of 22 slots, and the total effort is the sum of
    the efforts of the names that are interventions, a name counted
    as often as it is given and an unknown name for nothing. *)
Theorem simulate_combined_adds_up_efforts
    (data : FeatureEngineer.student_data) (names : list string) (log : list (list Q)) :
  exists r modified_features,
    simulate_combined_interventions (init rp) data names log
    = (inr (inr r), log ++ [FeatureEngineer.extract_features data; modified_features]) /\
    length modified_features = 22%nat /\
    total_effort r
    = fold_right Z.add 0%Z
        (map (fun n => match find_intervention (init rp) n with
                       | Some iv => effort_cost iv
                       | None => 0%Z
                       end) names) /\
    interventions_applied r = names /\
    total_risk_reduction r == original_risk r - combined_risk r.
Proof.
  unfold simulate_combined_interventions.
  set (features := FeatureEngineer.extract_features data).
  unfold bind at 1. cbn [risk_predictor init].
  destruct (query_predict_trained rp m Htrained Hmodel features log) as (a & -> & _ & Ha).
  destruct (apply_named_effort (init rp) names) with (fs := features) (effort := 0%Z)
    as (fs' & Happly & Hlen).
  { cbn. repeat constructor; discriminate. }
  fold (init rp). rewrite Happly. unfold bind.
  destruct (query_predict_trained rp m Htrained Hmodel fs' (log ++ [features]))
    as (a' & -> & _ & Ha').
  do 2 eexists. split; [unfold ret; now rewrite <- app_assoc|].
  cbn [original_risk combined_risk total_risk_reduction total_effort interventions_applied].
  split; [|repeat split].
  rewrite Hlen. apply extract_features_length.
Qed.

End Combined.

Lemma simulate_combined_of_unknown_names_witness :
  exists r,
    CounterfactualEngine.simulate_combined_interventions
      (CounterfactualEngine.init Samples.attendance_predictor) Samples.declining_student
      ["Sleep More"; "improve attendance"]%string []
    = (inr (inr r),
       [] ++ [FeatureEngineer.extract_features Samples.declining_student;
              FeatureEngineer.extract_features Samples.declining_student]) /\
    CounterfactualEngine.original_risk r
    = py_round (RiskPredictor.predict_proba Samples.attendance_model
                  (FeatureEngineer.extract_features Samples.declining_student)) 4 /\
    CounterfactualEngine.combined_risk r = CounterfactualEngine.original_risk r /\
    CounterfactualEngine.total_risk_reduction r == 0 /\
    CounterfactualEngine.total_effort r = 0%Z /\
    CounterfactualEngine.interventions_applied r = ["Sleep More"; "improve attendance"]%string.
Proof.
  apply (simulate_combined_of_unknown_names Samples.attendance_predictor
           Samples.attendance_model eq_refl eq_refl
           (CounterfactualEngine.init Samples.attendance_predictor)
           Samples.declining_student ["Sleep More"; "improve attendance"]%string []).
  - reflexivity.
  - repeat constructor.
Defined.

Lemma simulate_combined_adds_up_efforts_witness :
  exists r modified_features,
    CounterfactualEngine.simulate_combined_interventions
      (CounterfactualEngine.init Samples.attendance_predictor) Samples.declining_student
      ["Improve Attendance"; "Sleep More"; "Boost Internal Marks"; "Improve Attendance"]%string
      []
    = (inr (inr r),
       [] ++ [FeatureEngineer.extract_features Samples.declining_student;
              modified_features]) /\
    length modified_features = 22%nat /\
    CounterfactualEngine.total_effort r
    = fold_right Z.add 0%Z
        (map (fun n =>
                match CounterfactualEngine.find_intervention
                        (CounterfactualEngine.init Samples.attendance_predictor) n with
                | Some iv => CounterfactualEngine.effort_cost iv
                | None => 0%Z
                end)
             ["Improve Attendance"; "Sleep More"; "Boost Internal Marks";
              "Improve Attendance"]%string) /\
    CounterfactualEngine.interventions_applied r
    = ["Improve Attendance"; "Sleep More"; "Boost Internal Marks";
       "Improve Attendance"]%string /\
    CounterfactualEngine.total_risk_reduction r
    == CounterfactualEngine.original_risk r - CounterfactualEngine.combined_risk r.
Proof.
  apply (simulate_combined_adds_up_efforts Samples.attendance_predictor
           Samples.attendance_model eq_refl eq_refl
           Samples.declining_student
           ["Improve Attendance"; "Sleep More"; "Boost Internal Marks";
            "Improve Attendance"]%string []).
Defined.

(** ** CounterfactualEngine: an untrained predictor *)

Section Untrained.
Import CounterfactualEngine.

Variable rp : RiskPredictor.t.
Hypothesis Huntrained : RiskPredictor.is_trained rp = false.

Lemma query_predict_untrained (features : list Q) (log : list (list Q)) :
  query_predict rp features log = (inl RiskPredictor.not_trained_error, log ++ [features]).
Proof. unfold query_predict. now rewrite predict_untrained. Qed.

(** X13: with an untrained predictor every entry point of the engine
    raises the not-trained [ValueError] at its first prediction:
    [simulate_interventions] on the first magnitude of the first
    intervention, [find_minimal_safe_path] and
    [simulate_combined_interventions] on the current vector. *)
Theorem engine_raises_when_untrained
    (data : FeatureEngineer.student_data) (log : list (list Q)) :
  (forall current_risk,
     simulate_interventions (init rp) data current_risk log
     = (inl RiskPredictor.not_trained_error,
        log ++ firstn 1 (probes (FeatureEngineer.extract_features data)
                                default_interventions))) /\
  (forall target_risk,
     find_minimal_safe_path (init rp) data target_risk log
     = (inl RiskPredictor.not_trained_error, log ++ [FeatureEngineer.extract_features data])) /\
  (forall names,
     simulate_combined_interventions (init rp) data names log
     = (inl RiskPredictor.not_trained_error, log ++ [FeatureEngineer.extract_features data])).
Proof.
  split; [|split].
  - intros current_risk. unfold simulate_interventions.
    set (features := FeatureEngineer.extract_features data).
    cbn [interventions init default_interventions simulate_each].
    unfold bind at 1. unfold bind at 1. unfold _simulate_intervention.
    cbn [delta_range simulate_deltas]. unfold bind at 1.
    cbn [risk_predictor]. now rewrite query_predict_untrained.
  - intros target_risk. unfold find_minimal_safe_path, bind.
    cbn [risk_predictor init]. now rewrite query_predict_untrained.
  - intros names. unfold simulate_combined_interventions, bind.
    cbn [risk_predictor init]. now rewrite query_predict_untrained.
Qed.

End Untrained.

Lemma engine_raises_when_untrained_witness :
  (forall current_risk,
     CounterfactualEngine.simulate_interventions
       (CounterfactualEngine.init Samples.untrained_predictor) Samples.new_student
       current_risk []
     = (inl RiskPredictor.not_trained_error,
        [] ++ firstn 1 (CounterfactualEngine.probes
                          (FeatureEngineer.extract_features Samples.new_student)
                          CounterfactualEngine.default_interventions))) /\
  (forall target_risk,
     CounterfactualEngine.find_minimal_safe_path
       (CounterfactualEngine.init Samples.untrained_predictor) Samples.new_student
       target_risk []
     = (inl RiskPredictor.not_trained_error,
        [] ++ [FeatureEngineer.extract_features Samples.new_student])) /\
  (forall names,
     CounterfactualEngine.simulate_combined_interventions
       (CounterfactualEngine.init Samples.untrained_predictor) Samples.new_student names []
     = (inl RiskPredictor.not_trained_error,
        [] ++ [FeatureEngineer.extract_features Samples.new_student])).
Proof.
  apply (engine_raises_when_untrained Samples.untrained_predictor eq_refl
           Samples.new_student []).
Defined.

(** ** CounterfactualEngine: one recommendation for an action *)

Section Recommendations.
Import CounterfactualEngine.

Lemma insert_desc_perm (x : InterventionResult) (l : list InterventionResult) :
  Permutation (insert_desc x l) (x :: l).
Proof.
  induction l as [|y l IH]; cbn; [reflexivity|].
  destruct (Qle_bool _ _); [|reflexivity].
  rewrite IH. apply perm_swap.
Qed.

Lemma sort_desc_from_perm (l acc : list InterventionResult) :
  Permutation (fold_left (fun sorted x => insert_desc x sorted) l acc) (acc ++ l).
Proof.
  revert acc. induction l as [|x l IH]; intros acc; cbn [fold_left].
  - now rewrite app_nil_r.
  - rewrite IH, insert_desc_perm. apply Permutation_middle.
Qed.

Lemma sort_desc_perm (l : list InterventionResult) : Permutation (sort_desc l) l.
Proof. apply (sort_desc_from_perm l []). Qed.

Lemma collected_actions (rp : RiskPredictor.t) (m : RiskPredictor.CalibratedClassifierCV)
    (features : list Q) (current_risk : Q)
    (ivs : list intervention) (bests : list (option InterventionResult)) :
  Forall2 (fun iv best => chosen rp m features iv current_risk (delta_range iv) best)
          ivs bests ->
  sublist (map action (omap id bests)) (map name ivs) /\
  Forall (fun r => exists iv, In iv ivs /\ action r = name iv /\
                              effort_level r = effort_cost iv)
         (omap id bests).
Proof.
  induction 1 as [|iv best ivs bests Hbest _ [IHs IHf]]; cbn; [split; constructor|].
  assert (IHf' : Forall (fun r => exists iv0, In iv0 (iv :: ivs) /\ action r = name iv0 /\
                                              effort_level r = effort_cost iv0)
                        (omap id bests)).
  { eapply List.Forall_impl; [|exact IHf]. cbn. intros r (iv0 & Hin & Hr).
    exists iv0. split; [now right|assumption]. }
  destruct best as [r|]; cbn.
  - destruct Hbest as (delta & a & _ & -> & _). cbn [action scenario]. split.
    + now apply sublist_skip.
    + constructor; [|exact IHf']. exists iv. split; [now left|]. now split.
  - split; [now apply sublist_cons|exact IHf'].
Qed.

(** X14: on a trained predictor [simulate_interventions] makes
    exactly 14 predictions, one for every magnitude of every default
    intervention, and recommends no action twice; every result names
    a default intervention and has effort 2 or 3. *)
Theorem simulate_interventions_probes_and_actions
    (rp : RiskPredictor.t) (m : RiskPredictor.CalibratedClassifierCV)
    (data : FeatureEngineer.student_data) (current_risk : Q) (log : list (list Q)) :
  RiskPredictor.is_trained rp = true ->
  RiskPredictor.calibrated_model rp = Some m ->
  exists results,
    simulate_interventions (init rp) data current_risk log
    = (inr results,
       log ++ probes (FeatureEngineer.extract_features data) default_interventions) /\
    length (probes (FeatureEngineer.extract_features data) default_interventions) = 14%nat /\
    NoDup (map action results) /\
    Forall (fun r => In (action r) (map name default_interventions) /\
                     (effort_level r = 2 \/ effort_level r = 3)%Z) results.
Proof.
  intros Ht Hm.
  destruct (simulate_interventions_run rp m data current_risk log Ht Hm)
    as (bests & Hrun & Hbests).
  eexists. split; [exact Hrun|]. split; [reflexivity|].
  destruct (collected_actions _ _ _ _ _ _ Hbests) as [Hsub Hall].
  split.
  - rewrite <- firstn_map.
    eapply sublist_NoDup; [|apply sublist_take].
    rewrite (sort_desc_perm (omap id bests)).
    eapply sublist_NoDup; [|exact Hsub].
    apply (bool_decide_unpack _). vm_compute. reflexivity.
  - rewrite List.Forall_forall in Hall |- *. intros r Hr.
    apply In_firstn in Hr. apply (Permutation_in _ (sort_desc_perm _)) in Hr.
    destruct (Hall r Hr) as (iv & Hin & Hact & Heff).
    rewrite Hact, Heff. split; [now apply in_map|].
    cbn in Hin.
    repeat match goal with
           | H : _ \/ _ |- _ => destruct H as [H|H]
           | H : False |- _ => destruct H
           end; subst iv; cbn; auto.
Qed.

End Recommendations.

Lemma simulate_interventions_probes_and_actions_witness :
  exists results,
    CounterfactualEngine.simulate_interventions
      (CounterfactualEngine.init Samples.attendance_predictor)
      Samples.declining_student 0.38 []
    = (inr results,
       [] ++ CounterfactualEngine.probes
               (FeatureEngineer.extract_features Samples.declining_student)
               CounterfactualEngine.default_interventions) /\
    length (CounterfactualEngine.probes
              (FeatureEngineer.extract_features Samples.declining_student)
              CounterfactualEngine.default_interventions) = 14%nat /\
    NoDup (map CounterfactualEngine.action results) /\
    Forall (fun r =>
              In (CounterfactualEngine.action r)
                 (map CounterfactualEngine.name CounterfactualEngine.default_interventions) /\
              (CounterfactualEngine.effort_level r = 2
               \/ CounterfactualEngine.effort_level r = 3)%Z) results.
Proof.
  apply (simulate_interventions_probes_and_actions Samples.attendance_predictor
           Samples.attendance_model Samples.declining_student 0.38 []); reflexivity.
Defined.

(** ** The cast to float32 respects equality of rationals *)

Lemma quotient_bracket (q N D A B E E' : Q) :
  0 < B -> 0 < E -> 0 < E' ->
  A <= N -> N < 2 * A -> B <= D -> D < 2 * B ->
  q * D == N -> E * B == A -> 2 * E' == E ->
  E' <= q /\ q < 2 * E.
Proof.
  intros HB HE HE' Ha1 Ha2 Hb1 Hb2 Hq Hsub Hdown. split.
  - apply Qnot_lt_le. intros Hlt.
    assert (N < E' * D) by nra.
    assert (E' * D < 2 * E' * B) by nra.
    assert (2 * E' * B == A) by (rewrite Hdown; exact Hsub). lra.
  - apply Qnot_le_lt. intros Hge.
    assert (2 * E * D <= N) by nra.
    assert (E * B <= E * D) by nra. lra.
Qed.

Lemma ilog2_spec (q : Q) :
  0 < q -> Qpower 2 (ilog2 q) <= q /\ q < Qpower 2 (ilog2 q + 1).
Proof.
  intros Hq. destruct q as [n d].
  assert (Hn : (0 < n)%Z) by (unfold Qlt in Hq; cbn in Hq; lia).
  unfold ilog2. cbn [Qnum Qden].
  set (a := Z.log2 n). set (b := Z.log2 (Z.pos d)).
  assert (Ha0 : (0 <= a)%Z) by apply Z.log2_nonneg.
  assert (Hb0 : (0 <= b)%Z) by apply Z.log2_nonneg.
  destruct (Z.log2_spec n Hn) as [Ha1 Ha2]. fold a in Ha1, Ha2.
  destruct (Z.log2_spec (Z.pos d) eq_refl) as [Hb1 Hb2]. fold b in Hb1, Hb2.
  rewrite Z.pow_succ_r in Ha2, Hb2 by assumption.
  rewrite Zle_Qle in Ha1, Hb1. rewrite Zlt_Qlt in Ha2, Hb2.
  rewrite inject_Z_mult in Ha2, Hb2.
  rewrite Zpower_Qpower in Ha1, Ha2, Hb1, Hb2 by assumption.
  change (inject_Z 2) with (2 : Q) in *.
  assert (H2 : ~ (2 : Q) == 0) by discriminate.
  assert (HA : 0 < Qpower 2 a) by now apply Qpower_0_lt.
  assert (HB : 0 < Qpower 2 b) by now apply Qpower_0_lt.
  assert (Hq' : (n # d) * inject_Z (Z.pos d) == inject_Z n).
  { rewrite (Qmake_Qdiv n d). field. discriminate. }
  assert (Hsub : Qpower 2 (a - b) * Qpower 2 b == Qpower 2 a).
  { rewrite <- Qpower_plus by assumption. now replace (a - b + b)%Z with a by lia. }
  assert (Hup : Qpower 2 (a - b + 1) == 2 * Qpower 2 (a - b)).
  { rewrite Qpower_plus by assumption. change (Qpower 2 1) with (2 : Q). ring. }
  assert (Hdown : 2 * Qpower 2 (a - b - 1) == Qpower 2 (a - b)).
  { replace (a - b)%Z with (a - b - 1 + 1)%Z at 2 by lia.
    rewrite Qpower_plus by assumption. change (Qpower 2 1) with (2 : Q). ring. }
  assert (HE : 0 < Qpower 2 (a - b)) by now apply Qpower_0_lt.
  assert (HE' : 0 < Qpower 2 (a - b - 1)) by now apply Qpower_0_lt.
  destruct (quotient_bracket (n # d) (inject_Z n) (inject_Z (Z.pos d))
              (Qpower 2 a) (Qpower 2 b) (Qpower 2 (a - b)) (Qpower 2 (a - b - 1)))
    as [Hgt Hlt]; try assumption.
  set (E := Qpower 2 (a - b)) in *. set (q := n # d) in *.
  destruct (Qle_bool E q) eqn:Etest.
  - apply Qle_bool_iff in Etest. split; [assumption|].
    fold E. rewrite Hup. exact Hlt.
  - apply Qle_bool_false in Etest. split; [assumption|].
    replace (a - b - 1 + 1)%Z with (a - b)%Z by lia. exact Etest.
Qed.

Lemma ilog2_comp (x y : Q) : 0 < x -> x == y -> ilog2 x = ilog2 y.
Proof.
  intros Hx Hxy. assert (Hy : 0 < y) by now rewrite <- Hxy.
  destruct (ilog2_spec x Hx) as [Hx1 Hx2], (ilog2_spec y Hy) as [Hy1 Hy2].
  assert (H1 : Qpower 2 (ilog2 x) < Qpower 2 (ilog2 y + 1)).
  { eapply Qle_lt_trans; [exact Hx1|]. now rewrite Hxy. }
  assert (H2 : Qpower 2 (ilog2 y) < Qpower 2 (ilog2 x + 1)).
  { eapply Qle_lt_trans; [exact Hy1|]. now rewrite <- Hxy. }
  apply Qpower_lt_compat_l_inv in H1, H2; [lia|reflexivity..].
Qed.

Lemma float32_comp (x y : Q) : x == y -> float32 x = float32 y.
Proof.
  intros Hxy. unfold float32.
  destruct (Qeq_bool x 0) eqn:Ex.
  - apply Qeq_bool_iff in Ex.
    assert (Ey : Qeq_bool y 0 = true) by (apply Qeq_bool_iff; now rewrite <- Hxy).
    now rewrite Ey.
  - assert (Ey : Qeq_bool y 0 = false).
    { destruct (Qeq_bool y 0) eqn:E; [|reflexivity].
      apply Qeq_bool_iff in E. apply Qeq_bool_neq in Ex.
      exfalso. apply Ex. now rewrite Hxy. }
    rewrite Ey. apply Qeq_bool_neq in Ex.
    assert (Habs : 0 < Qabs x).
    { pose proof (Qabs_nonneg x) as Hn. apply Qle_lteq in Hn as [Hn|Hn]; [assumption|].
      exfalso. apply Ex. revert Hn. apply Qabs_case; intros; lra. }
    rewrite (ilog2_comp (Qabs x) (Qabs y) Habs (Qabs_wd x y Hxy)).
    set (ulp := Qpower 2 (Z.max (ilog2 (Qabs y)) (-126) - 23)).
    rewrite (round_half_even_comp (x / ulp) (y / ulp)); [reflexivity|].
    now rewrite Hxy.
Qed.

(** ** FeatureEngineer: the slots that are bounded *)

Section Engagement.
Import FeatureEngineer.

Lemma engagement_slots_extract (data : student_data) :
  engagement_slots (extract_features data)
  = map float32 (_extract_engagement_features (default [] (attendance_history data))
                                             (default [] (marks_history data))).
Proof.
  unfold engagement_slots, extract_features. cbv zeta.
  rewrite map_app. apply drop_app_length'.
  rewrite length_map, !length_app.
  rewrite attendance_features_length, marks_features_length, load_features_length.
  reflexivity.
Qed.

(** X15: the last two slots of every feature vector: the data
    completeness lies between 0 and 1 and is 1 from ten attendance
    observations on; the engagement score is 0.5 when there are fewer
    than three attendance observations or no marks history. *)
Theorem engagement_slots_bounds (data : student_data) :
  exists engagement_score data_completeness : Q,
    engagement_slots (extract_features data) = [engagement_score; data_completeness] /\
    0 <= data_completeness /\ data_completeness <= 1 /\
    ((10 <= length (default [] (attendance_history data)))%nat -> data_completeness == 1) /\
    ((length (default [] (attendance_history data)) < 3)%nat
     \/ default [] (marks_history data) = [] -> engagement_score == 0.5).
Proof.
  rewrite engagement_slots_extract. unfold _extract_engagement_features. cbv zeta.
  set (attendance := default [] (attendance_history data)).
  set (marks := default [] (marks_history data)).
  cbn [map]. do 2 eexists. split; [reflexivity|].
  assert (Hlen : 0 <= py_len attendance / 10).
  { unfold py_len. apply Qle_shift_div_l; [reflexivity|]. rewrite Qmult_0_l.
    change 0 with (inject_Z 0). rewrite <- Zle_Qle. lia. }
  split; [|split; [|split]].
  - apply float32_unit; [apply Q.min_glb; [assumption|discriminate]|apply Q.le_min_r].
  - apply float32_unit; [apply Q.min_glb; [assumption|discriminate]|apply Q.le_min_r].
  - intros Hten.
    rewrite (float32_comp _ 1); [reflexivity|].
    apply Q.min_r. unfold py_len. apply Qle_shift_div_l; [reflexivity|].
    change (1 * 10) with (inject_Z 10). rewrite <- Zle_Qle. lia.
  - intros Hfew.
    assert (Htest : (3 <=? length attendance)%nat && negb (bool_decide (marks = [])) = false).
    { destruct Hfew as [Hfew|Hfew].
      - apply Nat.leb_gt in Hfew. now rewrite Hfew.
      - rewrite (bool_decide_eq_true_2 _ Hfew). apply andb_false_r. }
    rewrite Htest. reflexivity.
Qed.

Lemma count_declines_lt (attendance : list Q) :
  attendance <> [] -> (count_declines attendance < length attendance)%nat.
Proof.
  induction attendance as [|a [|b t] IH]; [congruence|cbn; lia|].
  intros _. specialize (IH ltac:(discriminate)).
  cbn [count_declines length] in *. destruct (Qlt_bool b a); lia.
Qed.

(** X16: with at least two attendance observations the decline
    ratio (the share of weeks whose attendance fell) is at least 0
    and below 1, and its float32 slot lies between 0 and 1. *)
Theorem decline_ratio_below_one (attendance : list Q) :
  (2 <= length attendance)%nat ->
  0 <= nth 4 (_extract_attendance_features attendance) 0 /\
  nth 4 (_extract_attendance_features attendance) 0 < 1 /\
  0 <= nth 4 (map float32 (_extract_attendance_features attendance)) 0 /\
  nth 4 (map float32 (_extract_attendance_features attendance)) 0 <= 1.
Proof.
  intros Hlen. unfold _extract_attendance_features.
  assert (E : (length attendance <? 2)%nat = false) by (apply Nat.ltb_ge; lia).
  rewrite E. cbn [nth map].
  assert (Hne : attendance <> []) by (destruct attendance; [cbn in Hlen; lia|discriminate]).
  pose proof (count_declines_lt attendance Hne) as Hlt.
  assert (Hpos : 0 < py_len attendance).
  { unfold py_len. change 0 with (inject_Z 0). rewrite <- Zlt_Qlt. lia. }
  assert (H0 : 0 <= inject_Z (Z.of_nat (count_declines attendance)) / py_len attendance).
  { apply Qle_shift_div_l; [assumption|]. rewrite Qmult_0_l.
    change 0 with (inject_Z 0). rewrite <- Zle_Qle. lia. }
  assert (H1 : inject_Z (Z.of_nat (count_declines attendance)) / py_len attendance < 1).
  { apply Qlt_shift_div_r; [assumption|]. rewrite Qmult_1_l.
    unfold py_len. rewrite <- Zlt_Qlt. lia. }
  split; [assumption|]. split; [assumption|].
  apply float32_unit; [assumption|now apply Qlt_le_weak].
Qed.

End Engagement.

Lemma decline_ratio_below_one_witness :
  0 <= nth 4 (FeatureEngineer._extract_attendance_features [75; 72; 68; 65; 62]) 0 /\
  nth 4 (FeatureEngineer._extract_attendance_features [75; 72; 68; 65; 62]) 0 < 1 /\
  0 <= nth 4 (map float32 (FeatureEngineer._extract_attendance_features [75; 72; 68; 65; 62])) 0 /\
  nth 4 (map float32 (FeatureEngineer._extract_attendance_features [75; 72; 68; 65; 62])) 0
  <= 1.
Proof.
  apply (decline_ratio_below_one [75; 72; 68; 65; 62]). cbn. lia.
Defined.

(** ** Lengths *)

Lemma py_len_pos {A} (l : list A) : l <> [] -> 0 < py_len l.
Proof.
  intros Hne. unfold py_len. change 0 with (inject_Z 0). rewrite <- Zlt_Qlt.
  destruct l; [congruence|cbn; lia].
Qed.

(** ** FeatureEngineer: the names of the subjects *)

Section Names.
Import FeatureEngineer.

Lemma marks_step_marks (acc : marks_acc) (sd sd' : subject_data) :
  marks sd = marks sd' -> marks_step acc sd = marks_step acc sd'.
Proof. intros H. unfold marks_step. now rewrite H. Qed.

Lemma marks_fold_marks (h h' : list subject_data) :
  map marks h = map marks h' ->
  forall acc, fold_left marks_step h acc = fold_left marks_step h' acc.
Proof.
  revert h'. induction h as [|sd h IH]; intros [|sd' h'] Hmap acc;
    try discriminate; [reflexivity|].
  cbn [map] in Hmap. injection Hmap as Hsd Hh.
  cbn [fold_left]. rewrite (marks_step_marks acc sd sd' Hsd). now apply IH.
Qed.

Lemma marks_features_marks (h h' : list subject_data) :
  map marks h = map marks h' -> _extract_marks_features h = _extract_marks_features h'.
Proof.
  intros Hmap. unfold _extract_marks_features.
  assert (Hlen : py_len h = py_len h').
  { unfold py_len. apply (f_equal (@length _)) in Hmap. rewrite !length_map in Hmap.
    now rewrite Hmap. }
  destruct h as [|sd h], h' as [|sd' h']; try discriminate; [reflexivity|].
  now rewrite (marks_fold_marks _ _ Hmap), Hlen.
Qed.

Lemma recent_marks_of_marks (h h' : list subject_data) :
  map marks h = map marks h' -> recent_marks_of h = recent_marks_of h'.
Proof.
  revert h'. induction h as [|sd h IH]; intros [|sd' h'] Hmap;
    try discriminate; [reflexivity|].
  cbn [map] in Hmap. injection Hmap as Hsd Hh.
  cbn [recent_marks_of]. rewrite Hsd, (IH h' Hh). reflexivity.
Qed.

Lemma engagement_features_marks (attendance : list Q) (h h' : list subject_data) :
  map marks h = map marks h' ->
  _extract_engagement_features attendance h = _extract_engagement_features attendance h'.
Proof.
  intros Hmap. unfold _extract_engagement_features.
  rewrite (recent_marks_of_marks _ _ Hmap).
  assert (E : bool_decide (h = []) = bool_decide (h' = [])).
  { destruct h, h'; try discriminate; reflexivity. }
  now rewrite E.
Qed.

(** X19: the feature vector does not depend on the names of the
    subjects of the marks history, and on the current subjects only
    through their number and their difficulties: two records that
    agree on the rest and on those have the same vector. *)
Theorem extract_features_ignores_subject_names (data data' : student_data) :
  attendance_history data = attendance_history data' ->
  map marks (default [] (marks_history data))
  = map marks (default [] (marks_history data')) ->
  length (default [] (current_subjects data)) = length (default [] (current_subjects data')) ->
  map (fun subj => difficulty_map !! subj) (default [] (current_subjects data))
  = map (fun subj => difficulty_map !! subj) (default [] (current_subjects data')) ->
  default 1%Z (semester data) = default 1%Z (semester data') ->
  default 0%Z (previous_failures data) = default 0%Z (previous_failures data') ->
  extract_features data = extract_features data'.
Proof.
  intros Ha Hm Hn Hd Hs Hp. unfold extract_features. cbv zeta.
  rewrite Ha, Hs, Hp.
  rewrite (marks_features_marks _ _ Hm), (engagement_features_marks _ _ _ Hm).
  do 4 f_equal. unfold _extract_load_features.
  assert (Hlen : py_len (default [] (current_subjects data))
                 = py_len (default [] (current_subjects data')))
    by (unfold py_len; now rewrite Hn).
  rewrite Hlen.
  assert (Hmean : map (fun subj => default 0.70 (difficulty_map !! subj))
                      (default [] (current_subjects data))
                  = map (fun subj => default 0.70 (difficulty_map !! subj))
                        (default [] (current_subjects data'))).
  { rewrite <- !(map_map (fun subj => difficulty_map !! subj) (default 0.70)).
    now rewrite Hd. }
  destruct (default [] (current_subjects data)), (default [] (current_subjects data'));
    try discriminate; [reflexivity|].
  now rewrite Hmean.
Qed.

End Names.

Lemma extract_features_ignores_subject_names_witness :
  FeatureEngineer.extract_features Samples.declining_student
  = FeatureEngineer.extract_features
      {| FeatureEngineer.attendance_history := Some [75; 72; 68; 65; 62];
         FeatureEngineer.marks_history :=
           Some [ {| FeatureEngineer.subject := "Algebra";
                     FeatureEngineer.marks := Some [15; 17; 14] |};
                  {| FeatureEngineer.subject := "Mechanics";
                     FeatureEngineer.marks := Some [18; 16; 15] |} ];
         FeatureEngineer.current_subjects := Some ["Math"; "Physics"; "Chemistry"]%string;
         FeatureEngineer.semester := Some 3%Z;
         FeatureEngineer.previous_failures := Some 1%Z |}.
Proof.
  apply (extract_features_ignores_subject_names Samples.declining_student); reflexivity.
Defined.

(** ** TrainingPipeline: the labels of the synthetic students *)

Section Labels.
Import TrainingPipeline.

Lemma Qlt_bool_true_intro (x y : Q) : x < y -> Qlt_bool x y = true.
Proof.
  intros H. unfold Qlt_bool. apply negb_true_iff.
  destruct (Qle_bool y x) eqn:E; [|reflexivity].
  apply Qle_bool_iff in E. lra.
Qed.

(** X20: a synthetic student whose recent attendance is at least
    75, whose attendance fell by at most 8 points and whose average
    mark is at least 13 is labelled 0 (pass) whatever the previous
    failures and the two random draws (noise at most 0.1, threshold
    at least 0.45): the failures weigh at most 0.30. *)
Theorem determine_label_of_a_steady_student
    (student_data : student_profile) (noise failure_threshold : Q) :
  attendance_history student_data <> [] ->
  75 <= np_mean (last_n 3 (attendance_history student_data)) ->
  -8 <= item_last (attendance_history student_data)
        - item_first (attendance_history student_data) ->
  concat (map snd (marks_history student_data)) <> [] ->
  13 <= np_mean (concat (map snd (marks_history student_data))) ->
  noise <= 0.1 -> 0.45 <= failure_threshold ->
  _determine_label student_data noise failure_threshold = inr 0%Z.
Proof.
  intros Hne Hrecent Htrend Hmarks Havg Hnoise Hthr. unfold _determine_label.
  destruct (attendance_history student_data) as [|x attendance] eqn:Ea; [congruence|].
  cbv zeta.
  destruct (concat (map snd (marks_history student_data))) as [|mk all_marks] eqn:Em;
    [congruence|].
  rewrite (Qlt_bool_false_intro _ 60) by lra.
  rewrite (Qlt_bool_false_intro _ 75) by lra.
  rewrite (Qlt_bool_false_intro _ (-15)) by lra.
  rewrite (Qlt_bool_false_intro _ (-8)) by lra.
  rewrite (Qlt_bool_false_intro _ 10) by lra.
  rewrite (Qlt_bool_false_intro _ 13) by lra.
  rewrite Qlt_bool_false_intro; [reflexivity|].
  pose proof (Q.le_min_r (inject_Z (previous_failures student_data) * 0.10) 0.30).
  lra.
Qed.

(** X21: a synthetic student whose recent attendance is below 60,
    whose average mark is below 10 and who has failed before is
    labelled 1 (fail) whatever the two random draws (noise at least
    -0.1, threshold at most 0.55). *)
Theorem determine_label_of_a_struggling_student
    (student_data : student_profile) (noise failure_threshold : Q) :
  attendance_history student_data <> [] ->
  np_mean (last_n 3 (attendance_history student_data)) < 60 ->
  concat (map snd (marks_history student_data)) <> [] ->
  np_mean (concat (map snd (marks_history student_data))) < 10 ->
  (1 <= previous_failures student_data)%Z ->
  -0.1 <= noise -> failure_threshold <= 0.55 ->
  _determine_label student_data noise failure_threshold = inr 1%Z.
Proof.
  intros Hne Hrecent Hmarks Havg Hprev Hnoise Hthr. unfold _determine_label.
  destruct (attendance_history student_data) as [|x attendance] eqn:Ea; [congruence|].
  cbv zeta.
  destruct (concat (map snd (marks_history student_data))) as [|mk all_marks] eqn:Em;
    [congruence|].
  rewrite (Qlt_bool_true_intro _ 60) by lra.
  rewrite (Qlt_bool_true_intro _ 10) by lra.
  assert (Hmin : 0.10 <= Qmin (inject_Z (previous_failures student_data) * 0.10) 0.30).
  { apply Q.min_glb; [|discriminate].
    assert (1 <= inject_Z (previous_failures student_data)).
    { change 1 with (inject_Z 1). now rewrite <- Zle_Qle. }
    lra. }
  set (risk := Qmin (inject_Z (previous_failures student_data) * 0.10) 0.30) in *.
  destruct (Qlt_bool _ (-15)); [|destruct (Qlt_bool _ (-8))];
    (rewrite Qlt_bool_true_intro; [reflexivity|lra]).
Qed.

End Labels.

Lemma determine_label_of_a_steady_student_witness :
  TrainingPipeline._determine_label
    {| TrainingPipeline.student_id := "STU0001";
       TrainingPipeline.archetype := "stable";
       TrainingPipeline.attendance_history := [82; 84; 81; 83];
       TrainingPipeline.marks_history := [("Subject_0", [14; 15; 16])]%string;
       TrainingPipeline.current_subjects := ["Math"]%string;
       TrainingPipeline.semester := 3;
       TrainingPipeline.previous_failures := 4 |} 0.1 0.45
  = inr 0%Z.
Proof.
  apply determine_label_of_a_steady_student; vm_compute; congruence.
Defined.

Lemma determine_label_of_a_struggling_student_witness :
  TrainingPipeline._determine_label
    {| TrainingPipeline.student_id := "STU0002";
       TrainingPipeline.archetype := "struggling";
       TrainingPipeline.attendance_history := [62; 58; 55; 51];
       TrainingPipeline.marks_history := [("Subject_0", [9; 8; 10])]%string;
       TrainingPipeline.current_subjects := ["Math"]%string;
       TrainingPipeline.semester := 3;
       TrainingPipeline.previous_failures := 1 |} (-0.1) 0.55
  = inr 1%Z.
Proof.
  apply determine_label_of_a_struggling_student; vm_compute; congruence.
Defined.

(** ** KnowledgeGraph: prerequisites *)

Section Prerequisites.
Import KnowledgeGraph.

Lemma assoc_update {A} (f : A -> A) (k : string) (l : list (string * A)) (n : string) :
  assoc n (map (fun entry => if bool_decide (fst entry = k)
                             then (fst entry, f (snd entry)) else entry) l)
  = if bool_decide (n = k) then option_map f (assoc n l) else assoc n l.
Proof.
  induction l as [|[k' a] l IH]; cbn [map assoc fst snd].
  - now case_bool_decide.
  - destruct (bool_decide (k' = k)) eqn:Ek; cbn [assoc].
    + apply bool_decide_eq_true_1 in Ek. subst k'.
      destruct (bool_decide (n = k)) eqn:En; [reflexivity|exact IH].
    + apply bool_decide_eq_false_1 in Ek.
      destruct (bool_decide (n = k')) eqn:En.
      * apply bool_decide_eq_true_1 in En. subst k'.
        now rewrite bool_decide_eq_false_2 by congruence.
      * exact IH.
Qed.

Lemma keys_update {A} (f : A -> A) (k : string) (l : list (string * A)) :
  map fst (map (fun entry => if bool_decide (fst entry = k)
                             then (fst entry, f (snd entry)) else entry) l)
  = map fst l.
Proof. rewrite map_map. apply map_ext. intros e. now case_bool_decide. Qed.

(** A key that is looked up and added when missing. *)
Lemma assoc_ensure {A} (a : A) (k : string) (l : list (string * A)) (n : string) :
  assoc n (match assoc k l with Some _ => l | None => l ++ [(k, a)] end)
  = match assoc n l with
    | Some x => Some x
    | None => if bool_decide (n = k) then Some a else None
    end.
Proof.
  destruct (assoc k l) as [x|] eqn:Ek.
  - destruct (assoc n l) eqn:En; [reflexivity|].
    case_bool_decide; [congruence|reflexivity].
  - rewrite assoc_app. destruct (assoc n l); [reflexivity|]. reflexivity.
Qed.

Lemma keys_ensure {A} (a : A) (k : string) (l : list (string * A)) :
  NoDup (map fst l) ->
  NoDup (map fst (match assoc k l with Some _ => l | None => l ++ [(k, a)] end)).
Proof.
  intros Hl. destruct (assoc k l) eqn:Ek; [assumption|].
  rewrite map_app. apply NoDup_snoc; [assumption|].
  intros Hin. apply (assoc_Some_In_keys k l) in Hin. rewrite Ek in Hin. now destruct Hin.
Qed.

Lemma add_once_In (u x : string) (preds : list string) :
  In x (Indexed.add_once u preds) <-> x = u \/ In x preds.
Proof.
  induction preds as [|u' t IH]; cbn.
  - intuition congruence.
  - case_bool_decide as E; cbn.
    + subst u'. intuition congruence.
    + rewrite IH. tauto.
Qed.

Lemma add_once_NoDup (u : string) (preds : list string) :
  NoDup preds -> NoDup (Indexed.add_once u preds).
Proof.
  induction 1 as [|u' t Hu' Ht IH]; cbn.
  - apply NoDup_singleton.
  - case_bool_decide as E; [now constructor|].
    constructor; [|assumption].
    intros Hin. apply list_elem_of_In, add_once_In in Hin.
    destruct Hin as [->|Hin]; [congruence|]. apply Hu'. now apply list_elem_of_In.
Qed.

Lemma predecessors_add_node (G : Indexed.t) (m n : string) :
  Indexed.predecessors (Indexed.add_node G m) n = Indexed.predecessors G n.
Proof.
  unfold Indexed.predecessors, Indexed.add_node. cbn [Indexed._pred].
  rewrite assoc_ensure. destruct (assoc n (Indexed._pred G)); [reflexivity|].
  now case_bool_decide.
Qed.

Lemma predecessors_add_edge (G : Indexed.t) (u v : string) (s : Q) (c : string) :
  Indexed.predecessors (Indexed.add_edge G u v s) c
  = if bool_decide (c = v) then Indexed.add_once u (Indexed.predecessors G v)
    else Indexed.predecessors G c.
Proof.
  unfold Indexed.add_edge. cbv zeta. unfold Indexed.predecessors at 1.
  cbn [Indexed._pred]. rewrite assoc_update.
  set (G' := Indexed.add_node (Indexed.add_node G u) v).
  assert (Hsame : forall n, Indexed.predecessors G' n = Indexed.predecessors G n).
  { intros n. unfold G'. now rewrite !predecessors_add_node. }
  case_bool_decide as E.
  - subst c. rewrite <- Hsame. unfold Indexed.predecessors.
    assert (Hv : is_Some (assoc v (Indexed._pred G'))).
    { unfold G'. unfold Indexed.add_node at 1. cbn [Indexed._pred].
      rewrite assoc_ensure. destruct (assoc v _); [now eexists|].
      rewrite bool_decide_eq_true_2 by reflexivity. now eexists. }
    destruct Hv as [l ->]. reflexivity.
  - apply Hsame.
Qed.

Lemma consistent_empty : Indexed.consistent {| Indexed._succ := []; Indexed._pred := [] |}.
Proof.
  split; [apply well_formed_nil|]. intros v. split; [constructor|].
  intros u. cbn. split; [tauto|intros [? [=]]].
Qed.

Lemma consistent_add_node (G : Indexed.t) (n : string) :
  Indexed.consistent G -> Indexed.consistent (Indexed.add_node G n).
Proof.
  intros [Hwf Hagree]. split.
  - now apply add_node_well_formed.
  - intros v. rewrite predecessors_add_node. cbn [Indexed._succ Indexed.add_node].
    destruct (Hagree v) as [Hnd Hiff]. split; [assumption|].
    intros u. rewrite successors_add_node. apply Hiff.
Qed.

Lemma consistent_add_edge (G : Indexed.t) (u v : string) (s : Q) :
  Indexed.consistent G -> Indexed.consistent (Indexed.add_edge G u v s).
Proof.
  intros [Hwf Hagree]. split.
  - now apply add_edge_well_formed.
  - intros v'. rewrite predecessors_add_edge.
    change (Indexed._succ (Indexed.add_edge G u v s))
      with (add_edge (Indexed._succ G) u v s).
    split.
    + case_bool_decide; [apply add_once_NoDup|]; apply Hagree.
    + intros u'. rewrite successors_add_edge.
      destruct (Hagree v') as [_ Hiff]. destruct (Hagree v) as [_ Hiffv].
      case_bool_decide as Ev.
      * subst v'. rewrite add_once_In, (Hiffv u').
        case_bool_decide as Eu.
        -- subst u'. rewrite assoc_set_strength, bool_decide_eq_true_2 by reflexivity.
           split; [intros _; now eexists|intros _; now left].
        -- split; [intros [?|?]; [congruence|assumption]|intros ?; now right].
      * rewrite (Hiff u'). case_bool_decide as Eu; [|reflexivity].
        subst u'. rewrite assoc_set_strength.
        now rewrite bool_decide_eq_false_2 by assumption.
Qed.

Lemma consistent_initialize (G : Indexed.t) :
  Indexed.consistent G -> Indexed.consistent (Indexed._initialize_default_graph G).
Proof.
  unfold Indexed._initialize_default_graph. generalize default_dependencies as l.
  intros l. revert G. induction l as [|[[prereq course] strength] l IH]; intros G HG;
    cbn [fold_left]; [assumption|].
  apply IH.
  pose proof (consistent_add_edge G prereq course strength HG) as H1.
  destruct (has_node _ prereq); destruct (has_node _ course);
    auto using consistent_add_node.
Qed.

Lemma built_consistent (G : Indexed.t) : Indexed.built G -> Indexed.consistent G.
Proof.
  induction 1 as [|G u v s _ IH].
  - apply consistent_initialize, consistent_empty.
  - now apply consistent_add_edge.
Qed.

(** The adjacency list of a graph with its predecessors is the plain graph. *)
Lemma indexed_initialize_succ (G : Indexed.t) :
  Indexed._succ (Indexed._initialize_default_graph G)
  = _initialize_default_graph (Indexed._succ G).
Proof.
  unfold Indexed._initialize_default_graph, _initialize_default_graph.
  generalize default_dependencies as l.
  intros l. revert G. induction l as [|[[prereq course] strength] l IH]; intros G;
    cbn [fold_left]; [reflexivity|].
  rewrite IH. f_equal.
  change (Indexed._succ (Indexed.add_edge G prereq course strength))
    with (add_edge (Indexed._succ G) prereq course strength).
  destruct (has_node (add_edge (Indexed._succ G) prereq course strength) prereq); cbn;
    destruct (has_node _ course); reflexivity.
Qed.

Lemma built_succ (G : Indexed.t) : Indexed.built G -> built (Indexed._succ G).
Proof.
  induction 1 as [|G u v s _ IH].
  - unfold Indexed.init. rewrite indexed_initialize_succ. constructor.
  - now constructor.
Qed.

Lemma get_dependent_courses_In (g : DiGraph) (course d : string) (s : Q) :
  In (d, s) (get_dependent_courses g course) <-> assoc d (successors g course) = Some s.
Proof.
  unfold get_dependent_courses.
  destruct (has_node g course) eqn:Hnode; cbn [negb].
  - split.
    + intros Hin. apply (Permutation_in _ (sorted_desc_perm snd _)) in Hin.
      apply in_map_iff in Hin. destruct Hin as (d' & [= <- <-] & Hd).
      apply assoc_Some_In_keys in Hd. destruct Hd as [s Hs]. now rewrite Hs.
    + intros Hs.
      apply (Permutation_in _ (Permutation_sym (sorted_desc_perm snd _))).
      apply in_map_iff. exists d. split; [now rewrite Hs|].
      apply assoc_Some_In_keys. now exists s.
  - assert (Hsucc : successors g course = []).
    { unfold successors, has_node in *. now destruct (assoc course g). }
    rewrite Hsucc. cbn. split; [tauto|discriminate].
Qed.

Lemma get_prerequisites_In (G : Indexed.t) (course p : string) (s : Q) :
  Indexed.consistent G ->
  In (p, s) (Indexed.get_prerequisites G course)
  <-> assoc course (successors (Indexed._succ G) p) = Some s.
Proof.
  intros [Hwf Hagree]. destruct (Hagree course) as [_ Hiff].
  unfold Indexed.get_prerequisites.
  destruct (has_node (Indexed._succ G) course) eqn:Hnode; cbn [negb].
  - split.
    + intros Hin. apply (Permutation_in _ (sorted_desc_perm snd _)) in Hin.
      apply in_map_iff in Hin. destruct Hin as (p' & [= <- <-] & Hp).
      apply Hiff in Hp. destruct Hp as [s Hs]. now rewrite Hs.
    + intros Hs.
      apply (Permutation_in _ (Permutation_sym (sorted_desc_perm snd _))).
      apply in_map_iff. exists p. split; [now rewrite Hs|].
      apply Hiff. now exists s.
  - split; [intros []|]. intros Hs. exfalso.
    destruct (well_formed_successors _ p Hwf) as [_ Hall].
    rewrite List.Forall_forall in Hall. apply assoc_In in Hs.
    specialize (Hall _ Hs). cbn in Hall. congruence.
Qed.

Lemma get_prerequisites_names (G : Indexed.t) (course : string) :
  Indexed.consistent G -> NoDup (map fst (Indexed.get_prerequisites G course)).
Proof.
  intros [_ Hagree]. destruct (Hagree course) as [Hnd _].
  unfold Indexed.get_prerequisites.
  destruct (has_node (Indexed._succ G) course); cbn [negb]; [|constructor].
  rewrite (Permutation_map fst (sorted_desc_perm snd _)).
  rewrite map_map. cbn. now rewrite map_id.
Qed.

(** X22: in a graph an object can hold, [p] is listed among the
    prerequisites of [c] with strength [s] exactly when [c] is listed
    among the dependent courses of [p] with strength [s]; the
    prerequisites are listed once each, the strongest first, and none
    for a course the graph does not know. *)
Theorem get_prerequisites_mirrors_dependents (G : Indexed.t) (course : string) :
  Indexed.built G ->
  (forall p s, In (p, s) (Indexed.get_prerequisites G course)
               <-> In (course, s) (get_dependent_courses (Indexed._succ G) p)) /\
  NoDup (map fst (Indexed.get_prerequisites G course)) /\
  StronglySorted (fun a b => snd b <= snd a) (Indexed.get_prerequisites G course) /\
  (has_node (Indexed._succ G) course = false -> Indexed.get_prerequisites G course = []).
Proof.
  intros Hb. pose proof (built_consistent G Hb) as HG.
  split; [|split; [|split]].
  - intros p s. now rewrite get_prerequisites_In, get_dependent_courses_In.
  - now apply get_prerequisites_names.
  - unfold Indexed.get_prerequisites.
    destruct (has_node _ course); cbn [negb]; [apply sorted_desc_sorted'|constructor].
  - intros Hnode. unfold Indexed.get_prerequisites. now rewrite Hnode.
Qed.

End Prerequisites.

Lemma get_prerequisites_mirrors_dependents_witness :
  (forall p s,
     In (p, s) (KnowledgeGraph.Indexed.get_prerequisites
                  KnowledgeGraph.Indexed.init "Machine Learning")
     <-> In ("Machine Learning"%string, s)
            (KnowledgeGraph.get_dependent_courses
               (KnowledgeGraph.Indexed._succ KnowledgeGraph.Indexed.init) p)) /\
  NoDup (map fst (KnowledgeGraph.Indexed.get_prerequisites
                    KnowledgeGraph.Indexed.init "Machine Learning")) /\
  StronglySorted (fun a b => snd b <= snd a)
    (KnowledgeGraph.Indexed.get_prerequisites KnowledgeGraph.Indexed.init "Machine Learning") /\
  (KnowledgeGraph.has_node (KnowledgeGraph.Indexed._succ KnowledgeGraph.Indexed.init)
     "Machine Learning" = false ->
   KnowledgeGraph.Indexed.get_prerequisites KnowledgeGraph.Indexed.init "Machine Learning"
   = []).
Proof.
  apply (get_prerequisites_mirrors_dependents KnowledgeGraph.Indexed.init "Machine Learning").
  constructor.
Defined.

(** ** KnowledgeGraph: critical prerequisites *)

Section Critical.
Import KnowledgeGraph.

Lemma count_prerequisite_assoc (course : string) (counts : list (string * list string))
    (p k : string) :
  assoc k (Indexed.count_prerequisite course counts p)
  = if bool_decide (k = p) then Some (default [] (assoc p counts) ++ [course])
    else assoc k counts.
Proof.
  unfold Indexed.count_prerequisite. cbv zeta.
  rewrite (assoc_update (fun deps => deps ++ [course])), assoc_ensure.
  destruct (decide (k = p)) as [->|Hne].
  - rewrite !bool_decide_eq_true_2 by reflexivity. now destruct (assoc p counts).
  - rewrite !bool_decide_eq_false_2 by assumption. now destruct (assoc k counts).
Qed.

Lemma count_prerequisite_keys (course : string) (counts : list (string * list string))
    (p : string) :
  NoDup (map fst counts) -> NoDup (map fst (Indexed.count_prerequisite course counts p)).
Proof.
  intros H. unfold Indexed.count_prerequisite. cbv zeta.
  rewrite (keys_update (fun deps => deps ++ [course])). now apply keys_ensure.
Qed.

(** The counts after the prerequisites [ps] of [course], none of them twice. *)
Lemma count_fold_assoc (course : string) (ps : list string) :
  NoDup ps ->
  forall (counts : list (string * list string)) (k : string),
    assoc k (fold_left (Indexed.count_prerequisite course) ps counts)
    = if bool_decide (k ∈ ps) then Some (default [] (assoc k counts) ++ [course])
      else assoc k counts.
Proof.
  induction 1 as [|p ps Hp Hps IH]; intros counts k; cbn [fold_left].
  - now rewrite bool_decide_eq_false_2 by apply not_elem_of_nil.
  - rewrite IH, count_prerequisite_assoc.
    destruct (decide (k = p)) as [->|Hne].
    + rewrite (bool_decide_eq_false_2 (p ∈ ps)) by assumption.
      rewrite bool_decide_eq_true_2 by reflexivity.
      now rewrite (bool_decide_eq_true_2 (p ∈ p :: ps)) by apply list_elem_of_here.
    + rewrite (bool_decide_eq_false_2 (k = p)) by assumption.
      destruct (bool_decide (k ∈ ps)) eqn:E.
      * apply bool_decide_eq_true_1 in E.
        now rewrite (bool_decide_eq_true_2 (k ∈ p :: ps)) by now apply list_elem_of_further.
      * apply bool_decide_eq_false_1 in E.
        rewrite (bool_decide_eq_false_2 (k ∈ p :: ps)); [reflexivity|].
        intros [?|?]%elem_of_cons; [congruence|contradiction].
Qed.

Lemma count_fold_keys (course : string) (ps : list string)
    (counts : list (string * list string)) :
  NoDup (map fst counts) ->
  NoDup (map fst (fold_left (Indexed.count_prerequisite course) ps counts)).
Proof.
  revert counts. induction ps as [|p ps IH]; intros counts H; cbn [fold_left]; [assumption|].
  apply IH. now apply count_prerequisite_keys.
Qed.

Section Counts.
Variable G : Indexed.t.
Hypothesis HG : Indexed.consistent G.

Lemma counted_step (seen : list string) (counts : list (string * list string))
    (course : string) :
  Indexed.counted G seen counts ->
  Indexed.counted G (seen ++ [course])
    (fold_left (Indexed.count_prerequisite course)
               (map fst (Indexed.get_prerequisites G course)) counts).
Proof.
  intros (Hkeys & Hsound & Hcomplete).
  pose proof (get_prerequisites_names G course HG) as Hnd.
  split; [now apply count_fold_keys|]. split.
  - intros p deps. rewrite (count_fold_assoc course _ Hnd).
    destruct (bool_decide (p ∈ _)) eqn:E.
    + apply bool_decide_eq_true_1, list_elem_of_In in E. intros [= <-].
      split; [now destruct (default [] (assoc p counts))|].
      intros c [Hc|Hc]%in_app_or.
      * destruct (assoc p counts) as [deps|] eqn:Ep; [|contradiction].
        destruct (Hsound p deps Ep) as [_ Hdeps].
        destruct (Hdeps c Hc) as [Hseen Hpre].
        split; [apply in_or_app; now left|assumption].
      * destruct Hc as [<-|[]]. split; [apply in_or_app; right; now left|assumption].
    + intros Hp. destruct (Hsound p deps Hp) as [Hne Hdeps].
      split; [assumption|]. intros c Hc. destruct (Hdeps c Hc) as [Hseen Hpre].
      split; [apply in_or_app; now left|assumption].
  - intros c p [Hc|Hc]%in_app_or Hp; rewrite (count_fold_assoc course _ Hnd).
    + destruct (Hcomplete c p Hc Hp) as (deps & Hdeps & Hin).
      rewrite Hdeps. destruct (bool_decide (p ∈ _)).
      * eexists. split; [reflexivity|]. apply in_or_app. now left.
      * now exists deps.
    + destruct Hc as [<-|[]]. rewrite bool_decide_eq_true_2 by now apply list_elem_of_In.
      eexists. split; [reflexivity|]. apply in_or_app. right. now left.
Qed.

Lemma counted_fold (courses seen : list string) (counts : list (string * list string)) :
  Indexed.counted G seen counts ->
  Indexed.counted G (seen ++ courses)
    (fold_left
       (fun prerequisite_counts course =>
          fold_left (Indexed.count_prerequisite course)
                    (map fst (Indexed.get_prerequisites G course)) prerequisite_counts)
       courses counts).
Proof.
  revert seen counts. induction courses as [|course courses IH]; intros seen counts H;
    cbn [fold_left].
  - now rewrite app_nil_r.
  - replace (seen ++ course :: courses) with ((seen ++ [course]) ++ courses)
      by now rewrite <- app_assoc.
    apply IH. now apply counted_step.
Qed.

Lemma count_prerequisites_counted (courses : list string) :
  Indexed.counted G courses (Indexed.count_prerequisites G courses).
Proof.
  apply (counted_fold courses [] []). split; [constructor|].
  split; [intros p deps [=]|intros c p []].
Qed.

(** Every course a prerequisite was met under has an edge from it. *)
Lemma strengths_to_all (p : string) (deps : list string) :
  (forall c, In c deps -> In p (map fst (Indexed.get_prerequisites G c))) ->
  length (Indexed.strengths_to G p deps) = length deps.
Proof.
  intros Hdeps. unfold Indexed.strengths_to.
  induction deps as [|c deps IH]; [reflexivity|].
  assert (Hc : In p (map fst (Indexed.get_prerequisites G c))) by (apply Hdeps; now left).
  apply in_map_iff in Hc. destruct Hc as ([p' s] & Hp' & Hin). cbn in Hp'. subst p'.
  apply (get_prerequisites_In G c p s HG) in Hin.
  cbn [omap list_omap]. rewrite Hin. cbn [length]. f_equal.
  apply IH. intros c' Hc'. apply Hdeps. now right.
Qed.

Lemma rate_prerequisite_total (p : string) (deps : list string) :
  deps <> [] ->
  (forall c, In c deps -> In p (map fst (Indexed.get_prerequisites G c))) ->
  Indexed.criticality (Indexed.rate_prerequisite G (p, deps))
  = py_round (np_sum (Indexed.strengths_to G p deps)) 3 /\
  Indexed.avg_strength (Indexed.rate_prerequisite G (p, deps))
  = py_round (np_sum (Indexed.strengths_to G p deps) / py_len deps) 3.
Proof.
  intros Hne Hdeps. pose proof (strengths_to_all p deps Hdeps) as Hlen.
  unfold Indexed.rate_prerequisite. cbn [Indexed.criticality Indexed.avg_strength].
  assert (Hpl : py_len (Indexed.strengths_to G p deps) = py_len deps)
    by (unfold py_len; now rewrite Hlen).
  pose proof (py_len_pos deps Hne) as Hpos.
  destruct (Indexed.strengths_to G p deps) as [|x l] eqn:E.
  { destruct deps; [congruence|discriminate Hlen]. }
  rewrite Hpl. split; [|reflexivity].
  apply py_round_comp. field. lra.
Qed.

End Counts.

(** X23: for a graph an object can hold, [get_critical_prerequisites]
    lists every prerequisite of one of the given courses once, the
    most critical first.  An entry holds the given courses that have
    the prerequisite (each of them has an edge from it), and at least
    one; its criticality is the sum of the strengths of these edges,
    rounded to three decimals (the number of courses times their
    average strength), its average strength that sum over the number
    of courses, rounded. *)
Theorem critical_prerequisites_total_strength
    (G : Indexed.t) (current_courses : list string) :
  Indexed.built G ->
  StronglySorted (fun a b => Indexed.criticality b <= Indexed.criticality a)
    (Indexed.get_critical_prerequisites G current_courses) /\
  NoDup (map Indexed.subject (Indexed.get_critical_prerequisites G current_courses)) /\
  (forall r, In r (Indexed.get_critical_prerequisites G current_courses) ->
     Indexed.dependent_courses r <> [] /\
     (forall c, In c (Indexed.dependent_courses r) ->
        In c current_courses /\
        is_Some (assoc c (successors (Indexed._succ G) (Indexed.subject r)))) /\
     Indexed.criticality r
     = py_round (np_sum (Indexed.strengths_to G (Indexed.subject r)
                           (Indexed.dependent_courses r))) 3 /\
     Indexed.avg_strength r
     = py_round (np_sum (Indexed.strengths_to G (Indexed.subject r)
                           (Indexed.dependent_courses r))
                 / py_len (Indexed.dependent_courses r)) 3) /\
  (forall c p s, In c current_courses ->
     assoc c (successors (Indexed._succ G) p) = Some s ->
     exists r, In r (Indexed.get_critical_prerequisites G current_courses) /\
               Indexed.subject r = p /\ In c (Indexed.dependent_courses r)).
Proof.
  intros Hb. pose proof (built_consistent G Hb) as HG.
  destruct (count_prerequisites_counted G HG current_courses)
    as (Hkeys & Hsound & Hcomplete).
  unfold Indexed.get_critical_prerequisites.
  set (counts := Indexed.count_prerequisites G current_courses) in *.
  assert (Hsubject : forall e, Indexed.subject (Indexed.rate_prerequisite G e) = fst e)
    by now intros [p deps].
  assert (Hdeps : forall e, Indexed.dependent_courses (Indexed.rate_prerequisite G e) = snd e)
    by now intros [p deps].
  split; [apply sorted_desc_sorted'|]. split; [|split].
  - rewrite (Permutation_map Indexed.subject (sorted_desc_perm Indexed.criticality _)).
    rewrite map_map. rewrite (map_ext _ fst Hsubject). exact Hkeys.
  - intros r Hr. apply (Permutation_in _ (sorted_desc_perm Indexed.criticality _)) in Hr.
    apply in_map_iff in Hr. destruct Hr as ([p deps] & <- & Hin).
    rewrite Hsubject, Hdeps. cbn [fst snd].
    apply (assoc_NoDup_In p deps counts Hkeys) in Hin.
    destruct (Hsound p deps Hin) as [Hne Hall].
    split; [assumption|]. split.
    + intros c Hc. destruct (Hall c Hc) as [Hseen Hpre]. split; [assumption|].
      apply in_map_iff in Hpre. destruct Hpre as ([p' s] & Hp' & Hpre).
      cbn in Hp'. subst p'. apply (get_prerequisites_In G c p s HG) in Hpre.
      now exists s.
    + apply (rate_prerequisite_total G HG p deps Hne).
      intros c Hc. apply (Hall c Hc).
  - intros c p s Hc Hs.
    assert (Hp : In p (map fst (Indexed.get_prerequisites G c))).
    { apply in_map_iff. exists (p, s). split; [reflexivity|].
      now apply get_prerequisites_In. }
    destruct (Hcomplete c p Hc Hp) as (deps & Hdeps' & Hin).
    exists (Indexed.rate_prerequisite G (p, deps)).
    split; [|split; [reflexivity|assumption]].
    apply (Permutation_in _ (Permutation_sym (sorted_desc_perm Indexed.criticality _))).
    apply in_map. now apply assoc_In.
Qed.

End Critical.

Lemma critical_prerequisites_total_strength_witness :
  let G := KnowledgeGraph.Indexed.init in
  let current_courses := ["Machine Learning"; "Calculus II"; "Linear Algebra"]%string in
  StronglySorted
    (fun a b => KnowledgeGraph.Indexed.criticality b <= KnowledgeGraph.Indexed.criticality a)
    (KnowledgeGraph.Indexed.get_critical_prerequisites G current_courses) /\
  NoDup (map KnowledgeGraph.Indexed.subject
           (KnowledgeGraph.Indexed.get_critical_prerequisites G current_courses)) /\
  (forall r, In r (KnowledgeGraph.Indexed.get_critical_prerequisites G current_courses) ->
     KnowledgeGraph.Indexed.dependent_courses r <> [] /\
     (forall c, In c (KnowledgeGraph.Indexed.dependent_courses r) ->
        In c current_courses /\
        is_Some (KnowledgeGraph.assoc c
                   (KnowledgeGraph.successors (KnowledgeGraph.Indexed._succ G)
                      (KnowledgeGraph.Indexed.subject r)))) /\
     KnowledgeGraph.Indexed.criticality r
     = py_round (np_sum (KnowledgeGraph.Indexed.strengths_to G
                           (KnowledgeGraph.Indexed.subject r)
                           (KnowledgeGraph.Indexed.dependent_courses r))) 3 /\
     KnowledgeGraph.Indexed.avg_strength r
     = py_round (np_sum (KnowledgeGraph.Indexed.strengths_to G
                           (KnowledgeGraph.Indexed.subject r)
                           (KnowledgeGraph.Indexed.dependent_courses r))
                 / py_len (KnowledgeGraph.Indexed.dependent_courses r)) 3) /\
  (forall c p s, In c current_courses ->
     KnowledgeGraph.assoc c
       (KnowledgeGraph.successors (KnowledgeGraph.Indexed._succ G) p) = Some s ->
     exists r, In r (KnowledgeGraph.Indexed.get_critical_prerequisites G current_courses) /\
               KnowledgeGraph.Indexed.subject r = p /\
               In c (KnowledgeGraph.Indexed.dependent_courses r)).
Proof.
  intros G current_courses.
  apply (critical_prerequisites_total_strength G current_courses). constructor.
Defined.

(** ** KnowledgeGraph: the second hop *)

Section SecondHop.
Import KnowledgeGraph.

Lemma propagate_fold_queue_app (cr : Q) (succs : list (string * Q))
    (risks : gmap string Q) (queue : list (string * Q)) :
  exists extra, snd (fold_left (propagate_step cr) succs (risks, queue)) = queue ++ extra.
Proof.
  revert risks queue. induction succs as [|[d s] succs IH]; intros risks queue.
  - exists []. cbn. now rewrite app_nil_r.
  - cbn [fold_left propagate_step].
    destruct (Qlt_bool 0.2 (cr * s * 0.8)).
    + destruct (IH (match risks !! d with
                    | Some old => <[d := Qmax old (cr * s * 0.8)]> risks
                    | None => <[d := cr * s * 0.8]> risks
                    end) (queue ++ [(d, cr * s * 0.8)])) as [extra ->].
      eexists. now rewrite <- app_assoc.
    + apply IH.
Qed.

(** A dependent whose propagated value exceeds the threshold joins
    the queue once, behind other courses. *)
Lemma propagate_fold_enqueues (cr : Q) (succs : list (string * Q)) (d : string) (s : Q) :
  NoDup (map fst succs) -> In (d, s) succs -> 0.2 < cr * s * 0.8 ->
  forall (risks : gmap string Q) (queue : list (string * Q)),
  exists pre post,
    snd (fold_left (propagate_step cr) succs (risks, queue))
    = queue ++ pre ++ (d, cr * s * 0.8) :: post /\
    ~ In d (map fst pre).
Proof.
  intros Hnd Hin Hbig. induction succs as [|[d' s'] succs IH]; [contradiction|].
  intros risks queue. cbn [map fst] in Hnd. apply NoDup_cons in Hnd as [Hd' Hnd].
  cbn [fold_left]. destruct Hin as [[= -> ->]|Hin].
  - cbn [propagate_step]. rewrite (Qlt_bool_true_intro _ _ Hbig).
    destruct (propagate_fold_queue_app cr succs
                (match risks !! d with
                 | Some old => <[d := Qmax old (cr * s * 0.8)]> risks
                 | None => <[d := cr * s * 0.8]> risks
                 end) (queue ++ [(d, cr * s * 0.8)])) as [extra ->].
    exists [], extra. split; [now rewrite <- app_assoc|intros []].
  - assert (Hne : d <> d').
    { intros ->. apply Hd'. apply list_elem_of_In. apply (in_map fst) in Hin. exact Hin. }
    cbn [propagate_step]. destruct (Qlt_bool 0.2 (cr * s' * 0.8)).
    + destruct (IH Hnd Hin
                  (match risks !! d' with
                   | Some old => <[d' := Qmax old (cr * s' * 0.8)]> risks
                   | None => <[d' := cr * s' * 0.8]> risks
                   end) (queue ++ [(d', cr * s' * 0.8)])) as (pre & post & -> & Hpre).
      exists ((d', cr * s' * 0.8) :: pre), post. split; [now rewrite <- app_assoc|].
      cbn. intros [?|?]; [congruence|contradiction].
    + apply (IH Hnd Hin).
Qed.

(** A course waiting in the queue that was not visited, and is not
    waiting earlier in the queue, has its risk propagated. *)
Lemma propagate_loop_serves (g : DiGraph) (d : string) (p : Q) (fuel : nat) :
  forall visited pre post risks m,
    propagate_loop fuel g visited (pre ++ (d, p) :: post) risks = Some m ->
    d ∉ visited -> ~ In d (map fst pre) ->
    forall e s, In (e, s) (successors g d) ->
      exists v, m !! e = Some v /\ p * s * 0.8 <= v.
Proof.
  induction fuel as [|fuel IH]; intros visited pre post risks m Hm Hvis Hpre e s He.
  - destruct pre as [|[x rx] pre]; cbn in Hm; discriminate Hm.
  - destruct pre as [|[x rx] pre]; cbn [app propagate_loop] in Hm.
    + rewrite bool_decide_eq_false_2 in Hm by assumption.
      destruct (propagate_fold_reaches p (successors g d) (risks, post) e s He)
        as (v & Hv & Hle).
      destruct (fold_left _ _ _) as [risks' queue']. cbn [fst] in Hv.
      destruct (propagate_loop_grows _ _ _ _ _ _ Hm e v Hv) as (v' & Hv' & Hle').
      exists v'. split; [assumption|]. eapply Qle_trans; eassumption.
    + assert (Hx : d <> x) by (intros ->; apply Hpre; now left).
      assert (Hpre' : ~ In d (map fst pre)) by (intros H; apply Hpre; now right).
      case_bool_decide.
      * eapply IH; eassumption.
      * destruct (propagate_fold_queue_app rx (successors g x) risks
                    (pre ++ (d, p) :: post)) as [extra Hq].
        destruct (fold_left _ _ _) as [risks' queue']. cbn [snd] in Hq. subst queue'.
        rewrite <- app_assoc in Hm. cbn [app] in Hm.
        eapply (IH _ pre (post ++ extra)); [exact Hm| |assumption|exact He].
        intros [Hin|Hin]%elem_of_union; [|contradiction].
        apply elem_of_singleton in Hin. congruence.
Qed.

(** X24: in a graph an object can hold, a direct dependent [d] of
    the failed course whose value over the edge from it,
    [failure_risk * s * 0.8], exceeds 0.2 passes that value on: every
    dependent [e] of [d] (other than the failed course) is in the map
    with at least [failure_risk * s * 0.8 * s' * 0.8], for the
    strengths [s] of the edge to [d] and [s'] of the edge from [d] to
    [e].  The bound is from the value [d] was queued with: the value
    of [d] in the returned map can be larger, and what it gained
    later is not passed on. *)
Theorem propagate_risk_passes_on_significant_risk
    (g : DiGraph) (source : string) (source_risk : Q) (d e : string) (s s' : Q) :
  built g ->
  In (d, s) (successors g source) -> d <> source ->
  0.2 < source_risk * s * 0.8 ->
  In (e, s') (successors g d) -> e <> source ->
  exists (m : gmap string Q) (v : Q),
    propagate_risk g source source_risk = Some m /\
    m !! e = Some v /\
    source_risk * s * 0.8 * s' * 0.8 <= v.
Proof.
  intros Hb Hd Hds Hbig He Hes.
  destruct (well_formed_successors g source (built_well_formed g Hb)) as [Hnd _].
  destruct (propagate_risk_returns g source source_risk) as [m Hm].
  exists m. pose proof Hm as Hrun. unfold propagate_risk in Hm.
  destruct (has_node g source) eqn:Hnode; cbn [negb] in Hm.
  - unfold traversal_fuel in Hm. cbn [propagate_loop] in Hm.
    rewrite bool_decide_eq_false_2 in Hm by set_solver.
    destruct (propagate_fold_enqueues source_risk (successors g source) d s Hnd Hd Hbig ∅ [])
      as (pre & post & Hq & Hpre).
    destruct (fold_left _ _ _) as [risks queue]. cbn [snd app] in Hq. subst queue.
    destruct (propagate_loop _ _ _ _ _) as [risks'|] eqn:E; [|discriminate].
    injection Hm as <-.
    destruct (propagate_loop_serves g d _ _ _ pre post risks risks' E) with (e := e) (s := s')
      as (v & Hv & Hle); [|assumption|assumption|].
    { intros [Hin|Hin]%elem_of_union; [|now apply not_elem_of_empty in Hin].
      apply elem_of_singleton in Hin. congruence. }
    exists v. split; [exact Hrun|]. split; [|assumption].
    now rewrite lookup_delete_ne by congruence.
  - exfalso. unfold successors, has_node in *. destruct (assoc source g); [discriminate|].
    contradiction.
Qed.

End SecondHop.

Lemma propagate_risk_passes_on_significant_risk_witness :
  exists (m : gmap string Q) (v : Q),
    KnowledgeGraph.propagate_risk KnowledgeGraph.init "Calculus I" 0.85 = Some m /\
    m !! "Calculus III"%string = Some v /\
    0.85 * 0.9 * 0.8 * 0.85 * 0.8 <= v.
Proof.
  apply (propagate_risk_passes_on_significant_risk KnowledgeGraph.init "Calculus I" 0.85
           "Calculus II" "Calculus III" 0.9 0.85).
  - constructor.
  - vm_compute. tauto.
  - discriminate.
  - reflexivity.
  - vm_compute. tauto.
  - discriminate.
Defined.

(** ** KnowledgeGraph: bounds of the dependency depth *)

Section Depth.
Import KnowledgeGraph.

Lemma bfs_levels_bound (g : DiGraph) (target : string) (fuel : nat) :
  forall frontier seen depth n,
    bfs_levels fuel g target frontier seen depth = Some n ->
    (depth <= n <= depth + fuel)%nat.
Proof.
  induction fuel as [|fuel IH]; intros frontier seen depth n H; cbn [bfs_levels] in H.
  - case_bool_decide; [|discriminate]. injection H as <-. lia.
  - case_bool_decide; [injection H as <-; lia|].
    destruct (next_level g frontier seen) as [|x next]; [discriminate|].
    apply IH in H. lia.
Qed.

Lemma shortest_path_length_bound (g : DiGraph) (source target : string) (n : nat) :
  shortest_path_length g source target = Some n -> (n <= length g)%nat.
Proof. unfold shortest_path_length. intros H. apply bfs_levels_bound in H. lia. Qed.

Lemma bfs_levels_hit (g : DiGraph) (target : string) (fuel : nat)
    (frontier : list string) (seen : gset string) (depth : nat) :
  target ∈ frontier -> bfs_levels fuel g target frontier seen depth = Some depth.
Proof. intros H. destruct fuel; cbn [bfs_levels]; now rewrite bool_decide_eq_true_2. Qed.

Lemma shortest_path_length_edge (g : DiGraph) (u c : string) (s : Q) :
  In u (nodes g) -> u <> c -> In (c, s) (successors g u) ->
  shortest_path_length g u c = Some 1%nat.
Proof.
  intros Hu Hne Hedge. unfold shortest_path_length.
  destruct g as [|entry g']; [contradiction|]. cbn [length bfs_levels].
  rewrite bool_decide_eq_false_2
    by (intros H; apply list_elem_of_singleton in H; congruence).
  set (g := entry :: g') in *.
  assert (Hc : c ∈ next_level g [u] {[u]}).
  { cbn [next_level]. rewrite app_nil_r. apply list_elem_of_In, filter_In. split.
    - apply (in_map fst) in Hedge. exact Hedge.
    - apply negb_true_iff, bool_decide_eq_false_2. set_solver. }
  destruct (next_level g [u] {[u]}) as [|x next] eqn:E.
  { now apply not_elem_of_nil in Hc. }
  now apply bfs_levels_hit.
Qed.

(** The loop of [calculate_dependency_depth] over the nodes. *)
Lemma depth_paths_bound (g : DiGraph) (course : string) (l : list string) :
  forall paths,
    Forall (fun n => (n <= length g)%nat) paths ->
    Forall (fun n => (n <= length g)%nat)
      (fold_left
         (fun paths node =>
            if negb (bool_decide (node = course)) && has_path g node course
            then match shortest_path_length g node course with
                 | Some path_length => paths ++ [path_length]
                 | None => paths
                 end
            else paths) l paths).
Proof.
  induction l as [|node l IH]; intros paths Hpaths; cbn [fold_left]; [assumption|].
  apply IH. destruct (negb _ && _); [|assumption].
  destruct (shortest_path_length g node course) as [n|] eqn:E; [|assumption].
  apply List.Forall_app. split; [assumption|]. constructor; [|constructor].
  now apply shortest_path_length_bound in E.
Qed.

Lemma depth_paths_keep (g : DiGraph) (course : string) (l : list string) (n : nat) :
  forall paths,
    In n paths ->
    In n (fold_left
            (fun paths node =>
               if negb (bool_decide (node = course)) && has_path g node course
               then match shortest_path_length g node course with
                    | Some path_length => paths ++ [path_length]
                    | None => paths
                    end
               else paths) l paths).
Proof.
  induction l as [|node l IH]; intros paths Hn; cbn [fold_left]; [assumption|].
  apply IH. destruct (negb _ && _); [|assumption].
  destruct (shortest_path_length g node course); [|assumption].
  apply in_or_app. now left.
Qed.

Lemma depth_paths_edge (g : DiGraph) (course u : string) (l : list string) :
  In u l -> u <> course -> shortest_path_length g u course = Some 1%nat ->
  forall paths,
    In 1%nat (fold_left
                (fun paths node =>
                   if negb (bool_decide (node = course)) && has_path g node course
                   then match shortest_path_length g node course with
                        | Some path_length => paths ++ [path_length]
                        | None => paths
                        end
                   else paths) l paths).
Proof.
  intros Hu Hne Hlen. induction l as [|node l IH]; intros paths; [contradiction|].
  cbn [fold_left]. destruct Hu as [->|Hu]; [|now apply IH].
  apply depth_paths_keep. unfold has_path. rewrite Hlen.
  rewrite bool_decide_eq_false_2 by assumption. cbn.
  apply in_or_app. right. now left.
Qed.

(** X25: in a graph an object can hold, a course that another
    course has an edge to has a dependency depth of at least 1 and
    at most the number of courses of the graph. *)
Theorem dependency_depth_bounds (g : DiGraph) (course u : string) (s : Q) :
  built g -> u <> course -> In (course, s) (successors g u) ->
  (1 <= calculate_dependency_depth g course <= length g)%nat.
Proof.
  intros Hb Hne Hedge.
  assert (Hu : In u (nodes g)).
  { apply has_node_In. unfold has_node, successors in *.
    destruct (assoc u g); [reflexivity|contradiction]. }
  assert (Hnode : has_node g course = true).
  { destruct (well_formed_successors g u (built_well_formed g Hb)) as [_ Hall].
    rewrite List.Forall_forall in Hall. apply (Hall _ Hedge). }
  unfold calculate_dependency_depth. rewrite Hnode. cbn [negb]. split.
  - pose proof (depth_paths_edge g course u (nodes g) Hu Hne
                  (shortest_path_length_edge g u course s Hu Hne Hedge) []) as H.
    destruct (fold_left _ _ _) as [|n paths]; [contradiction|].
    assert (Hle : (list_max (n :: paths) <= list_max (n :: paths))%nat) by lia.
    apply list_max_le in Hle. rewrite List.Forall_forall in Hle.
    now apply Hle.
  - pose proof (depth_paths_bound g course (nodes g) [] (List.Forall_nil _)) as H.
    destruct (fold_left _ _ _) as [|n paths]; [lia|].
    now apply list_max_le.
Qed.

End Depth.

Lemma dependency_depth_bounds_witness :
  (1 <= KnowledgeGraph.calculate_dependency_depth KnowledgeGraph.init "Calculus III"
     <= length KnowledgeGraph.init)%nat.
Proof.
  apply (dependency_depth_bounds KnowledgeGraph.init "Calculus III" "Calculus II" 0.85).
  - constructor.
  - discriminate.
  - vm_compute. tauto.
Defined.
